(** * Token analyzer: the indicator library and the signal synthesizer

    A shallow embedding of [src/index.ts] (class [TradingStrategy]) and the
    properties its specification states about it.

    Layout:
    - [Number]: the arithmetic of JavaScript numbers as an interface, so that
      every structural result holds for whatever arithmetic runs the code;
    - [JSArray]: [slice], indexed reads, [for]/[push] loops, stable [sort];
    - the methods of [TradingStrategy], under their source names;
    - two instances of [Number]: IEEE-754 binary64 ([Float64], the numbers
      the program really computes with) and exact rationals with a NaN
      ([Exact], the real-number reading of the same formulas);
    - the facts of IEEE-754 arithmetic that results on order and range
      assume ([order_laws], [nan_source_laws], [rounding_laws],
      [zero_laws]): each is about one operation, holds of [Exact], and is
      run on binary64 values;
    - the theorems. *)

From Stdlib Require Import String.
From Stdlib Require Import ZArith List Bool Lia.
From Stdlib Require Import QArith Qround Lqa.
From Stdlib Require Import Permutation Sorted.
From Stdlib Require PrimFloat Uint63.
Import ListNotations.


Local Open Scope Z_scope.

(* ------------------------------------------------------------------ *)
(** ** JavaScript numbers as an interface *)

(** The operations the program applies to values of type [number].
    [nan] is what [undefined] becomes when it enters arithmetic or an
    ordered comparison; [of_Z] reads an integer literal or a count. *)
Class Number (num : Type) : Type := {
  of_Z : Z -> num;
  nan : num;
  nadd : num -> num -> num;
  nsub : num -> num -> num;
  nmul : num -> num -> num;
  ndiv : num -> num -> num;
  nneg : num -> num;
  nlt : num -> num -> bool;          (* a < b *)
  nle : num -> num -> bool;          (* a <= b *)
  strict_eq : num -> num -> bool;    (* a === b *)
  math_max : num -> num -> num;      (* Math.max(a, b) *)
  math_sq : num -> num;              (* Math.pow(a, 2) *)
  math_sqrt : num -> num             (* Math.sqrt(a) *)
}.

Declare Scope num_scope.
Delimit Scope num_scope with num.
Infix "+" := nadd : num_scope.
Infix "-" := nsub : num_scope.
Infix "*" := nmul : num_scope.
Infix "/" := ndiv : num_scope.
Notation "- x" := (nneg x) : num_scope.
Infix "<?" := nlt : num_scope.
Infix "<=?" := nle : num_scope.
Notation "a >? b" := (nlt b a) (only parsing) : num_scope.
Notation "a >=? b" := (nle b a) (only parsing) : num_scope.
Infix "===" := strict_eq (at level 70) : num_scope.

(* ------------------------------------------------------------------ *)
(** ** JavaScript arrays *)

Module JSArray.

(** A relative index of [Array.prototype.slice]: negative counts from the
    end, and the result is brought into [0, len]. *)
Definition rel_index (len k : Z) : Z :=
  if k <? 0 then Z.max (len + k) 0 else Z.min k len.

(** [arr.slice(s, e)] *)
Definition slice {A} (l : list A) (s e : Z) : list A :=
  let len := Z.of_nat (length l) in
  let k := rel_index len s in
  let final := rel_index len e in
  firstn (Z.to_nat (final - k)) (skipn (Z.to_nat k) l).

(** [arr.slice(s)] *)
Definition slice_from {A} (l : list A) (s : Z) : list A :=
  slice l s (Z.of_nat (length l)).

(** [arr[i]]: [None] is [undefined]. *)
Definition item {A} (l : list A) (i : Z) : option A :=
  if i <? 0 then None else nth_error l (Z.to_nat i).

(** [arr.length] *)
Definition len {A} (l : list A) : Z := Z.of_nat (length l).

(** The values of [i] in [for (let i = lo; i < hi; i++)]. *)
Definition range (lo hi : Z) : list Z :=
  map (fun k => lo + Z.of_nat k) (seq 0 (Z.to_nat (hi - lo))).

(** [for (i of idx) arr.push(step(arr, i))]: the body sees the array as
    pushed so far. *)
Definition push_loop {A B} (step : list B -> A -> B) (init : list B)
    (idx : list A) : list B :=
  fold_left (fun arr i => arr ++ [step arr i]) idx init.

(** [arr.map((x, i) => f x i)] *)
Fixpoint mapi_from {A B} (f : A -> Z -> B) (i : Z) (l : list A) : list B :=
  match l with
  | [] => []
  | x :: r => f x i :: mapi_from f (i + 1) r
  end.

Definition mapi {A B} (f : A -> Z -> B) (l : list A) : list B :=
  mapi_from f 0 l.

(** [Array.prototype.sort(cmp)].  The language requires the sort to be
    stable and to order [a] before [b] when [cmp(a, b) < 0]; any such sort
    returns the same array, so the model is the simplest one, a stable
    insertion sort. *)
Fixpoint insert {A} (cmp : A -> A -> Z) (x : A) (l : list A) : list A :=
  match l with
  | [] => [x]
  | y :: r => if cmp x y <=? 0 then x :: y :: r else y :: insert cmp x r
  end.

Fixpoint sort {A} (cmp : A -> A -> Z) (l : list A) : list A :=
  match l with
  | [] => []
  | x :: r => insert cmp x (sort cmp r)
  end.

End JSArray.
Import JSArray.

(* ------------------------------------------------------------------ *)
(** ** The data model *)

Inductive Recommendation := BUY | SELL | HOLD.

(** A failed call: the only exception the strategy can raise is the
    [TypeError] of reading a property of [undefined]. *)
Inductive result (A : Type) : Type :=
| Ok (a : A)
| TypeError (msg : String.string).
Arguments Ok {A} a.
Arguments TypeError {A} msg.

Section Strategy.

Context {num : Type} {N : Number num}.
Local Open Scope num_scope.

Record TokenData := mkTokenData {
  timestamp : Z;
  price : num;
  volume : num
}.

Record CrossSignals := mkCrossSignals {
  goldenCross : bool;
  deathCross : bool
}.

(** [confidence] only ever receives sums of the integer literals of the
    rule table (at most 130 in magnitude, exact in binary64): it is carried
    as an integer. *)
Record StrategySignal := mkStrategySignal {
  currentPrice : num;
  recommendation : Recommendation;
  confidence : Z;
  reasons : list String.string;
  crossSignals : CrossSignals
}.

Record TradingStrategy := mkTradingStrategy {
  data : list TokenData
}.

(** [constructor]: [data.sort((a, b) => a.timestamp - b.timestamp)] *)
Definition by_timestamp (a b : TokenData) : Z :=
  (timestamp a - timestamp b)%Z.

Definition new_TradingStrategy (d : list TokenData) : TradingStrategy :=
  {| data := sort by_timestamp d |}.

(** A number read from an array: [undefined] acts as NaN.  Array indices
    are integers (an index below 0 or past the end reads [undefined]);
    periods are counts. *)
Definition get (l : list num) (i : Z) : num :=
  match item l i with
  | Some x => x
  | None => nan
  end.

Definition num_of_nat (n : nat) : num := of_Z (Z.of_nat n).

(** [arr.reduce((a, b) => a + b, 0)] *)
Definition sum (l : list num) : num := fold_left nadd l (of_Z 0).

(** *** Momentum: RSI *)

Definition calculateSmoothedMovingAverage (values : list num)
    (periods : nat) : list num :=
  let p := num_of_nat periods in
  let seed := sum (slice values 0 (Z.of_nat periods)) / p in
  push_loop
    (fun smoothedMA i =>
       (get smoothedMA (len smoothedMA - 1) * (p - of_Z 1) + get values i) / p)
    [seed]
    (range (Z.of_nat periods) (len values)).

Definition price_changes (prices : list num) : list num :=
  mapi (fun p i => if (0 <? i)%Z then p - get prices (i - 1) else of_Z 0)
       prices.

Definition rsi_value (ag al : num) : num :=
  if al === of_Z 0 then of_Z 100
  else of_Z 100 - of_Z 100 / (of_Z 1 + ag / al).

Definition calculateRSI (self : TradingStrategy) (periods : nat) : list num :=
  let prices := map price (data self) in
  let changes := price_changes prices in
  let gains := map (fun change => math_max change (of_Z 0)) changes in
  let losses := map (fun change => math_max (- change) (of_Z 0)) changes in
  let avgGain := calculateSmoothedMovingAverage gains periods in
  let avgLoss := calculateSmoothedMovingAverage losses periods in
  mapi (fun ag i => rsi_value ag (get avgLoss i)) avgGain.

(** *** Trend: EMA and SMA *)

Definition calculateSimpleMovingAverage (prices : list num)
    (periods : nat) : num :=
  sum (slice prices 0 (Z.of_nat periods)) / num_of_nat periods.

Definition ema_step (alpha : num) (prices : list num)
    (ema : list num) (i : Z) : num :=
  let currentPrice := get prices i in
  let previousEMA := get ema (len ema - 1) in
  currentPrice * alpha + previousEMA * (of_Z 1 - alpha).

Definition smoothing (periods : nat) : num :=
  of_Z 2 / (num_of_nat periods + of_Z 1).

(** The seed calls [calculateSimpleMovingAverage] without its second
    argument, which then takes its default 50. *)
Definition calculateEMA (self : TradingStrategy) (periods : nat) : list num :=
  let prices := map price (data self) in
  let alpha := smoothing periods in
  push_loop (ema_step alpha prices)
    [calculateSimpleMovingAverage (slice prices 0 (Z.of_nat periods)) 50]
    (range (Z.of_nat periods) (len prices)).

Definition calculateExponentialMovingAverages (prices : list num)
    (periods : nat) : list num :=
  let alpha := smoothing periods in
  push_loop (ema_step alpha prices)
    [sum (slice prices 0 (Z.of_nat periods)) / num_of_nat periods]
    (range (Z.of_nat periods) (len prices)).

(** *** MACD *)

Record MACD := mkMACD {
  macdLine : list num;
  signalLine : list num
}.

Definition calculateMACD (self : TradingStrategy)
    (shortPeriod longPeriod signalPeriod : nat) : MACD :=
  let prices := map price (data self) in
  let shortEMA := calculateExponentialMovingAverages prices shortPeriod in
  let longEMA := calculateExponentialMovingAverages prices longPeriod in
  let macdLine := mapi (fun sEMA i => sEMA - get longEMA i) shortEMA in
  let signalLine := calculateExponentialMovingAverages macdLine signalPeriod in
  {| macdLine := macdLine; signalLine := signalLine |}.

(** *** Volatility: Bollinger bands *)

Definition calculateMovingAverage (prices : list num) (periods : nat)
    : list num :=
  map (fun i =>
         let subset := slice prices (i - Z.of_nat periods + 1) (i + 1) in
         sum subset / num_of_nat periods)
      (range (Z.of_nat periods - 1) (len prices)).

Definition window_deviation (prices : list num) (periods : nat) (i : Z)
    : num :=
  let subset := slice prices (Z.max 0 (i - Z.of_nat periods + 1)) (i + 1) in
  let mean := sum subset / num_of_nat (length subset) in
  let variance :=
    fold_left (fun a b => a + math_sq (b - mean)) subset (of_Z 0)
    / num_of_nat (length subset) in
  math_sqrt variance.

Record BollingerBands := mkBollingerBands {
  middleBand : list num;
  upperBand : list num;
  lowerBand : list num
}.

Definition calculateBollingerBands (self : TradingStrategy) (periods : nat)
    (standardDeviation : num) : BollingerBands :=
  let prices := map price (data self) in
  let middleBand := calculateMovingAverage prices periods in
  let standardDeviations :=
    mapi (fun _ i => window_deviation prices periods i) prices in
  let upperBand :=
    mapi (fun mb i => mb + get standardDeviations i * standardDeviation)
         middleBand in
  let lowerBand :=
    mapi (fun mb i => mb - get standardDeviations i * standardDeviation)
         middleBand in
  {| middleBand := middleBand; upperBand := upperBand;
     lowerBand := lowerBand |}.

(** *** Volume: OBV *)

(** [obv] starts as [[volumes[0]]]; on empty data that entry is
    [undefined], which the only reader (a subtraction) turns into NaN. *)
Definition obv_step (prices volumes : list num) (obv : list num) (i : Z)
    : num :=
  if get prices i >? get prices (i - 1) then
    get obv (i - 1) + get volumes i
  else if get prices i <? get prices (i - 1) then
    get obv (i - 1) - get volumes i
  else
    get obv (i - 1).

Definition calculateOBV (self : TradingStrategy) : list num :=
  let prices := map price (data self) in
  let volumes := map volume (data self) in
  push_loop (obv_step prices volumes) [get volumes 0] (range 1 (len prices)).

(** *** Golden and death cross *)

Definition detectCrosses (self : TradingStrategy)
    (shortPeriod longPeriod : nat) : CrossSignals :=
  let prices := map price (data self) in
  let shortTermEMA := calculateExponentialMovingAverages prices shortPeriod in
  let longTermEMA := calculateExponentialMovingAverages prices longPeriod in
  if ((len shortTermEMA <? 2) || (len longTermEMA <? 2))%Z%bool then
    {| goldenCross := false; deathCross := false |}
  else
    let shortTermLast := slice_from shortTermEMA (-2) in
    let longTermLast := slice_from longTermEMA (-2) in
    let goldenCross :=
      (get shortTermLast 0 <=? get longTermLast 0)
      && (get shortTermLast 1 >? get longTermLast 1) in
    let deathCross :=
      (get shortTermLast 0 >=? get longTermLast 0)
      && (get shortTermLast 1 <? get longTermLast 1) in
    {| goldenCross := goldenCross; deathCross := deathCross |}.

(** *** The signal synthesizer *)

(** [reasons.push(reason); confidence += delta] *)
Definition rule (delta : Z) (reason : String.string)
    (st : Z * list String.string) : Z * list String.string :=
  ((fst st + delta)%Z, snd st ++ [reason]).

(** [reasons.push(reason)] alone *)
Definition note (reason : String.string)
    (st : Z * list String.string) : Z * list String.string :=
  (fst st, snd st ++ [reason]).

(** The rule table of [generateTradingSignal], from the latest values to the
    signed score and the reasons, in the order of the source. *)
Definition applyRules (latestPrice latestRSI latestEMA latestMACD
    latestSignalLine latestUpperBand latestLowerBand obvSlope : num)
    (goldenCross deathCross : bool) : Z * list String.string :=
  let st := (0%Z, []) in
  let st :=
    if latestRSI <? of_Z 30 then
      rule 20 "RSI indicates oversold condition"%string st
    else if latestRSI >? of_Z 70 then
      rule (-20) "RSI indicates overbought condition"%string st
    else note "RSI indicates steady condition"%string st in
  let st :=
    if latestPrice >? latestEMA then
      rule 15 "Price is above EMA50, bullish trend"%string st
    else rule (-15) "Price is below EMA50, bearish trend"%string st in
  let st :=
    if latestMACD >? latestSignalLine then
      rule 25 "MACD shows bullish momentum"%string st
    else rule (-25) "MACD shows bearish momentum"%string st in
  let st :=
    if latestPrice <=? latestLowerBand then
      rule 20 "Price near lower Bollinger Band, potential buy signal"%string st
    else if latestPrice >=? latestUpperBand then
      rule (-20) "Price near upper Bollinger Band, potential sell signal"%string st
    else note "Bollinger Band indicates steady condition"%string st in
  let st :=
    if obvSlope >? of_Z 0 then
      rule 20 "Positive On-Balance Volume trend"%string st
    else rule (-20) "Negative On-Balance Volume trend"%string st in
  let st :=
    if goldenCross then
      rule 30
        "Golden Cross detected: Short-term EMA crossing above long-term EMA"%string
        st
    else st in
  let st :=
    if deathCross then
      rule (-30)
        "Death Cross detected: Short-term EMA crossing below long-term EMA"%string
        st
    else st in
  st.

(** The indicators, their latest values and the rule table: everything
    [generateTradingSignal] computes before the final recommendation, given
    the latest price.  None of it can raise. *)
Definition signalScore (self : TradingStrategy) (latestPrice : num)
    : Z * list String.string :=
  let rsi := calculateRSI self 14 in
  let ema := calculateEMA self 50 in
  let macd := calculateMACD self 12 26 9 in
  let bollingerBands := calculateBollingerBands self 20 (of_Z 2) in
  let obv := calculateOBV self in
  let crosses := detectCrosses self 50 200 in
  let latestRSI := get rsi (len rsi - 1) in
  let latestEMA := get ema (len ema - 1) in
  let latestMACD := get (macdLine macd) (len (macdLine macd) - 1) in
  let latestSignalLine :=
    get (signalLine macd) (len (signalLine macd) - 1) in
  let latestUpperBand :=
    get (upperBand bollingerBands) (len (upperBand bollingerBands) - 1) in
  let latestLowerBand :=
    get (lowerBand bollingerBands) (len (lowerBand bollingerBands) - 1) in
  let obvSlope := get obv (len obv - 1) - get obv (len obv - 2) in
  applyRules latestPrice latestRSI latestEMA latestMACD latestSignalLine
    latestUpperBand latestLowerBand obvSlope
    (goldenCross crosses) (deathCross crosses).

(** [this.data[this.data.length - 1].price] is the one place that can
    raise: the element is [undefined] when the data is empty. *)
Definition generateTradingSignal (self : TradingStrategy)
    : result StrategySignal :=
  match item (data self) (len (data self) - 1) with
  | None =>
      TypeError "Cannot read properties of undefined (reading 'price')"%string
  | Some latest =>
      let latestPrice := price latest in
      let '(confidence, reasons) := signalScore self latestPrice in
      let recommendation := HOLD in
      let recommendation :=
        if (confidence >? 30)%Z then BUY else recommendation in
      let recommendation :=
        if (confidence <? -30)%Z then SELL else recommendation in
      let confidence := Z.min (Z.max confidence (-100)) 100 in
      Ok {| currentPrice := latestPrice;
            recommendation := recommendation;
            confidence := Z.abs confidence;
            reasons := reasons;
            crossSignals :=
              {| goldenCross := goldenCross (detectCrosses self 50 200);
                 deathCross := deathCross (detectCrosses self 50 200) |} |}
  end.

End Strategy.

Arguments TokenData num : clear implicits.
Arguments TradingStrategy num : clear implicits.
Arguments StrategySignal num : clear implicits.
Arguments MACD num : clear implicits.
Arguments BollingerBands num : clear implicits.

(* ------------------------------------------------------------------ *)
(** ** The rest of the analysis: cross analysis, [analyzeToken] and the
    adapter loop of [analyzeCoinById] *)

(** [for (i of idx) arr.push(step(arr, i))] where the body may raise: the
    first exception ends the loop. *)
Fixpoint try_push_loop {A B} (step : list B -> A -> result B)
    (arr : list B) (idx : list A) : result (list B) :=
  match idx with
  | [] => Ok arr
  | i :: rest =>
      match step arr i with
      | Ok x => try_push_loop step (arr ++ [x]) rest
      | TypeError msg => TypeError msg
      end
  end.

(** The market-chart payload.  A row is a [[timestamp, value]] pair; a
    missing payload or a missing field is [None]. *)
Module CoinGecko.

Record MarketChartData (num : Type) := mkMarketChartData {
  prices : option (list (Z * num));
  market_caps : option (list (Z * num));
  total_volumes : option (list (Z * num))
}.
Arguments mkMarketChartData {num}.
Arguments prices {num}.
Arguments market_caps {num}.
Arguments total_volumes {num}.

End CoinGecko.

Section Analysis.

Context {num : Type} {N : Number num}.

(** The two most recent values of one EMA leg; an absent entry is
    [undefined]. *)
Record EMAPoints := mkEMAPoints {
  current : option num;
  previous : option num
}.

(** The record of [getCrossAnalysis]; its two flags are kept together in
    [crossFlags]. *)
Record CrossAnalysis := mkCrossAnalysis {
  crossFlags : CrossSignals;
  shortTermEMA : EMAPoints;
  longTermEMA : EMAPoints
}.

Definition getCrossAnalysis (self : TradingStrategy num)
    (shortPeriod longPeriod : nat) : CrossAnalysis :=
  let crosses := detectCrosses self shortPeriod longPeriod in
  let prices := map price (data self) in
  let shortTermEMA := calculateExponentialMovingAverages prices shortPeriod in
  let longTermEMA := calculateExponentialMovingAverages prices longPeriod in
  {| crossFlags :=
       {| goldenCross := goldenCross crosses;
          deathCross := deathCross crosses |};
     shortTermEMA :=
       {| current := item shortTermEMA (len shortTermEMA - 1);
          previous := item shortTermEMA (len shortTermEMA - 2) |};
     longTermEMA :=
       {| current := item longTermEMA (len longTermEMA - 1);
          previous := item longTermEMA (len longTermEMA - 2) |} |}.

Record TokenAnalysis := mkTokenAnalysis {
  tradingSignal : StrategySignal num;
  crossAnalysis : CrossAnalysis
}.

(** [analyzeToken]: an exception of [generateTradingSignal] ends the call
    before the cross analysis. *)
Definition analyzeToken (tokenData : list (TokenData num))
    : result TokenAnalysis :=
  let strategy := new_TradingStrategy tokenData in
  match generateTradingSignal strategy with
  | TypeError msg => TypeError msg
  | Ok tradingSignal =>
      let crossAnalysis := getCrossAnalysis strategy 50 200 in
      Ok {| tradingSignal := tradingSignal;
            crossAnalysis := crossAnalysis |}
  end.

(** The loop of [analyzeCoinById] that pairs prices and volumes by index.
    Reading element 0 or 1 of a row that is [undefined] raises. *)
Definition tokenDataOf (historicPrices historicVolumes : list (Z * num))
    : result (list (TokenData num)) :=
  try_push_loop
    (fun _ i =>
       match item historicPrices i with
       | None =>
           TypeError "Cannot read properties of undefined (reading '0')"%string
       | Some priceRow =>
           match item historicVolumes i with
           | None =>
               TypeError
                 "Cannot read properties of undefined (reading '1')"%string
           | Some volumeRow =>
               Ok {| timestamp := fst priceRow;
                     price := snd priceRow;
                     volume := snd volumeRow |}
           end
       end)
    []
    (range 0 (len historicPrices)).

(** [a ?? []] *)
Definition or_empty {A} (a : option (list A)) : list A :=
  match a with
  | Some l => l
  | None => []
  end.

(** [analyzeCoinById] from the fetched payload to the analysis it
    serializes: [marketData?.prices ?? []], [marketData?.total_volumes ??
    []], the pairing loop, [analyzeToken].  The fetch before it and
    [JSON.stringify] after it are outside the model. *)
Definition analyzeMarketData
    (marketData : option (CoinGecko.MarketChartData num))
    : result TokenAnalysis :=
  let historicPrices :=
    or_empty (match marketData with
              | Some m => CoinGecko.prices m
              | None => None
              end) in
  let historicVolumes :=
    or_empty (match marketData with
              | Some m => CoinGecko.total_volumes m
              | None => None
              end) in
  match tokenDataOf historicPrices historicVolumes with
  | TypeError msg => TypeError msg
  | Ok tokenData => analyzeToken tokenData
  end.

End Analysis.

Arguments EMAPoints num : clear implicits.
Arguments CrossAnalysis num : clear implicits.
Arguments TokenAnalysis num : clear implicits.

(* ------------------------------------------------------------------ *)
(** ** The arithmetic the program runs on: IEEE-754 binary64 *)

Module Float64.

(** Integer literals and counts; exact below 2^53. *)
Definition of_Z (z : Z) : PrimFloat.float :=
  match z with
  | Z0 => PrimFloat.zero
  | Zpos _ => PrimFloat.of_uint63 (Uint63.of_Z z)
  | Zneg p => PrimFloat.opp (PrimFloat.of_uint63 (Uint63.of_Z (Zpos p)))
  end.

(** [Math.max]: NaN if either argument is, and [+0] above [-0]. *)
Definition max (a b : PrimFloat.float) : PrimFloat.float :=
  if PrimFloat.is_nan a || PrimFloat.is_nan b then PrimFloat.nan
  else if PrimFloat.ltb a b then b
  else if PrimFloat.ltb b a then a
  else match PrimFloat.classify a with
       | FloatClass.NZero => b
       | _ => a
       end.

(** [Math.pow(x, 2)] is taken to be the correctly rounded square. *)
#[export] Instance number : Number PrimFloat.float := {
  of_Z := of_Z;
  nan := PrimFloat.nan;
  nadd := PrimFloat.add;
  nsub := PrimFloat.sub;
  nmul := PrimFloat.mul;
  ndiv := PrimFloat.div;
  nneg := PrimFloat.opp;
  nlt := PrimFloat.ltb;
  nle := PrimFloat.leb;
  strict_eq := PrimFloat.eqb;
  math_max := max;
  math_sq := fun x => PrimFloat.mul x x;
  math_sqrt := PrimFloat.sqrt
}.

End Float64.

(* ------------------------------------------------------------------ *)
(** ** The real-number reading: exact rationals and NaN *)

(** Rounding and overflow are left out: a number is an exact rational or
    NaN ([None]).  There is no infinity, so a division by zero, which the
    program only performs for a period of 0, yields NaN here.  The square
    root is not a rational function and is a parameter of the instance.
    The exact numbers are a model of the laws of arithmetic stated below;
    what is claimed of the program is stated for every arithmetic that
    obeys those laws, or evaluated on [Float64]. *)
Module Exact.

Definition xnum : Type := option Q.

Definition lift1 (f : Q -> Q) (a : xnum) : xnum :=
  match a with
  | Some x => Some (f x)
  | None => None
  end.

Definition lift2 (f : Q -> Q -> Q) (a b : xnum) : xnum :=
  match a, b with
  | Some x, Some y => Some (f x y)
  | _, _ => None
  end.

Definition test2 (f : Q -> Q -> bool) (a b : xnum) : bool :=
  match a, b with
  | Some x, Some y => f x y
  | _, _ => false
  end.

Definition div (a b : xnum) : xnum :=
  match a, b with
  | Some x, Some y => if Qeq_bool y 0 then None else Some (x / y)%Q
  | _, _ => None
  end.

Definition Qlt_bool (x y : Q) : bool := negb (Qle_bool y x).

Definition sqrt (rt : Q -> Q) (a : xnum) : xnum :=
  match a with
  | Some x => if Qle_bool 0 x then Some (rt x) else None
  | None => None
  end.

Definition number (rt : Q -> Q) : Number xnum := {|
  of_Z := fun z => Some (inject_Z z);
  nan := None;
  nadd := lift2 Qplus;
  nsub := lift2 Qminus;
  nmul := lift2 Qmult;
  ndiv := div;
  nneg := lift1 Qopp;
  nlt := test2 Qlt_bool;
  nle := test2 Qle_bool;
  strict_eq := test2 Qeq_bool;
  math_max := lift2 (fun x y => if Qle_bool x y then y else x);
  math_sq := lift1 (fun x => x * x)%Q;
  math_sqrt := sqrt rt
|}.

(** The root used to run examples: the square root rounded down to six
    decimals. *)
Definition root6 (x : Q) : Q :=
  (inject_Z (Z.sqrt (Qfloor (x * inject_Z (10 ^ 12)))) / inject_Z (10 ^ 6))%Q.

Definition run : Number xnum := number root6.

(** An observation with finite price and volume. *)
Definition obs (t : Z) (p v : Q) : TokenData xnum :=
  mkTokenData t (Some p) (Some v).

End Exact.

(* ------------------------------------------------------------------ *)
(** ** Example data *)

(** Three days of rising prices, on binary64. *)
Definition three_days : TradingStrategy PrimFloat.float :=
  new_TradingStrategy
    [mkTokenData 3 (Float64.of_Z 12) (Float64.of_Z 50);
     mkTokenData 1 (Float64.of_Z 10) (Float64.of_Z 40);
     mkTokenData 2 (Float64.of_Z 11) (Float64.of_Z 60)].

(** The same three days on exact numbers. *)
Definition three_days_exact : TradingStrategy Exact.xnum :=
  new_TradingStrategy
    [Exact.obs 3 12 50; Exact.obs 1 10 40; Exact.obs 2 11 60].

(** Sixteen days of prices that rise and fall, on exact numbers. *)
Definition sixteen_days_exact : TradingStrategy Exact.xnum :=
  new_TradingStrategy
    (mapi (fun p t => Exact.obs t (inject_Z p) 100)
       [10; 12; 11; 13; 15; 14; 14; 16; 18; 17; 19; 21; 20; 22; 25; 23]).

(** Days 0 to [n - 1] with prices 1, 2, ..., n and a volume of 10, on
    binary64. *)
Definition rising_days (n : nat) : list (TokenData PrimFloat.float) :=
  map (fun k => mkTokenData (Z.of_nat k) (Float64.of_Z (Z.of_nat k + 1))
                  (Float64.of_Z 10))
      (seq 0 n).

(** The same sixteen days on binary64. *)
Definition sixteen_days : TradingStrategy PrimFloat.float :=
  new_TradingStrategy
    (mapi (fun p t => mkTokenData t (Float64.of_Z p) (Float64.of_Z 100))
       [10; 12; 11; 13; 15; 14; 14; 16; 18; 17; 19; 21; 20; 22; 25; 23]).

(** Two observations that share a timestamp, in both input orders. *)
Definition tie_first : list (TokenData Exact.xnum) :=
  [Exact.obs 1 10 0; Exact.obs 1 20 0].

Definition tie_second : list (TokenData Exact.xnum) :=
  [Exact.obs 1 20 0; Exact.obs 1 10 0].

(* ------------------------------------------------------------------ *)
(** ** The vocabulary of the specification *)

Section Vocabulary.

Context {num : Type} {N : Number num}.
Local Open Scope num_scope.

(** The arithmetic mean of a list: the SMA of a window. *)
Definition arithmetic_mean (l : list num) : num :=
  sum l / num_of_nat (length l).

(** The MACD line of the specification: for every input index that has
    both EMAs, the short EMA minus the long EMA of that same input index.
    Output index 0 of a period-k EMA stands for input index k - 1. *)
Definition aligned_macdLine (prices : list num) (shortPeriod longPeriod : nat)
    : list num :=
  let shortEMA := calculateExponentialMovingAverages prices shortPeriod in
  let longEMA := calculateExponentialMovingAverages prices longPeriod in
  map (fun i => get shortEMA (i - (Z.of_nat shortPeriod - 1))
                - get longEMA (i - (Z.of_nat longPeriod - 1)))
      (range (Z.max (Z.of_nat shortPeriod) (Z.of_nat longPeriod) - 1)
         (len prices)).

(** The trailing window of [period] prices that ends at index [i],
    shorter at the start of the series. *)
Definition trailing_window (prices : list num) (period : nat) (i : Z)
    : list num :=
  slice prices (Z.max 0 (i - Z.of_nat period + 1)) (i + 1).

(** Population standard deviation: the root of the mean squared distance
    to the mean. *)
Definition population_stddev (l : list num) : num :=
  math_sqrt
    (fold_left (fun a b => a + math_sq (b - arithmetic_mean l)) l (of_Z 0)
     / num_of_nat (length l)).

(** Bollinger bands as the specification words them: at every input index,
    the middle band is the mean of the trailing window and the upper and
    lower bands lie [multiplier] deviations of that same window away. *)
Definition bands_per_input_index (prices : list num) (period : nat)
    (multiplier : num) (b : BollingerBands num) : Prop :=
  forall i : Z, 0 <= i < len prices ->
    let w := trailing_window prices period i in
    item (middleBand b) i = Some (arithmetic_mean w) /\
    item (upperBand b) i
    = Some (arithmetic_mean w + population_stddev w * multiplier) /\
    item (lowerBand b) i
    = Some (arithmetic_mean w - population_stddev w * multiplier).

(** The smoothed average gain and loss that [calculateRSI] divides. *)
Definition smoothed_gain (self : TradingStrategy num) (periods : nat)
    : list num :=
  calculateSmoothedMovingAverage
    (map (fun change => math_max change (of_Z 0))
         (price_changes (map price (data self)))) periods.

Definition smoothed_loss (self : TradingStrategy num) (periods : nat)
    : list num :=
  calculateSmoothedMovingAverage
    (map (fun change => math_max (- change) (of_Z 0))
         (price_changes (map price (data self)))) periods.

(** The last entry of an array, as [generateTradingSignal] reads it. *)
Definition latest (l : list num) : num := get l (len l - 1).

(** A sequence whose every entry is below (at most, above, at least) the
    next, in the comparisons of the program's own arithmetic. *)
Definition stepwise (rel : num -> num -> bool) (l : list num) : Prop :=
  forall i : Z, 0 <= i -> i + 1 < len l ->
    rel (get l i) (get l (i + 1)) = true.

Definition strictly_increasing := stepwise (fun a b => a <? b).
Definition strictly_decreasing := stepwise (fun a b => a >? b).
Definition non_decreasing := stepwise (fun a b => a <=? b).
Definition non_increasing := stepwise (fun a b => a >=? b).

(** The observation built from the rows at one index. *)
Definition paired (historicPrices historicVolumes : list (Z * num)) (i : Z)
    : option (TokenData num) :=
  match item historicPrices i, item historicVolumes i with
  | Some p, Some v =>
      Some {| timestamp := fst p; price := snd p; volume := snd v |}
  | _, _ => None
  end.

End Vocabulary.

(** Timestamp order, and the observations that carry a given timestamp. *)
Definition ts_le {num} (a b : TokenData num) : Prop :=
  timestamp a <= timestamp b.

Definition at_time {num} (t : Z) (a : TokenData num) : bool :=
  timestamp a =? t.

(** The verdicts each of the five indicator rules can give, in the order
    the rules are evaluated, and the two cross reasons. *)
Definition verdict_table : list (list string) :=
  [ ["RSI indicates oversold condition"; "RSI indicates overbought condition";
     "RSI indicates steady condition"];
    ["Price is above EMA50, bullish trend";
     "Price is below EMA50, bearish trend"];
    ["MACD shows bullish momentum"; "MACD shows bearish momentum"];
    ["Price near lower Bollinger Band, potential buy signal";
     "Price near upper Bollinger Band, potential sell signal";
     "Bollinger Band indicates steady condition"];
    ["Positive On-Balance Volume trend";
     "Negative On-Balance Volume trend"] ]%string.

Definition golden_reason : string :=
  "Golden Cross detected: Short-term EMA crossing above long-term EMA".

Definition death_reason : string :=
  "Death Cross detected: Short-term EMA crossing below long-term EMA".

(** What each indicator rule of [generateTradingSignal] adds to the score,
    with the reason it pushes. *)
Section Rules.

Context {num : Type} {N : Number num}.
Local Open Scope num_scope.

Definition rsi_rule (latestRSI : num) : Z * string :=
  if latestRSI <? of_Z 30 then
    (20%Z, "RSI indicates oversold condition"%string)
  else if latestRSI >? of_Z 70 then
    ((-20)%Z, "RSI indicates overbought condition"%string)
  else (0%Z, "RSI indicates steady condition"%string).

Definition trend_rule (latestPrice latestEMA : num) : Z * string :=
  if latestPrice >? latestEMA then
    (15%Z, "Price is above EMA50, bullish trend"%string)
  else ((-15)%Z, "Price is below EMA50, bearish trend"%string).

Definition macd_rule (latestMACD latestSignalLine : num) : Z * string :=
  if latestMACD >? latestSignalLine then
    (25%Z, "MACD shows bullish momentum"%string)
  else ((-25)%Z, "MACD shows bearish momentum"%string).

Definition band_rule (latestPrice latestUpperBand latestLowerBand : num)
    : Z * string :=
  if latestPrice <=? latestLowerBand then
    (20%Z, "Price near lower Bollinger Band, potential buy signal"%string)
  else if latestPrice >=? latestUpperBand then
    ((-20)%Z,
     "Price near upper Bollinger Band, potential sell signal"%string)
  else (0%Z, "Bollinger Band indicates steady condition"%string).

Definition volume_rule (obvSlope : num) : Z * string :=
  if obvSlope >? of_Z 0 then (20%Z, "Positive On-Balance Volume trend"%string)
  else ((-20)%Z, "Negative On-Balance Volume trend"%string).

End Rules.

(** How NaN behaves in IEEE-754 arithmetic, as far as the synthesizer
    depends on it: a difference with NaN is NaN, and no ordered comparison
    with NaN holds. *)
Record nan_laws {num : Type} (N : Number num) : Prop := {
  sub_nan : forall x : num, (x - nan)%num = nan;
  lt_nan : forall x : num, (x <? nan)%num = false;
  le_nan_r : forall x : num, (x <=? nan)%num = false;
  le_nan_l : forall x : num, (nan <=? x)%num = false
}.
Arguments sub_nan {num N}.
Arguments lt_nan {num N}.
Arguments le_nan_r {num N}.
Arguments le_nan_l {num N}.

(** The largest count the program's numbers hold exactly in both
    directions: [Number.MAX_SAFE_INTEGER], 2^53 - 1. *)
Definition max_safe_integer : Z := 9007199254740991.

(** Tests the program can make on its own numbers, and the facts of
    IEEE-754 arithmetic that the results on RSI and OBV rest on.  Each fact
    is about a single operation and is written as a boolean function of its
    operands, so that it can be run on binary64 values as well as assumed of
    an arithmetic. *)
Section Laws.

Context {num : Type} {N : Number num}.
Local Open Scope num_scope.

(** [x <= x]: fails exactly when [x] is NaN. *)
Definition is_number (x : num) : bool := x <=? x.

(** [x - x === 0]: holds exactly when [x] is finite, since
    [Infinity - Infinity] and [NaN - NaN] are NaN. *)
Definition is_finite (x : num) : bool := (x - x) === of_Z 0.

(** NaN, or a number that is not negative: what a sum, a product or a
    quotient of such values is again. *)
Definition not_negative (x : num) : Prop :=
  is_number x = true -> (of_Z 0 <=? x) = true.

(** Comparisons.  No comparison with NaN holds; [<] and [<=] order the
    numbers, infinities included, and [===] identifies [+0] and [-0]. *)
Definition le_number_law (a b : num) : bool :=
  implb (a <=? b) (is_number a && is_number b).

Definition lt_asym_law (a b : num) : bool :=
  implb (a <? b) (negb (b <? a)).

Definition le_trans_law (a b c : num) : bool :=
  implb ((a <=? b) && (b <=? c)) (a <=? c).

Definition lt_le_trans_law (a b c : num) : bool :=
  implb ((a <? b) && (b <=? c)) (a <? c).

Definition le_neq_lt_law (a b : num) : bool :=
  implb ((a <=? b) && negb (b === a)) (a <? b).

Definition eq_number_law (a : num) : bool :=
  implb (is_number a) (a === a).

(** NaN spreads: a sum, difference, product or quotient that is a number
    has numbers as operands. *)
Definition add_number_law (a b : num) : bool :=
  implb (is_number (a + b)) (is_number a && is_number b).

Definition sub_number_law (a b : num) : bool :=
  implb (is_number (a - b)) (is_number a && is_number b).

Definition mul_number_law (a b : num) : bool :=
  implb (is_number (a * b)) (is_number a && is_number b).

Definition div_number_law (a b : num) : bool :=
  implb (is_number (a / b)) (is_number a && is_number b).

(** Where NaN cannot arise: it takes two infinities (or a zero and an
    infinity, or two zeros) to make one out of numbers. *)
Definition add_finite_law (x v : num) : bool :=
  implb (is_number x && is_finite v) (is_number (x + v)).

Definition sub_finite_law (x v : num) : bool :=
  implb (is_number x && is_finite v) (is_number (x - v)).

Definition finite_sub_law (a b : num) : bool :=
  implb (is_finite a && is_number b) (is_number (a - b)).

Definition add_nonneg_number_law (a b : num) : bool :=
  implb ((of_Z 0 <=? a) && (of_Z 0 <=? b)) (is_number (a + b)).

Definition finite_div_law (c d : num) : bool :=
  implb (is_finite c && (of_Z 0 <? d)) (is_number (c / d)).

(** Rounding is monotone and leaves representable numbers alone, so a
    rounded result stays on the side of an operand (or of 0) on which the
    exact result lies.  The result is required to be a number, which leaves
    out [Infinity - Infinity], [0 * Infinity] and [Infinity / Infinity]. *)
Definition add_ge_law (x v : num) : bool :=
  implb ((of_Z 0 <=? v) && is_number (x + v)) (x <=? x + v).

Definition sub_le_law (x v : num) : bool :=
  implb ((of_Z 0 <=? v) && is_number (x - v)) (x - v <=? x).

Definition sub_nonneg_law (a b : num) : bool :=
  implb ((b <=? a) && is_number (a - b)) (of_Z 0 <=? a - b).

Definition mul_nonneg_law (a b : num) : bool :=
  implb ((of_Z 0 <=? a) && (of_Z 0 <=? b) && is_number (a * b))
        (of_Z 0 <=? a * b).

Definition div_nonneg_law (a b : num) : bool :=
  implb ((of_Z 0 <=? a) && (of_Z 0 <? b) && is_number (a / b))
        (of_Z 0 <=? a / b).

Definition div_le_law (c d : num) : bool :=
  implb ((of_Z 0 <=? c) && (of_Z 1 <=? d) && is_number (c / d))
        (c / d <=? c).

Definition max_zero_law (c : num) : bool :=
  implb (is_number (math_max c (of_Z 0))) (of_Z 0 <=? math_max c (of_Z 0)).

(** Zeros: what a computation on zeros yields is a zero. *)
Definition max_neg_zero_law (c : num) : bool :=
  implb (of_Z 0 <=? c) (math_max (- c) (of_Z 0) === of_Z 0).

Definition add_zero_law (a b : num) : bool :=
  implb ((a === of_Z 0) && (b === of_Z 0)) (a + b === of_Z 0).

Definition div_zero_law (a d : num) : bool :=
  implb ((a === of_Z 0) && (of_Z 0 <? d)) (a / d === of_Z 0).

Definition mul_zero_law (a x : num) : bool :=
  implb ((a === of_Z 0) && is_finite x) (a * x === of_Z 0).

(** Integer literals and counts up to [max_safe_integer] are exact. *)
Definition of_Z_le_law (i j : Z) : bool :=
  implb (i <=? j)%Z (of_Z i <=? of_Z j).

Definition of_Z_lt_law (i j : Z) : bool :=
  implb (i <? j)%Z (of_Z i <? of_Z j).

End Laws.

(** The order of the numbers. *)
Record order_laws {num : Type} (N : Number num) : Prop := {
  le_number : forall a b : num, le_number_law a b = true;
  lt_asym : forall a b : num, lt_asym_law a b = true;
  le_trans : forall a b c : num, le_trans_law a b c = true;
  lt_le_trans : forall a b c : num, lt_le_trans_law a b c = true;
  le_neq_lt : forall a b : num, le_neq_lt_law a b = true;
  eq_number : forall a : num, eq_number_law a = true;
  of_Z_le : forall i j : Z,
    - max_safe_integer <= i -> j <= max_safe_integer ->
    of_Z_le_law i j = true;
  of_Z_lt : forall i j : Z,
    - max_safe_integer <= i -> j <= max_safe_integer ->
    of_Z_lt_law i j = true
}.
Arguments le_number {num N}.
Arguments lt_asym {num N}.
Arguments le_trans {num N}.
Arguments lt_le_trans {num N}.
Arguments le_neq_lt {num N}.
Arguments eq_number {num N}.
Arguments of_Z_le {num N}.
Arguments of_Z_lt {num N}.

(** Where NaN comes from. *)
Record nan_source_laws {num : Type} (N : Number num) : Prop := {
  add_number : forall a b : num, add_number_law a b = true;
  sub_number : forall a b : num, sub_number_law a b = true;
  mul_number : forall a b : num, mul_number_law a b = true;
  div_number : forall a b : num, div_number_law a b = true;
  add_finite : forall x v : num, add_finite_law x v = true;
  sub_finite : forall x v : num, sub_finite_law x v = true;
  finite_sub : forall a b : num, finite_sub_law a b = true;
  add_nonneg_number : forall a b : num, add_nonneg_number_law a b = true;
  finite_div : forall c d : num, finite_div_law c d = true;
  of_Z_finite : forall k : Z,
    - max_safe_integer <= k <= max_safe_integer ->
    is_finite (of_Z k : num) = true
}.
Arguments add_number {num N}.
Arguments sub_number {num N}.
Arguments mul_number {num N}.
Arguments div_number {num N}.
Arguments add_finite {num N}.
Arguments sub_finite {num N}.
Arguments finite_sub {num N}.
Arguments add_nonneg_number {num N}.
Arguments finite_div {num N}.
Arguments of_Z_finite {num N}.

(** Rounded results against their operands. *)
Record rounding_laws {num : Type} (N : Number num) : Prop := {
  add_ge : forall x v : num, add_ge_law x v = true;
  sub_le : forall x v : num, sub_le_law x v = true;
  sub_nonneg : forall a b : num, sub_nonneg_law a b = true;
  mul_nonneg : forall a b : num, mul_nonneg_law a b = true;
  div_nonneg : forall a b : num, div_nonneg_law a b = true;
  div_le : forall c d : num, div_le_law c d = true;
  max_zero : forall c : num, max_zero_law c = true
}.
Arguments add_ge {num N}.
Arguments sub_le {num N}.
Arguments sub_nonneg {num N}.
Arguments mul_nonneg {num N}.
Arguments div_nonneg {num N}.
Arguments div_le {num N}.
Arguments max_zero {num N}.

(** Computing with zeros. *)
Record zero_laws {num : Type} (N : Number num) : Prop := {
  max_neg_zero : forall c : num, max_neg_zero_law c = true;
  add_zero : forall a b : num, add_zero_law a b = true;
  div_zero : forall a d : num, div_zero_law a d = true;
  mul_zero : forall a x : num, mul_zero_law a x = true;
  of_Z_sub : forall i j : Z,
    0 <= j -> j <= i -> i <= max_safe_integer ->
    (of_Z i - of_Z j)%num = (of_Z (i - j) : num)
}.
Arguments max_neg_zero {num N}.
Arguments add_zero {num N}.
Arguments div_zero {num N}.
Arguments mul_zero {num N}.
Arguments of_Z_sub {num N}.

(** The same three days with falling prices, on exact numbers. *)
Definition three_falling_days_exact : TradingStrategy Exact.xnum :=
  new_TradingStrategy
    [Exact.obs 3 10 50; Exact.obs 1 12 40; Exact.obs 2 11 60].

(** 2^n on binary64, finite up to n = 1023. *)
Definition two_to_the (n : nat) : PrimFloat.float :=
  Nat.iter n (PrimFloat.mul (Float64.of_Z 2)) (Float64.of_Z 1).

(** 2^-n on binary64, the smallest positive number at n = 1074. *)
Definition two_to_the_minus (n : nat) : PrimFloat.float :=
  Nat.iter n (fun x => PrimFloat.div x (Float64.of_Z 2)) (Float64.of_Z 1).

(** Sixteen days of prices that swing between 2^1023 and 1, all finite and
    positive, on binary64. *)
Definition swinging_days : TradingStrategy PrimFloat.float :=
  new_TradingStrategy
    (map (fun k => mkTokenData (Z.of_nat k)
                     (if Nat.even k then two_to_the 1023 else Float64.of_Z 1)
                     (Float64.of_Z 10))
         (seq 0 16)).

(** Two days of falling prices with a volume of [Infinity], on binary64. *)
Definition infinite_volume_days : TradingStrategy PrimFloat.float :=
  new_TradingStrategy
    [mkTokenData 0 (Float64.of_Z 2) PrimFloat.infinity;
     mkTokenData 1 (Float64.of_Z 1) PrimFloat.infinity].

(** Binary64 values at which rounding, overflow, underflow and the special
    values show: zero, the smallest subnormal and normal numbers, numbers
    around 1, fractions that are not representable, small integers, the
    integers around 2^53, the largest finite numbers and Infinity; each with
    both signs, and NaN. *)
Definition binary64_grid : list PrimFloat.float :=
  let positive :=
    [ PrimFloat.zero; two_to_the_minus 1074; two_to_the_minus 1073;
      two_to_the_minus 1022; two_to_the_minus 53; two_to_the_minus 52;
      two_to_the_minus 1;
      PrimFloat.div (Float64.of_Z 1) (Float64.of_Z 10);
      PrimFloat.div (Float64.of_Z 1) (Float64.of_Z 3);
      Float64.of_Z 1;
      PrimFloat.add (Float64.of_Z 1) (two_to_the_minus 52);
      PrimFloat.div (Float64.of_Z 3) (Float64.of_Z 2);
      Float64.of_Z 2; Float64.of_Z 3; Float64.of_Z 13; Float64.of_Z 14;
      Float64.of_Z 30; Float64.of_Z 70; Float64.of_Z 100;
      two_to_the 52; two_to_the 53;
      PrimFloat.add (two_to_the 53) (Float64.of_Z 2);
      two_to_the 1000; two_to_the 1023;
      PrimFloat.mul (PrimFloat.sub (Float64.of_Z 2) (two_to_the_minus 52))
                    (two_to_the 1023);
      PrimFloat.infinity ] in
  PrimFloat.nan :: positive ++ map PrimFloat.opp positive.

Definition integer_grid : list Z :=
  [- max_safe_integer; -100; -1; 0; 1; 2; 13; 14; 30; 50; 70; 100;
   max_safe_integer - 1; max_safe_integer].

(** A law holds at every value (pair, triple of values) of a grid. *)
Definition on_grid1 {A} (grid : list A) (law : A -> bool) : bool :=
  forallb law grid.

Definition on_grid2 {A} (grid : list A) (law : A -> A -> bool) : bool :=
  forallb (fun a => on_grid1 grid (law a)) grid.

Definition on_grid3 {A} (grid : list A) (law : A -> A -> A -> bool) : bool :=
  forallb (fun a => on_grid2 grid (law a)) grid.

(** The recommendation mapping: BUY above 30, SELL below -30, else HOLD. *)
Definition recommend (score : Z) : Recommendation :=
  if score >? 30 then BUY else if score <? -30 then SELL else HOLD.

(* ------------------------------------------------------------------ *)
(** ** Facts about the array primitives *)

Module JSArrayFacts.

Lemma item_of_nat {A} (l : list A) (j : nat) :
  item l (Z.of_nat j) = nth_error l j.
Proof.
  unfold item. destruct (Z.ltb_spec (Z.of_nat j) 0); [lia|].
  now rewrite Nat2Z.id.
Qed.

Lemma item_beyond {A} (l : list A) (i : Z) : len l <= i -> item l i = None.
Proof.
  unfold item, len. intros H. destruct (Z.ltb_spec i 0); [easy|].
  apply nth_error_None. lia.
Qed.

Lemma item_Some_bounds {A} (l : list A) (i : Z) (x : A) :
  item l i = Some x -> 0 <= i < len l.
Proof.
  unfold item, len. destruct (Z.ltb_spec i 0); [discriminate|].
  intros E. assert (Z.to_nat i < length l)%nat.
  { apply nth_error_Some. congruence. }
  lia.
Qed.

Lemma item_app_l {A} (l t : list A) (i : Z) :
  i < len l -> item (l ++ t) i = item l i.
Proof.
  unfold item, len. intros H. destruct (Z.ltb_spec i 0); [easy|].
  apply nth_error_app1. lia.
Qed.

Lemma item_last {A} (l : list A) (x : A) :
  item (l ++ [x]) (len l) = Some x.
Proof.
  unfold len. rewrite item_of_nat, nth_error_app2 by lia.
  now rewrite Nat.sub_diag.
Qed.

Lemma item_last_index {A} (l : list A) :
  l <> [] -> exists x, item l (len l - 1) = Some x.
Proof.
  intros H. destruct l as [|y l] using rev_ind; [congruence|].
  exists y. unfold len. rewrite length_app. simpl length.
  replace (Z.of_nat (length l + 1) - 1) with (len l) by (unfold len; lia).
  apply item_last.
Qed.

(** *** [range] *)

Lemma range_length lo hi : length (range lo hi) = Z.to_nat (hi - lo).
Proof. unfold range. now rewrite length_map, length_seq. Qed.

Lemma nth_error_range lo hi (j : nat) :
  (j < Z.to_nat (hi - lo))%nat ->
  nth_error (range lo hi) j = Some (lo + Z.of_nat j).
Proof.
  intros H. unfold range.
  rewrite nth_error_map, nth_error_seq.
  destruct (Nat.ltb_spec j (Z.to_nat (hi - lo))); [reflexivity|lia].
Qed.

(** *** [push_loop] *)

Section PushLoop.
Context {A B : Type} (step : list B -> A -> B).

Lemma push_loop_app init xs ys :
  push_loop step init (xs ++ ys) = push_loop step (push_loop step init xs) ys.
Proof. unfold push_loop. apply fold_left_app. Qed.

Lemma push_loop_snoc init xs x :
  push_loop step init (xs ++ [x])
  = push_loop step init xs ++ [step (push_loop step init xs) x].
Proof. now rewrite push_loop_app. Qed.

Lemma push_loop_length init xs :
  length (push_loop step init xs) = (length init + length xs)%nat.
Proof.
  revert init. induction xs as [|x xs IH]; intros init; simpl.
  - lia.
  - unfold push_loop in *. simpl. rewrite IH, length_app. simpl. lia.
Qed.

Lemma push_loop_len init xs :
  len (push_loop step init xs) = len init + len xs.
Proof. unfold len. rewrite push_loop_length. lia. Qed.

(** What has been pushed stays: a longer run extends a shorter one. *)
Lemma push_loop_extends init xs ys :
  exists t, push_loop step init (xs ++ ys) = push_loop step init xs ++ t.
Proof.
  induction ys as [|y ys IH] using rev_ind.
  - exists []. now rewrite !app_nil_r.
  - destruct IH as [t Ht]. rewrite app_assoc, push_loop_snoc, Ht.
    eexists. now rewrite <- app_assoc.
Qed.

(** The element pushed at the [j]-th iteration. *)
Lemma push_loop_item init xs (j : nat) x :
  nth_error xs j = Some x ->
  item (push_loop step init xs) (len init + Z.of_nat j)
  = Some (step (push_loop step init (firstn j xs)) x).
Proof.
  intros Hx.
  assert (Hj : (j < length xs)%nat) by (apply nth_error_Some; congruence).
  destruct (nth_error_split xs j Hx) as (l1 & l2 & Hxs & Hl1).
  assert (Hf : firstn j xs = l1).
  { subst xs j. now rewrite firstn_app, Nat.sub_diag, firstn_all, app_nil_r. }
  rewrite Hf.
  replace xs with ((l1 ++ [x]) ++ l2) by (now rewrite <- app_assoc).
  destruct (push_loop_extends init (l1 ++ [x]) l2) as [t Ht].
  rewrite Ht, push_loop_snoc.
  rewrite item_app_l.
  - replace (len init + Z.of_nat j) with (len (push_loop step init l1)).
    + apply item_last.
    + rewrite push_loop_len. unfold len. lia.
  - unfold len. rewrite length_app, push_loop_length. simpl. lia.
Qed.

Lemma push_loop_init init xs (i : Z) :
  i < len init -> item (push_loop step init xs) i = item init i.
Proof.
  intros H. destruct (push_loop_extends init [] xs) as [t Ht].
  simpl in Ht. rewrite Ht. now apply item_app_l.
Qed.

(** An entry is fixed once pushed: later iterations read the same value. *)
Lemma push_loop_stable init xs (j : nat) (i : Z) :
  i < len init + Z.of_nat j ->
  item (push_loop step init (firstn j xs)) i = item (push_loop step init xs) i.
Proof.
  intros H. destruct (Nat.le_gt_cases j (length xs)) as [Hle|Hgt].
  - rewrite <- (firstn_skipn j xs) at 2.
    destruct (push_loop_extends init (firstn j xs) (skipn j xs)) as [t Ht].
    rewrite Ht. symmetry. apply item_app_l. rewrite push_loop_len.
    unfold len in *. rewrite length_firstn. lia.
  - now rewrite firstn_all2 by lia.
Qed.

(** An invariant of the entries, kept by every iteration; the body may
    rely on the array holding at least its initial entries. *)
Lemma push_loop_Forall (P : B -> Prop) init xs :
  Forall P init ->
  (forall arr i, Forall P arr -> (length init <= length arr)%nat ->
                 In i xs -> P (step arr i)) ->
  Forall P (push_loop step init xs).
Proof.
  induction xs as [|x xs IH] using rev_ind; intros Hi Hs; [exact Hi|].
  assert (Hxs : Forall P (push_loop step init xs)).
  { apply IH; [exact Hi|]. intros arr i Ha Hl Hin. apply Hs; try assumption.
    apply in_or_app. now left. }
  rewrite push_loop_snoc. apply Forall_app. split; [exact Hxs|].
  constructor; [|constructor]. apply Hs; [exact Hxs| |].
  - rewrite push_loop_length. lia.
  - apply in_or_app. right. now left.
Qed.

End PushLoop.

(** *** [map] with the index *)

Lemma mapi_from_length {A B} (f : A -> Z -> B) (k : Z) (l : list A) :
  length (mapi_from f k l) = length l.
Proof.
  revert k. induction l as [|x l IH]; intros k; simpl; [reflexivity|].
  now rewrite IH.
Qed.

Lemma mapi_length {A B} (f : A -> Z -> B) (l : list A) :
  length (mapi f l) = length l.
Proof. apply mapi_from_length. Qed.

Lemma nth_error_mapi_from {A B} (f : A -> Z -> B) (k : Z) (l : list A)
    (j : nat) :
  nth_error (mapi_from f k l) j
  = option_map (fun x => f x (k + Z.of_nat j)) (nth_error l j).
Proof.
  revert k j. induction l as [|x l IH]; intros k [|j]; simpl; try reflexivity.
  - now rewrite Z.add_0_r.
  - rewrite IH. destruct (nth_error l j); simpl; [|reflexivity].
    do 2 f_equal. lia.
Qed.

Lemma item_mapi {A B} (f : A -> Z -> B) (l : list A) (i : Z) :
  item (mapi f l) i = option_map (fun x => f x i) (item l i).
Proof.
  unfold item, mapi. destruct (Z.ltb_spec i 0); [reflexivity|].
  rewrite nth_error_mapi_from. simpl.
  now rewrite Z2Nat.id by assumption.
Qed.

Lemma item_map {A B} (f : A -> B) (l : list A) (i : Z) :
  item (map f l) i = option_map f (item l i).
Proof. unfold item. destruct (i <? 0); [reflexivity|apply nth_error_map]. Qed.

Lemma item_In {A} (l : list A) (i : Z) (x : A) : item l i = Some x -> In x l.
Proof.
  unfold item. destruct (i <? 0); [discriminate|]. apply nth_error_In.
Qed.

Lemma item_in_bounds {A} (l : list A) (i : Z) :
  0 <= i < len l -> exists x, item l i = Some x.
Proof.
  intros H. destruct (item l i) eqn:E; [eauto|].
  exfalso. unfold item, len in *. destruct (Z.ltb_spec i 0); [lia|].
  apply nth_error_None in E. lia.
Qed.

Lemma Forall_item {A} (P : A -> Prop) (l : list A) :
  Forall P l <-> forall i x, item l i = Some x -> P x.
Proof.
  rewrite Forall_forall. split.
  - intros H i x E. apply H. now apply item_In in E.
  - intros H x Hx. apply In_nth_error in Hx. destruct Hx as [n Hn].
    apply (H (Z.of_nat n)). now rewrite item_of_nat.
Qed.

Lemma Forall_prefix {A} (P : A -> Prop) (k : nat) (l : list A) :
  Forall P l -> Forall P (firstn k l).
Proof.
  rewrite !Forall_forall. intros H x Hx. apply H.
  rewrite <- (firstn_skipn k l). apply in_or_app. now left.
Qed.

Lemma In_range lo hi i : In i (range lo hi) -> lo <= i < hi.
Proof.
  unfold range. intros H. apply in_map_iff in H.
  destruct H as (k & <- & Hk). apply in_seq in Hk. lia.
Qed.

End JSArrayFacts.
Import JSArrayFacts.

(* ------------------------------------------------------------------ *)
(** ** Reading arrays of numbers *)

Section Reading.

Context {num : Type} {N : Number num}.
Local Open Scope num_scope.

Lemma get_item (l : list num) (i : Z) (x : num) :
  item l i = Some x -> get l i = x.
Proof. unfold get. now intros ->. Qed.

Lemma get_undefined (l : list num) (i : Z) :
  item l i = None -> get l i = nan.
Proof. unfold get. now intros ->. Qed.

Lemma get_push_loop_stable {A} (step : list num -> A -> num)
    (init : list num) (xs : list A) (j : nat) (i : Z) :
  i < len init + Z.of_nat j ->
  get (push_loop step init (firstn j xs)) i = get (push_loop step init xs) i.
Proof. intros H. unfold get. now rewrite (push_loop_stable step init xs j). Qed.

Lemma get_Forall (P : num -> Prop) (l : list num) (i : Z) :
  Forall P l -> 0 <= i < len l -> P (get l i).
Proof.
  intros HP Hi. destruct (item_in_bounds l i Hi) as [x Ex].
  rewrite (get_item _ _ _ Ex). rewrite Forall_item in HP. eauto.
Qed.

End Reading.

Section SliceFacts.

Context {A : Type}.

Lemma slice_prefix (l : list A) (k : nat) :
  slice l 0 (Z.of_nat k) = firstn k l.
Proof.
  unfold slice, rel_index. simpl.
  destruct (Z.ltb_spec (Z.of_nat k) 0); [lia|].
  rewrite (Z.min_l 0) by lia. rewrite Z.sub_0_r. simpl.
  destruct (Nat.le_gt_cases k (length l)).
  - now rewrite Z.min_l, Nat2Z.id by lia.
  - rewrite Z.min_r, Nat2Z.id by lia.
    now rewrite firstn_all, firstn_all2 by lia.
Qed.

(** A window inside the array. *)
Lemma slice_window (l : list A) (s e : Z) :
  0 <= s -> s <= e -> e <= len l ->
  slice l s e = firstn (Z.to_nat (e - s)) (skipn (Z.to_nat s) l).
Proof.
  intros Hs He Hl. unfold slice, rel_index, len in *.
  destruct (Z.ltb_spec s 0); [lia|]. destruct (Z.ltb_spec e 0); [lia|].
  now rewrite !Z.min_l by lia.
Qed.

Lemma slice_length (l : list A) (s e : Z) :
  0 <= s -> s <= e -> e <= len l ->
  length (slice l s e) = Z.to_nat (e - s).
Proof.
  intros Hs He Hl. rewrite slice_window by assumption.
  unfold len in *. rewrite length_firstn, length_skipn. lia.
Qed.

(** [arr.slice(-2)] of an array of at least two elements: its last two. *)
Lemma slice_last_two (l : list A) (x y : A) :
  slice_from (l ++ [x; y]) (-2) = [x; y].
Proof.
  unfold slice_from, slice, rel_index.
  rewrite length_app. simpl length.
  destruct (Z.ltb_spec (-2) 0); [|lia].
  destruct (Z.ltb_spec (Z.of_nat (length l + 2)) 0); [lia|].
  rewrite Z.min_id, Z.max_l by lia.
  replace (Z.to_nat (Z.of_nat (length l + 2) + -2)) with (length l) by lia.
  replace (Z.to_nat _) with 2%nat by lia.
  now rewrite skipn_app, skipn_all, Nat.sub_diag.
Qed.

End SliceFacts.

(* ------------------------------------------------------------------ *)
(** ** EMA *)

Section EMA.

Context {num : Type} {N : Number num}.

(** The loop body at input index [i] reads the entry pushed just before. *)
Lemma ema_loop_item (alpha seed : num) (prices : list num) (k : nat) (i : Z) :
  let ema := push_loop (ema_step alpha prices) [seed]
               (range (Z.of_nat k) (len prices)) in
  Z.of_nat k <= i < len prices ->
  item ema (i - Z.of_nat k + 1)
  = Some (get prices i * alpha
          + get ema (i - Z.of_nat k) * (of_Z 1 - alpha))%num.
Proof.
  intros ema Hi. subst ema.
  set (idx := range (Z.of_nat k) (len prices)).
  set (j := Z.to_nat (i - Z.of_nat k)).
  assert (Hj : nth_error idx j = Some i).
  { unfold idx. rewrite nth_error_range by (unfold j; lia). f_equal.
    unfold j. lia. }
  replace (i - Z.of_nat k + 1) with (len [seed] + Z.of_nat j)
    by (unfold len, j; simpl length; lia).
  rewrite (push_loop_item _ _ _ _ _ Hj). f_equal. unfold ema_step.
  rewrite push_loop_len.
  assert (Hlen : len (firstn j idx) = Z.of_nat j).
  { unfold len. rewrite length_firstn. unfold idx. rewrite range_length.
    unfold j, len in *. lia. }
  rewrite Hlen.
  replace (len [seed] + Z.of_nat j - 1) with (i - Z.of_nat k)
    by (unfold len, j; simpl length; lia).
  do 2 f_equal. unfold get.
  rewrite (push_loop_stable _ [seed] idx j); [reflexivity|].
  unfold len, j. simpl length. lia.
Qed.

End EMA.

Section EMAContract.

Context {num : Type} {N : Number num}.

(** The private [calculateEMA], as it is called (period 50), is the general
    routine: its seed slices the first 50 prices twice. *)
Lemma calculateEMA_default (self : TradingStrategy num) :
  calculateEMA self 50
  = calculateExponentialMovingAverages (map price (data self)) 50.
Proof.
  unfold calculateEMA, calculateExponentialMovingAverages,
    calculateSimpleMovingAverage.
  now rewrite !slice_prefix, firstn_firstn, Nat.min_id.
Qed.

(** The general EMA routine.  For a price series of length n >= k it
    returns n - k + 1 values; the first is exactly the arithmetic mean of
    the first k prices; and the value for every later input index i (stored
    at output index i - k + 1, output index 0 standing for input index
    k - 1) is P[i] * alpha + EMA[i-1] * (1 - alpha) with
    alpha = 2 / (k + 1). *)
Theorem ema_length_seed_recurrence (prices : list num) (k : nat) :
  (k <= length prices)%nat ->
  let ema := calculateExponentialMovingAverages prices k in
  let alpha := (of_Z 2 / (num_of_nat k + of_Z 1))%num in
  length ema = (length prices - k + 1)%nat /\
  item ema 0 = Some (arithmetic_mean (firstn k prices)) /\
  forall i : Z, Z.of_nat k <= i < len prices ->
    item ema (i - Z.of_nat k + 1)
    = Some (get prices i * alpha
            + get ema (i - Z.of_nat k) * (of_Z 1 - alpha))%num.
Proof.
  intros Hk ema alpha. subst ema alpha.
  unfold calculateExponentialMovingAverages, smoothing.
  repeat split.
  - rewrite push_loop_length, range_length. unfold len. simpl length. lia.
  - rewrite push_loop_init by (unfold len; simpl; lia).
    unfold arithmetic_mean. rewrite slice_prefix, length_firstn.
    now rewrite Nat.min_l by assumption.
  - intros i Hi. now apply ema_loop_item.
Qed.

End EMAContract.

(** The general routine on the binary64 prices 1, 2, 3, 4 with period 2. *)
Lemma ema_length_seed_recurrence_witness :
  let prices := map Float64.of_Z [1; 2; 3; 4] in
  (2 <= length prices)%nat /\
  length (calculateExponentialMovingAverages (N := Float64.number) prices 2)
  = 3%nat.
Proof.
  intros prices. split.
  - simpl. lia.
  - apply (ema_length_seed_recurrence (N := Float64.number) prices 2).
    simpl. lia.
Defined.

Section CalculateEMA.

Context {num : Type} {N : Number num}.

(** The private [calculateEMA] for any period: the length and the
    recurrence of the general routine, but a seed that divides the sum of
    the first [min k 50] prices by 50, whatever the period. *)
Lemma calculateEMA_length_seed_recurrence (self : TradingStrategy num)
    (k : nat) :
  let prices := map price (data self) in
  let ema := calculateEMA self k in
  let alpha := (of_Z 2 / (num_of_nat k + of_Z 1))%num in
  length ema = (1 + (length prices - k))%nat /\
  item ema 0 = Some (sum (firstn (Nat.min 50 k) prices) / of_Z 50)%num /\
  forall i : Z, Z.of_nat k <= i < len prices ->
    item ema (i - Z.of_nat k + 1)
    = Some (get prices i * alpha
            + get ema (i - Z.of_nat k) * (of_Z 1 - alpha))%num.
Proof.
  intros prices ema alpha. subst ema alpha.
  unfold calculateEMA, calculateSimpleMovingAverage, smoothing.
  fold prices. repeat split.
  - rewrite push_loop_length, range_length. unfold len. simpl length. lia.
  - rewrite push_loop_init by (unfold len; simpl; lia).
    now rewrite !slice_prefix, firstn_firstn.
  - intros i Hi. now apply ema_loop_item.
Qed.

End CalculateEMA.


(* ------------------------------------------------------------------ *)
(** ** Golden and death cross *)

Section Crosses.

Context {num : Type} {N : Number num}.

Lemma last_two_split {A} (l : list A) :
  2 <= len l -> exists l' x y, l = l' ++ [x; y].
Proof.
  unfold len. intros H.
  destruct l as [|y l] using rev_ind; [simpl in H; lia|].
  clear IHl. destruct l as [|x l] using rev_ind.
  - simpl in H. lia.
  - exists l, x, y. now rewrite <- app_assoc.
Qed.

Lemma get_last_two (l : list num) (x y : num) :
  get (l ++ [x; y]) (len (l ++ [x; y]) - 2) = x /\
  get (l ++ [x; y]) (len (l ++ [x; y]) - 1) = y.
Proof.
  unfold len. rewrite length_app. simpl length. split; apply get_item.
  - replace (Z.of_nat (length l + 2) - 2) with (Z.of_nat (length l)) by lia.
    rewrite item_of_nat, nth_error_app2 by lia. now rewrite Nat.sub_diag.
  - replace (Z.of_nat (length l + 2) - 1) with (Z.of_nat (length l + 1))
      by lia.
    rewrite item_of_nat, nth_error_app2 by lia.
    now replace (length l + 1 - length l)%nat with 1%nat by lia.
Qed.

(** With at least two points in each series, [detectCrosses] compares the
    entries at [length - 2] and [length - 1]. *)
Lemma detectCrosses_enough (self : TradingStrategy num) (sp lp : nat) :
  let S := calculateExponentialMovingAverages (map price (data self)) sp in
  let L := calculateExponentialMovingAverages (map price (data self)) lp in
  2 <= len S -> 2 <= len L ->
  detectCrosses self sp lp =
  {| goldenCross :=
       (get S (len S - 2) <=? get L (len L - 2))%num
       && (get S (len S - 1) >? get L (len L - 1))%num;
     deathCross :=
       (get S (len S - 2) >=? get L (len L - 2))%num
       && (get S (len S - 1) <? get L (len L - 1))%num |}.
Proof.
  intros S L HS HL. unfold detectCrosses. fold S L.
  destruct (Z.ltb_spec (len S) 2); [lia|].
  destruct (Z.ltb_spec (len L) 2); [lia|]. simpl orb. cbv iota.
  destruct (last_two_split S HS) as (S' & s0 & s1 & ES).
  destruct (last_two_split L HL) as (L' & l0 & l1 & EL).
  rewrite ES, EL, !slice_last_two.
  destruct (get_last_two S' s0 s1) as [-> ->].
  destruct (get_last_two L' l0 l1) as [-> ->].
  reflexivity.
Qed.

Lemma detectCrosses_short (self : TradingStrategy num) (sp lp : nat) :
  let S := calculateExponentialMovingAverages (map price (data self)) sp in
  let L := calculateExponentialMovingAverages (map price (data self)) lp in
  len S < 2 \/ len L < 2 ->
  detectCrosses self sp lp = {| goldenCross := false; deathCross := false |}.
Proof.
  intros S L H. unfold detectCrosses. fold S L.
  destruct (Z.ltb_spec (len S) 2); [reflexivity|].
  destruct (Z.ltb_spec (len L) 2); [reflexivity|lia].
Qed.

(** C8.  [detectCrosses] reports a golden cross exactly when the short EMA
    was <= the long EMA one step back and is > it now, and a death cross
    exactly when it was >= and is < now, reading only the last two entries
    of each EMA series; when either series has fewer than two entries both
    flags are false.  (The function is total: it cannot raise.) *)
Theorem detectCrosses_contract (self : TradingStrategy num) (sp lp : nat) :
  let S := calculateExponentialMovingAverages (map price (data self)) sp in
  let L := calculateExponentialMovingAverages (map price (data self)) lp in
  let c := detectCrosses self sp lp in
  (len S < 2 \/ len L < 2 ->
     c = {| goldenCross := false; deathCross := false |}) /\
  (2 <= len S -> 2 <= len L ->
     (goldenCross c = true <->
        (get S (len S - 2) <=? get L (len L - 2))%num = true /\
        (get S (len S - 1) >? get L (len L - 1))%num = true) /\
     (deathCross c = true <->
        (get S (len S - 2) >=? get L (len L - 2))%num = true /\
        (get S (len S - 1) <? get L (len L - 1))%num = true)).
Proof.
  intros S L c. split.
  - apply detectCrosses_short.
  - intros HS HL. subst c.
    rewrite (detectCrosses_enough self sp lp HS HL). simpl.
    split; apply andb_true_iff.
Qed.

(** The two flags exclude each other in any arithmetic whose [<] is
    asymmetric. *)
Lemma detectCrosses_exclusive (self : TradingStrategy num) (sp lp : nat) :
  (forall a b : num, (a <? b)%num = true -> (b <? a)%num = true -> False) ->
  ~ (goldenCross (detectCrosses self sp lp) = true
     /\ deathCross (detectCrosses self sp lp) = true).
Proof.
  intros Hasym [Hg Hd].
  set (S := calculateExponentialMovingAverages (map price (data self)) sp)
    in *.
  set (L := calculateExponentialMovingAverages (map price (data self)) lp)
    in *.
  destruct (Z.lt_ge_cases (len S) 2) as [HS|HS].
  { rewrite detectCrosses_short in Hg by (now left). discriminate. }
  destruct (Z.lt_ge_cases (len L) 2) as [HL|HL].
  { rewrite detectCrosses_short in Hg by (now right). discriminate. }
  rewrite (detectCrosses_enough self sp lp HS HL) in Hg, Hd. simpl in Hg, Hd.
  apply andb_true_iff in Hg, Hd. destruct Hg as [_ Hg], Hd as [_ Hd].
  exact (Hasym _ _ Hd Hg).
Qed.

End Crosses.

(* ------------------------------------------------------------------ *)
(** ** The signal synthesizer *)

Section Synthesizer.

Context {num : Type} {N : Number num}.

(** What a returned signal is made of. *)
Lemma generateTradingSignal_Ok (self : TradingStrategy num)
    (s : StrategySignal num) :
  generateTradingSignal self = Ok s ->
  exists latest,
    item (data self) (len (data self) - 1) = Some latest /\
    currentPrice s = price latest /\
    recommendation s = recommend (fst (signalScore self (price latest))) /\
    confidence s
    = Z.abs (Z.min (Z.max (fst (signalScore self (price latest))) (-100)) 100)
    /\
    reasons s = snd (signalScore self (price latest)) /\
    goldenCross (crossSignals s) = goldenCross (detectCrosses self 50 200) /\
    deathCross (crossSignals s) = deathCross (detectCrosses self 50 200).
Proof.
  unfold generateTradingSignal.
  destruct (item (data self) (len (data self) - 1)) as [latest|];
    [|discriminate].
  destruct (signalScore self (price latest)) as [c rs] eqn:E.
  intros H. injection H as <-. exists latest. rewrite E. simpl.
  repeat split. unfold recommend.
  destruct (Z.gtb_spec c 30), (Z.ltb_spec c (-30)); (reflexivity || lia).
Qed.

Lemma generateTradingSignal_nonempty (self : TradingStrategy num) :
  data self <> [] -> exists s, generateTradingSignal self = Ok s.
Proof.
  intros H. unfold generateTradingSignal.
  destruct (item_last_index (data self) H) as [latest ->].
  destruct (signalScore self (price latest)). eexists. reflexivity.
Qed.

End Synthesizer.

Section SynthesizerContract.

Context {num : Type} {N : Number num}.

(** C3, on the empty list.  The observation list may be empty (the adapter
    falls back to an empty list when the payload has no prices); the
    strategy built from it raises a [TypeError] instead of returning a
    signal. *)
Theorem generateTradingSignal_empty_raises :
  generateTradingSignal (new_TradingStrategy (@nil (TokenData num)))
  = TypeError "Cannot read properties of undefined (reading 'price')"%string.
Proof. reflexivity. Qed.

(** C4.  A returned signal reports a confidence in [0, 100], the absolute
    value of the signed score clamped to [-100, 100]; its recommendation is
    BUY exactly when the score before clamping is above 30, SELL exactly
    when it is below -30, and HOLD otherwise. *)
Theorem confidence_clamp_and_recommendation (self : TradingStrategy num)
    (s : StrategySignal num) :
  generateTradingSignal self = Ok s ->
  let score := fst (signalScore self (currentPrice s)) in
  0 <= confidence s <= 100 /\
  confidence s = Z.abs (Z.min (Z.max score (-100)) 100) /\
  (recommendation s = BUY <-> score > 30) /\
  (recommendation s = SELL <-> score < -30) /\
  (recommendation s = HOLD <-> -30 <= score <= 30).
Proof.
  intros H score.
  destruct (generateTradingSignal_Ok self s H)
    as (latest & _ & Hp & Hr & Hc & _).
  subst score. rewrite Hp.
  set (c := fst (signalScore self (price latest))) in *.
  rewrite Hr, Hc. unfold recommend.
  destruct (Z.gtb_spec c 30), (Z.ltb_spec c (-30));
    repeat split; intros; try discriminate; try lia.
Qed.

(** C10.  In an arithmetic whose [<] is asymmetric (as that of IEEE-754
    and of the rationals is), [detectCrosses] never sets both flags, and so
    no returned signal carries both. *)
Theorem cross_flags_exclusive
    (Hasym : forall a b : num,
        (a <? b)%num = true -> (b <? a)%num = true -> False)
    (self : TradingStrategy num) :
  (forall sp lp : nat,
     ~ (goldenCross (detectCrosses self sp lp) = true
        /\ deathCross (detectCrosses self sp lp) = true)) /\
  (forall s : StrategySignal num,
     generateTradingSignal self = Ok s ->
     ~ (goldenCross (crossSignals s) = true
        /\ deathCross (crossSignals s) = true)).
Proof.
  split.
  - intros sp lp. now apply detectCrosses_exclusive.
  - intros s H.
    destruct (generateTradingSignal_Ok self s H)
      as (latest & _ & _ & _ & _ & _ & -> & ->).
    now apply detectCrosses_exclusive.
Qed.

End SynthesizerContract.

(** [<] on the exact numbers is asymmetric. *)
Lemma Exact_lt_asym (rt : Q -> Q) (a b : Exact.xnum) :
  @nlt _ (Exact.number rt) a b = true ->
  @nlt _ (Exact.number rt) b a = true -> False.
Proof.
  destruct a as [x|], b as [y|]; simpl; try discriminate.
  unfold Exact.Qlt_bool. intros H1 H2.
  apply negb_true_iff in H1, H2.
  destruct (Qlt_le_dec x y) as [L|L].
  - apply Qlt_le_weak, Qle_bool_iff in L. congruence.
  - apply Qle_bool_iff in L. congruence.
Qed.

(** C4 on three binary64 observations. *)
Lemma confidence_clamp_and_recommendation_witness :
  exists s,
    generateTradingSignal (N := Float64.number) three_days = Ok s /\
    0 <= confidence s <= 100.
Proof.
  eexists. split.
  - vm_compute. reflexivity.
  - refine (proj1 (confidence_clamp_and_recommendation
                     (N := Float64.number) three_days _ _)).
    vm_compute. reflexivity.
Defined.

(** C10 on three exact observations. *)
Lemma cross_flags_exclusive_witness :
  (forall a b : Exact.xnum,
      @nlt _ Exact.run a b = true -> @nlt _ Exact.run b a = true -> False) /\
  ~ (goldenCross (detectCrosses (N := Exact.run) three_days_exact 1 2) = true
     /\ deathCross (detectCrosses (N := Exact.run) three_days_exact 1 2)
        = true).
Proof.
  split.
  - exact (Exact_lt_asym Exact.root6).
  - exact (proj1 (cross_flags_exclusive (N := Exact.run)
                    (Exact_lt_asym Exact.root6) three_days_exact) 1%nat 2%nat).
Defined.

(* ------------------------------------------------------------------ *)
(** ** The series normalizer *)

Section StableSort.

Context {A : Type} (key : A -> Z).

Let cmp (a b : A) : Z := key a - key b.
Let le (a b : A) : Prop := key a <= key b.
Let lt (a b : A) : Prop := key a < key b.

Lemma insert_perm (x : A) (l : list A) : Permutation (insert cmp x l) (x :: l).
Proof.
  induction l as [|y l IH]; simpl; [reflexivity|].
  destruct (cmp x y <=? 0); [reflexivity|].
  rewrite IH. apply perm_swap.
Qed.

Lemma sort_perm (l : list A) : Permutation (sort cmp l) l.
Proof.
  induction l as [|x l IH]; simpl; [reflexivity|].
  now rewrite insert_perm, IH.
Qed.

Lemma insert_sorted (x : A) (l : list A) :
  StronglySorted le l -> StronglySorted le (insert cmp x l).
Proof.
  induction 1 as [|y l Hs IH Hy]; simpl.
  - repeat constructor.
  - unfold cmp at 1. destruct (Z.leb_spec (key x - key y) 0) as [Hle|Hgt].
    + constructor; [now constructor|].
      constructor; [unfold le; lia|].
      eapply Forall_impl; [|exact Hy]. unfold le. intros; lia.
    + constructor; [exact IH|].
      eapply Permutation_Forall; [symmetry; apply insert_perm|].
      constructor; [unfold le; lia|exact Hy].
Qed.

Lemma sort_sorted (l : list A) : StronglySorted le (sort cmp l).
Proof.
  induction l as [|x l IH]; simpl; [constructor|now apply insert_sorted].
Qed.

(** Stability: the elements of one key pass [insert] in their order. *)
Lemma insert_filter (t : Z) (x : A) (l : list A) :
  filter (fun a => key a =? t) (insert cmp x l)
  = filter (fun a => key a =? t) (x :: l).
Proof.
  induction l as [|y l IH]; [reflexivity|].
  simpl insert. unfold cmp at 1.
  destruct (Z.leb_spec (key x - key y) 0) as [Hle|Hgt]; [reflexivity|].
  simpl in *. rewrite IH.
  destruct (Z.eqb_spec (key x) t), (Z.eqb_spec (key y) t);
    try reflexivity; lia.
Qed.

Lemma sort_stable (t : Z) (l : list A) :
  filter (fun a => key a =? t) (sort cmp l) = filter (fun a => key a =? t) l.
Proof.
  induction l as [|x l IH]; [reflexivity|].
  simpl sort. rewrite insert_filter. simpl. now rewrite IH.
Qed.

(** Two strictly sorted arrangements of the same elements coincide. *)
Lemma strictly_sorted_unique (l1 l2 : list A) :
  StronglySorted lt l1 -> StronglySorted lt l2 -> Permutation l1 l2 ->
  l1 = l2.
Proof.
  intros S1. revert l2. induction S1 as [|a r1 S1 IH Ha]; intros l2 S2 P.
  - now apply Permutation_nil in P.
  - destruct S2 as [|b r2 S2 Hb].
    + symmetry in P. now apply Permutation_nil in P.
    + assert (Ia : In a (b :: r2)).
      { eapply Permutation_in; [exact P|now left]. }
      assert (Ib : In b (a :: r1)).
      { eapply Permutation_in; [symmetry; exact P|now left]. }
      assert (E : a = b).
      { destruct Ia as [E|Ia]; [now symmetry|].
        destruct Ib as [E|Ib]; [exact E|].
        rewrite Forall_forall in Ha, Hb.
        specialize (Ha _ Ib). specialize (Hb _ Ia). unfold lt in *. lia. }
      subst b. f_equal. apply IH; [exact S2|].
      eapply Permutation_cons_inv; exact P.
Qed.

Lemma sorted_nodup_strict (l : list A) :
  StronglySorted le l -> NoDup (map key l) -> StronglySorted lt l.
Proof.
  induction 1 as [|a l S IH Ha]; intros ND; [constructor|].
  simpl in ND. inversion ND as [|? ? Hn ND']; subst.
  constructor; [now apply IH|].
  rewrite Forall_forall in *. intros b Hb. specialize (Ha b Hb).
  assert (key a <> key b).
  { intros E. apply Hn. rewrite E. now apply in_map. }
  unfold le, lt in *. lia.
Qed.

Lemma sort_of_permutation (l l' : list A) :
  Permutation l l' -> NoDup (map key l) -> sort cmp l = sort cmp l'.
Proof.
  intros P ND.
  assert (ND' : NoDup (map key l')).
  { eapply Permutation_NoDup; [|exact ND]. now apply Permutation_map. }
  apply strictly_sorted_unique.
  - apply sorted_nodup_strict; [apply sort_sorted|].
    eapply Permutation_NoDup; [|exact ND].
    apply Permutation_map. symmetry. apply sort_perm.
  - apply sorted_nodup_strict; [apply sort_sorted|].
    eapply Permutation_NoDup; [|exact ND'].
    apply Permutation_map. symmetry. apply sort_perm.
  - now rewrite !sort_perm.
Qed.

End StableSort.

Section Normalizer.

Context {num : Type} {N : Number num}.

(** C5, as the code has it.  The constructor's sort returns the input's
    observations in timestamp order, those with equal timestamps in their
    input order; and every permutation of a list whose timestamps are
    pairwise distinct is normalized to the same list. *)
Theorem normalizer_sorted_stable (l : list (TokenData num)) :
  let out := data (new_TradingStrategy l) in
  Permutation out l /\
  StronglySorted ts_le out /\
  (forall t, filter (at_time t) out = filter (at_time t) l) /\
  (forall l', Permutation l l' -> NoDup (map timestamp l) ->
     data (new_TradingStrategy l') = out).
Proof.
  simpl. repeat split.
  - apply (sort_perm timestamp).
  - apply (sort_sorted timestamp).
  - intros t. apply (sort_stable timestamp).
  - intros l' P ND. symmetry. now apply (sort_of_permutation timestamp).
Qed.

End Normalizer.

(** C5 as stated fails: two observations with one timestamp are normalized
    to different lists in their two input orders. *)
Lemma normalizer_order_of_ties :
  Permutation tie_first tie_second /\
  data (new_TradingStrategy tie_first) <> data (new_TradingStrategy tie_second).
Proof.
  split.
  - apply perm_swap.
  - vm_compute. intros H. discriminate H.
Qed.

(** C5 on three exact observations out of order. *)
Lemma normalizer_sorted_stable_witness :
  let l := [Exact.obs 3 12 50; Exact.obs 1 10 40; Exact.obs 2 11 60] in
  let l' := [Exact.obs 1 10 40; Exact.obs 3 12 50; Exact.obs 2 11 60] in
  Permutation l l' /\ NoDup (map timestamp l) /\
  data (new_TradingStrategy l') = data (new_TradingStrategy l).
Proof.
  intros l l'.
  assert (P : Permutation l l') by apply perm_swap.
  assert (ND : NoDup (map timestamp l)).
  { simpl. repeat constructor; simpl; intuition discriminate. }
  split; [exact P|]. split; [exact ND|].
  exact (proj2 (proj2 (proj2 (normalizer_sorted_stable l))) l' P ND).
Defined.

(* ------------------------------------------------------------------ *)
(** ** Using the laws of the arithmetic *)

Section OrderUse.

Context {num : Type} {N : Number num}.
Hypothesis OL : order_laws N.
Local Open Scope num_scope.

Lemma le_numbers (a b : num) :
  (a <=? b) = true -> is_number a = true /\ is_number b = true.
Proof.
  intros A. generalize (le_number OL a b). unfold le_number_law.
  rewrite A. cbn [implb]. apply andb_prop.
Qed.

Lemma lt_not_gt (a b : num) : (a <? b) = true -> (b <? a) = false.
Proof.
  intros A. generalize (lt_asym OL a b). unfold lt_asym_law.
  rewrite A. cbn [implb]. apply negb_true_iff.
Qed.

Lemma le_le (a b c : num) :
  (a <=? b) = true -> (b <=? c) = true -> (a <=? c) = true.
Proof.
  intros A B. generalize (le_trans OL a b c). unfold le_trans_law.
  rewrite A, B. exact (fun H => H).
Qed.

Lemma lt_le (a b c : num) :
  (a <? b) = true -> (b <=? c) = true -> (a <? c) = true.
Proof.
  intros A B. generalize (lt_le_trans OL a b c). unfold lt_le_trans_law.
  rewrite A, B. exact (fun H => H).
Qed.

Lemma le_neq (a b : num) :
  (a <=? b) = true -> (b === a) = false -> (a <? b) = true.
Proof.
  intros A B. generalize (le_neq_lt OL a b). unfold le_neq_lt_law.
  rewrite A, B. exact (fun H => H).
Qed.

Lemma number_eq (a : num) : is_number a = true -> (a === a) = true.
Proof.
  intros A. generalize (eq_number OL a). unfold eq_number_law.
  rewrite A. exact (fun H => H).
Qed.

Lemma int_le (i j : Z) :
  - max_safe_integer <= i -> i <= j -> j <= max_safe_integer ->
  (of_Z i <=? of_Z j) = true.
Proof.
  intros Hi Hij Hj. generalize (of_Z_le OL i j Hi Hj). unfold of_Z_le_law.
  destruct (Z.leb_spec i j); [exact (fun H => H)|lia].
Qed.

Lemma int_lt (i j : Z) :
  - max_safe_integer <= i -> i < j -> j <= max_safe_integer ->
  (of_Z i <? of_Z j) = true.
Proof.
  intros Hi Hij Hj. generalize (of_Z_lt OL i j Hi Hj). unfold of_Z_lt_law.
  destruct (Z.ltb_spec i j); [exact (fun H => H)|lia].
Qed.

Lemma int_number (k : Z) :
  - max_safe_integer <= k <= max_safe_integer ->
  is_number (of_Z k : num) = true.
Proof. intros H. apply int_le; lia. Qed.

End OrderUse.

Section NanSourceUse.

Context {num : Type} {N : Number num}.
Hypothesis SL : nan_source_laws N.
Local Open Scope num_scope.

Lemma add_numbers (a b : num) :
  is_number (a + b) = true -> is_number a = true /\ is_number b = true.
Proof.
  intros A. generalize (add_number SL a b). unfold add_number_law.
  rewrite A. cbn [implb]. apply andb_prop.
Qed.

Lemma sub_numbers (a b : num) :
  is_number (a - b) = true -> is_number a = true /\ is_number b = true.
Proof.
  intros A. generalize (sub_number SL a b). unfold sub_number_law.
  rewrite A. cbn [implb]. apply andb_prop.
Qed.

Lemma mul_numbers (a b : num) :
  is_number (a * b) = true -> is_number a = true /\ is_number b = true.
Proof.
  intros A. generalize (mul_number SL a b). unfold mul_number_law.
  rewrite A. cbn [implb]. apply andb_prop.
Qed.

Lemma div_numbers (a b : num) :
  is_number (a / b) = true -> is_number a = true /\ is_number b = true.
Proof.
  intros A. generalize (div_number SL a b). unfold div_number_law.
  rewrite A. cbn [implb]. apply andb_prop.
Qed.

Lemma add_of_finite (x v : num) :
  is_number x = true -> is_finite v = true -> is_number (x + v) = true.
Proof.
  intros A B. generalize (add_finite SL x v). unfold add_finite_law.
  rewrite A, B. exact (fun H => H).
Qed.

Lemma sub_of_finite (x v : num) :
  is_number x = true -> is_finite v = true -> is_number (x - v) = true.
Proof.
  intros A B. generalize (sub_finite SL x v). unfold sub_finite_law.
  rewrite A, B. exact (fun H => H).
Qed.

Lemma sub_from_finite (a b : num) :
  is_finite a = true -> is_number b = true -> is_number (a - b) = true.
Proof.
  intros A B. generalize (finite_sub SL a b). unfold finite_sub_law.
  rewrite A, B. exact (fun H => H).
Qed.

Lemma add_of_nonneg (a b : num) :
  (of_Z 0 <=? a) = true -> (of_Z 0 <=? b) = true ->
  is_number (a + b) = true.
Proof.
  intros A B. generalize (add_nonneg_number SL a b).
  unfold add_nonneg_number_law. rewrite A, B. exact (fun H => H).
Qed.

Lemma div_of_finite (c d : num) :
  is_finite c = true -> (of_Z 0 <? d) = true -> is_number (c / d) = true.
Proof.
  intros A B. generalize (finite_div SL c d). unfold finite_div_law.
  rewrite A, B. exact (fun H => H).
Qed.

End NanSourceUse.

Section RoundingUse.

Context {num : Type} {N : Number num}.
Hypothesis RL : rounding_laws N.
Local Open Scope num_scope.

Lemma add_above (x v : num) :
  (of_Z 0 <=? v) = true -> is_number (x + v) = true ->
  (x <=? x + v) = true.
Proof.
  intros A B. generalize (add_ge RL x v). unfold add_ge_law.
  rewrite A, B. exact (fun H => H).
Qed.

Lemma sub_below (x v : num) :
  (of_Z 0 <=? v) = true -> is_number (x - v) = true ->
  (x - v <=? x) = true.
Proof.
  intros A B. generalize (sub_le RL x v). unfold sub_le_law.
  rewrite A, B. exact (fun H => H).
Qed.

Lemma sub_not_negative (a b : num) :
  (b <=? a) = true -> is_number (a - b) = true ->
  (of_Z 0 <=? a - b) = true.
Proof.
  intros A B. generalize (sub_nonneg RL a b). unfold sub_nonneg_law.
  rewrite A, B. exact (fun H => H).
Qed.

Lemma mul_not_negative (a b : num) :
  (of_Z 0 <=? a) = true -> (of_Z 0 <=? b) = true ->
  is_number (a * b) = true -> (of_Z 0 <=? a * b) = true.
Proof.
  intros A B C. generalize (mul_nonneg RL a b). unfold mul_nonneg_law.
  rewrite A, B, C. exact (fun H => H).
Qed.

Lemma div_not_negative (a b : num) :
  (of_Z 0 <=? a) = true -> (of_Z 0 <? b) = true ->
  is_number (a / b) = true -> (of_Z 0 <=? a / b) = true.
Proof.
  intros A B C. generalize (div_nonneg RL a b). unfold div_nonneg_law.
  rewrite A, B, C. exact (fun H => H).
Qed.

Lemma div_below (c d : num) :
  (of_Z 0 <=? c) = true -> (of_Z 1 <=? d) = true ->
  is_number (c / d) = true -> (c / d <=? c) = true.
Proof.
  intros A B C. generalize (div_le RL c d). unfold div_le_law.
  rewrite A, B, C. exact (fun H => H).
Qed.

Lemma max_not_negative (c : num) :
  is_number (math_max c (of_Z 0)) = true ->
  (of_Z 0 <=? math_max c (of_Z 0)) = true.
Proof.
  intros A. generalize (max_zero RL c). unfold max_zero_law.
  rewrite A. exact (fun H => H).
Qed.

End RoundingUse.

Section ZeroUse.

Context {num : Type} {N : Number num}.
Hypothesis ZL : zero_laws N.
Local Open Scope num_scope.

Lemma max_neg_is_zero (c : num) :
  (of_Z 0 <=? c) = true -> (math_max (- c) (of_Z 0) === of_Z 0) = true.
Proof.
  intros A. generalize (max_neg_zero ZL c). unfold max_neg_zero_law.
  rewrite A. exact (fun H => H).
Qed.

Lemma add_is_zero (a b : num) :
  (a === of_Z 0) = true -> (b === of_Z 0) = true ->
  (a + b === of_Z 0) = true.
Proof.
  intros A B. generalize (add_zero ZL a b). unfold add_zero_law.
  rewrite A, B. exact (fun H => H).
Qed.

Lemma div_is_zero (a d : num) :
  (a === of_Z 0) = true -> (of_Z 0 <? d) = true ->
  (a / d === of_Z 0) = true.
Proof.
  intros A B. generalize (div_zero ZL a d). unfold div_zero_law.
  rewrite A, B. exact (fun H => H).
Qed.

Lemma mul_is_zero (a x : num) :
  (a === of_Z 0) = true -> is_finite x = true ->
  (a * x === of_Z 0) = true.
Proof.
  intros A B. generalize (mul_zero ZL a x). unfold mul_zero_law.
  rewrite A, B. exact (fun H => H).
Qed.

End ZeroUse.

(** *** The laws hold of exact numbers *)

Lemma Qlt_bool_iff (x y : Q) : Exact.Qlt_bool x y = true <-> (x < y)%Q.
Proof.
  unfold Exact.Qlt_bool. rewrite negb_true_iff. split.
  - intros H. apply Qnot_le_lt. intros L. apply Qle_bool_iff in L. congruence.
  - intros H. destruct (Qle_bool y x) eqn:E; [|reflexivity].
    apply Qle_bool_iff in E. lra.
Qed.

Ltac q_props :=
  repeat match goal with
  | H : (_ && _)%bool = true |- _ => apply andb_prop in H; destruct H
  | H : negb _ = true |- _ => apply negb_true_iff in H
  | H : Qle_bool _ _ = true |- _ => apply Qle_bool_iff in H
  | H : Exact.Qlt_bool _ _ = true |- _ => apply Qlt_bool_iff in H
  | H : Qeq_bool _ _ = true |- _ => apply Qeq_bool_iff in H
  | H : Qeq_bool _ _ = false |- _ => apply Qeq_bool_neq in H
  end;
  change (inject_Z 0) with 0%Q in *; change (inject_Z 1) with 1%Q in *.

(** Turns the boolean tests of a law, once its operands are split into NaN
    and rationals, into statements on rationals. *)
Ltac exact_law :=
  cbv beta delta
    [le_number_law lt_asym_law le_trans_law lt_le_trans_law le_neq_lt_law
     eq_number_law add_number_law sub_number_law mul_number_law
     div_number_law add_finite_law sub_finite_law finite_sub_law
     add_nonneg_number_law finite_div_law add_ge_law sub_le_law
     sub_nonneg_law mul_nonneg_law div_nonneg_law div_le_law max_zero_law
     max_neg_zero_law add_zero_law div_zero_law mul_zero_law
     is_number is_finite];
  cbn;
  repeat match goal with
  | |- context [if Qeq_bool ?y ?z then _ else _] =>
      destruct (Qeq_bool y z) eqn:?; cbn
  end;
  rewrite ?andb_false_r;
  try reflexivity;
  try (apply implb_true_iff; intros; q_props;
       try (exfalso; lra);
       try (apply andb_true_intro; split);
       first [apply Qle_bool_iff | apply Qlt_bool_iff | apply Qeq_bool_iff
             | apply negb_true_iff]).

Section ExactLaws.

Variable rt : Q -> Q.
Let X : Number Exact.xnum := Exact.number rt.
#[local] Existing Instance X.

Lemma Exact_order_laws : order_laws X.
Proof.
  constructor.
  - intros [a|] [b|]; exact_law; lra.
  - intros [a|] [b|]; exact_law.
    destruct (Exact.Qlt_bool b a) eqn:E; [|reflexivity].
    apply Qlt_bool_iff in E. lra.
  - intros [a|] [b|] [c|]; exact_law; lra.
  - intros [a|] [b|] [c|]; exact_law; lra.
  - intros [a|] [b|]; exact_law.
    destruct (Qlt_le_dec a b) as [L|L]; [exact L|].
    exfalso. apply H0. lra.
  - intros [a|]; exact_law; lra.
  - intros i j _ _. unfold of_Z_le_law. apply implb_true_iff. intros H.
    apply Z.leb_le in H. cbn. apply Qle_bool_iff. now rewrite <- Zle_Qle.
  - intros i j _ _. unfold of_Z_lt_law. apply implb_true_iff. intros H.
    apply Z.ltb_lt in H. cbn. apply Qlt_bool_iff. now rewrite <- Zlt_Qlt.
Qed.

Lemma Exact_nan_source_laws : nan_source_laws X.
Proof.
  constructor.
  - intros [a|] [b|]; exact_law; lra.
  - intros [a|] [b|]; exact_law; lra.
  - intros [a|] [b|]; exact_law; lra.
  - intros [a|] [b|]; exact_law; lra.
  - intros [a|] [b|]; exact_law; lra.
  - intros [a|] [b|]; exact_law; lra.
  - intros [a|] [b|]; exact_law; lra.
  - intros [a|] [b|]; exact_law; lra.
  - intros [a|] [b|]; exact_law; lra.
  - intros k _. unfold is_finite. cbn. apply Qeq_bool_iff.
  change (inject_Z 0) with 0%Q. ring.
Qed.

Lemma Exact_rounding_laws : rounding_laws X.
Proof.
  constructor.
  - intros [x|] [v|]; exact_law; lra.
  - intros [x|] [v|]; exact_law; lra.
  - intros [a|] [b|]; exact_law; lra.
  - intros [a|] [b|]; exact_law. apply Qmult_le_0_compat; assumption.
  - intros [a|] [b|]; exact_law. apply Qle_shift_div_l; lra.
  - intros [c|] [d|]; exact_law. apply Qle_shift_div_r; [lra|].
    assert (0 <= c * (d - 1))%Q by (apply Qmult_le_0_compat; lra). lra.
  - intros [c|]; exact_law. destruct (Qle_bool c 0) eqn:E; [lra|].
    destruct (Qlt_le_dec 0 c) as [L|L]; [lra|].
    apply Qle_bool_iff in L. congruence.
Qed.

Lemma Exact_zero_laws : zero_laws X.
Proof.
  constructor.
  - intros [c|]; exact_law. destruct (Qle_bool (- c) 0) eqn:E; [reflexivity|].
    exfalso. assert (L : (- c <= 0)%Q) by lra.
    apply Qle_bool_iff in L. congruence.
  - intros [a|] [b|]; exact_law. rewrite H, H0. ring.
  - intros [a|] [d|]; exact_law. rewrite H. field. intros E. rewrite E in H0. lra.
  - intros [a|] [x|]; exact_law. rewrite H. ring.
  - intros i j _ _ _. cbn. unfold Qminus, Qplus, Qopp, inject_Z. cbn.
    do 2 f_equal. lia.
Qed.

End ExactLaws.

(* ------------------------------------------------------------------ *)
(** ** On-balance volume *)

Section OBV.

Context {num : Type} {N : Number num}.

Lemma calculateOBV_len (self : TradingStrategy num) :
  data self <> [] -> len (calculateOBV self) = len (data self).
Proof.
  intros H. unfold calculateOBV. rewrite push_loop_len. unfold len.
  rewrite range_length, length_map. simpl length.
  destruct (data self); [congruence|]. simpl length. lia.
Qed.

Lemma calculateOBV_seed (self : TradingStrategy num) :
  item (calculateOBV self) 0 = Some (get (map volume (data self)) 0).
Proof.
  unfold calculateOBV. now rewrite push_loop_init by (unfold len; simpl; lia).
Qed.

(** Each later entry is the loop body applied to the finished array: the
    body only reads the entry before the one it pushes. *)
Lemma calculateOBV_step (self : TradingStrategy num) (i : Z) :
  1 <= i < len (data self) ->
  item (calculateOBV self) i
  = Some (obv_step (map price (data self)) (map volume (data self))
            (calculateOBV self) i).
Proof.
  intros Hi. unfold calculateOBV.
  set (prices := map price (data self)).
  set (volumes := map volume (data self)).
  set (idx := range 1 (len prices)).
  set (j := Z.to_nat (i - 1)).
  assert (Hn : len prices = len (data self)).
  { unfold len, prices. now rewrite length_map. }
  assert (Hj : nth_error idx j = Some i).
  { unfold idx. rewrite nth_error_range by (unfold j; lia). f_equal.
    unfold j. lia. }
  replace i with (len [get volumes 0] + Z.of_nat j) at 1
    by (unfold len, j; simpl length; lia).
  rewrite (push_loop_item _ _ _ _ _ Hj). f_equal.
  assert (E : get (push_loop (obv_step prices volumes) [get volumes 0]
                     (firstn j idx)) (i - 1)
              = get (push_loop (obv_step prices volumes) [get volumes 0] idx)
                  (i - 1)).
  { apply get_push_loop_stable. unfold len, j. simpl length. lia. }
  set (acc := push_loop _ _ (firstn j idx)) in *.
  set (final := push_loop _ _ idx) in *.
  clearbody acc final. unfold obv_step. now rewrite E.
Qed.

End OBV.

(** *** OBV along rising and falling prices *)

Section OBVOrder.

Context {num : Type} {N : Number num}.
Hypothesis OL : order_laws N.
Hypothesis SL : nan_source_laws N.
Local Open Scope num_scope.

Variable self : TradingStrategy num.
Let prices := map price (data self).
Let volumes := map volume (data self).
Let obv := calculateOBV self.

Hypothesis volumes_ok :
  forall d, In d (data self) ->
    (of_Z 0 <=? volume d) = true /\ is_finite (volume d) = true.

Lemma volume_at (i : Z) :
  0 <= i < len (data self) ->
  (of_Z 0 <=? get volumes i) = true /\ is_finite (get volumes i) = true.
Proof.
  intros Hi. destruct (item_in_bounds (data self) i Hi) as [d E].
  assert (Ev : get volumes i = volume d).
  { apply get_item. unfold volumes. now rewrite item_map, E. }
  rewrite Ev. apply volumes_ok. now apply item_In in E.
Qed.

(** The entry pushed at [i]: the previous entry plus the volume on a rise,
    minus the volume on a fall, the previous entry otherwise. *)
Lemma obv_entry (i : Z) :
  1 <= i < len (data self) ->
  item obv i
  = Some (if get prices i >? get prices (i - 1) then
            get obv (i - 1) + get volumes i
          else if get prices i <? get prices (i - 1) then
            get obv (i - 1) - get volumes i
          else get obv (i - 1)).
Proof. intros Hi. unfold obv. now rewrite calculateOBV_step. Qed.

(** With finite volumes every OBV entry is a number, whatever the
    prices. *)
Lemma obv_is_number :
  data self <> [] ->
  forall k : nat, Z.of_nat k < len (data self) ->
    is_number (get obv (Z.of_nat k)) = true.
Proof.
  intros Hne. induction k as [|k IH]; intros Hk.
  - unfold obv. rewrite (get_item _ _ _ (calculateOBV_seed self)).
    destruct (volume_at 0) as [H0 _]; [simpl in *; lia|].
    now apply (le_numbers OL) in H0.
  - rewrite Nat2Z.inj_succ. unfold Z.succ.
    rewrite (get_item _ _ _ (obv_entry (Z.of_nat k + 1) ltac:(lia))).
    replace (Z.of_nat k + 1 - 1)%Z with (Z.of_nat k) by lia.
    destruct (volume_at (Z.of_nat k + 1)) as [_ Hf]; [lia|].
    specialize (IH ltac:(lia)).
    destruct (get prices (Z.of_nat k + 1) >? get prices (Z.of_nat k)).
    + now apply (add_of_finite SL).
    + destruct (get prices (Z.of_nat k + 1) <? get prices (Z.of_nat k)).
      * now apply (sub_of_finite SL).
      * exact IH.
Qed.

End OBVOrder.

(** C9.  For a non-empty series whose volumes are all finite and >= 0, in
    any arithmetic with the order and rounding of IEEE-754: OBV has one
    entry per observation and starts at the first volume; every later entry
    is the previous entry plus the current volume when the price rose, the
    previous entry minus the current volume when it fell, and the previous
    entry when the price is the same; OBV is non-decreasing when the prices
    are strictly increasing and non-increasing when they are strictly
    decreasing. *)
Theorem obv_monotone_segments {num : Type} (N : Number num)
    (self : TradingStrategy num) :
  order_laws N -> nan_source_laws N -> rounding_laws N ->
  data self <> [] ->
  (forall d, In d (data self) ->
     (of_Z 0 <=? volume d)%num = true /\ is_finite (volume d) = true) ->
  let prices := map price (data self) in
  let volumes := map volume (data self) in
  let obv := calculateOBV self in
  len obv = len prices /\
  item obv 0 = item volumes 0 /\
  (forall i, 1 <= i < len prices ->
     item obv i
     = Some (if get prices i >? get prices (i - 1) then
               get obv (i - 1) + get volumes i
             else if get prices i <? get prices (i - 1) then
               get obv (i - 1) - get volumes i
             else get obv (i - 1))%num) /\
  (strictly_increasing prices -> non_decreasing obv) /\
  (strictly_decreasing prices -> non_increasing obv).
Proof.
  intros OL SL RL Hne Hvol prices volumes obv.
  assert (Hlen : len obv = len (data self)).
  { unfold obv. now apply calculateOBV_len. }
  assert (Hp : len prices = len (data self)).
  { unfold len, prices. now rewrite length_map. }
  split; [congruence|]. split.
  { unfold obv. rewrite calculateOBV_seed. fold volumes.
    destruct (item_in_bounds volumes 0) as [v E].
    - unfold len, volumes. rewrite length_map.
      destruct (data self); [congruence|simpl length; lia].
    - now rewrite (get_item _ _ _ E). }
  split; [intros i Hi; apply obv_entry; lia|].
  unfold non_decreasing, non_increasing, stepwise. split.
  - intros Hinc i H0 H1.
    assert (E : get obv (i + 1)
                = (get obv i + get volumes (i + 1))%num).
    { apply get_item. unfold obv. rewrite obv_entry by lia.
      replace (i + 1 - 1) with i by lia. fold prices volumes.
      now rewrite (Hinc i) by lia. }
    rewrite E. destruct (volume_at self Hvol (i + 1)) as [Hv _]; [lia|].
    apply (add_above RL); [exact Hv|]. fold volumes obv. rewrite <- E.
    replace (i + 1) with (Z.of_nat (Z.to_nat (i + 1))) by lia.
    apply (obv_is_number OL SL self Hvol Hne). lia.
  - intros Hdec i H0 H1.
    assert (Hlt : (get prices (i + 1) <? get prices i)%num = true)
      by (apply Hdec; lia).
    assert (E : get obv (i + 1)
                = (get obv i - get volumes (i + 1))%num).
    { apply get_item. unfold obv. rewrite obv_entry by lia.
      replace (i + 1 - 1) with i by lia. fold prices volumes.
      now rewrite (lt_not_gt OL _ _ Hlt), Hlt. }
    rewrite E. destruct (volume_at self Hvol (i + 1)) as [Hv _]; [lia|].
    apply (sub_below RL); [exact Hv|]. fold volumes obv. rewrite <- E.
    replace (i + 1) with (Z.of_nat (Z.to_nat (i + 1))) by lia.
    apply (obv_is_number OL SL self Hvol Hne). lia.
Qed.

(* ------------------------------------------------------------------ *)
(** ** RSI *)

Section RSI.

Context {num : Type} {N : Number num}.

Lemma calculateSmoothedMovingAverage_length (values : list num) (p : nat) :
  length (calculateSmoothedMovingAverage values p)
  = (1 + (length values - p))%nat.
Proof.
  unfold calculateSmoothedMovingAverage.
  rewrite push_loop_length, range_length. unfold len. simpl length. lia.
Qed.

Lemma price_changes_length (prices : list num) :
  length (price_changes prices) = length prices.
Proof. apply mapi_length. Qed.

(** Each RSI entry is [rsi_value] of the smoothed gain and loss at its own
    index. *)
Lemma calculateRSI_item (self : TradingStrategy num) (p : nat) (i : Z) :
  item (calculateRSI self p) i
  = option_map (fun ag => rsi_value ag (get (smoothed_loss self p) i))
               (item (smoothed_gain self p) i).
Proof. unfold calculateRSI. now rewrite item_mapi. Qed.

Lemma calculateRSI_length (self : TradingStrategy num) (p : nat) :
  length (calculateRSI self p) = (1 + (length (data self) - p))%nat.
Proof.
  unfold calculateRSI.
  rewrite mapi_length, calculateSmoothedMovingAverage_length.
  now rewrite length_map, price_changes_length, length_map.
Qed.

Lemma smoothed_loss_length (self : TradingStrategy num) (p : nat) :
  length (smoothed_loss self p) = (1 + (length (data self) - p))%nat.
Proof.
  unfold smoothed_loss. rewrite calculateSmoothedMovingAverage_length.
  now rewrite length_map, price_changes_length, length_map.
Qed.

Lemma smoothed_gain_length (self : TradingStrategy num) (p : nat) :
  length (smoothed_gain self p) = (1 + (length (data self) - p))%nat.
Proof.
  unfold smoothed_gain. rewrite calculateSmoothedMovingAverage_length.
  now rewrite length_map, price_changes_length, length_map.
Qed.

(** The fallback of the source: a zero smoothed loss gives exactly 100, in
    any arithmetic. *)
Lemma calculateRSI_zero_loss (self : TradingStrategy num) (p : nat) (i : Z) :
  0 <= i < len (calculateRSI self p) ->
  (get (smoothed_loss self p) i === of_Z 0)%num = true ->
  item (calculateRSI self p) i = Some (of_Z 100).
Proof.
  intros Hi H0. rewrite calculateRSI_item.
  destruct (item_in_bounds (smoothed_gain self p) i) as [ag ->].
  { unfold len in *. rewrite calculateRSI_length in Hi.
    rewrite smoothed_gain_length. lia. }
  simpl. unfold rsi_value. now rewrite H0.
Qed.

End RSI.

(** *** The range of RSI *)

Section RSIRange.

Context {num : Type} {N : Number num}.
Hypothesis OL : order_laws N.
Hypothesis SL : nan_source_laws N.
Hypothesis RL : rounding_laws N.
Local Open Scope num_scope.

Lemma zero_not_negative : not_negative (of_Z 0).
Proof. intros _. apply (int_le OL); unfold max_safe_integer; lia. Qed.

Lemma add_not_negative (a b : num) :
  not_negative a -> not_negative b -> not_negative (a + b).
Proof.
  intros Ha Hb Hn. destruct (add_numbers SL a b Hn) as [Na Nb].
  apply (le_le OL _ a); [exact (Ha Na)|].
  apply (add_above RL); [exact (Hb Nb)|exact Hn].
Qed.

Lemma mul_keeps_not_negative (a b : num) :
  not_negative a -> not_negative b -> not_negative (a * b).
Proof.
  intros Ha Hb Hn. destruct (mul_numbers SL a b Hn) as [Na Nb].
  apply (mul_not_negative RL); [exact (Ha Na)|exact (Hb Nb)|exact Hn].
Qed.

Lemma div_keeps_not_negative (a d : num) :
  not_negative a -> (of_Z 0 <? d) = true -> not_negative (a / d).
Proof.
  intros Ha Hd Hn. destruct (div_numbers SL a d Hn) as [Na _].
  apply (div_not_negative RL); [exact (Ha Na)|exact Hd|exact Hn].
Qed.

Lemma fold_not_negative (l : list num) (acc : num) :
  not_negative acc -> Forall not_negative l ->
  not_negative (fold_left nadd l acc).
Proof.
  revert acc. induction l as [|x l IH]; intros acc Ha Hl; [exact Ha|].
  inversion Hl as [|? ? Hx Hl']; subst. simpl. apply IH; [|exact Hl'].
  now apply add_not_negative.
Qed.

Lemma sum_not_negative (l : list num) :
  Forall not_negative l -> not_negative (sum l).
Proof. intros H. apply fold_not_negative; [apply zero_not_negative|exact H]. Qed.

Lemma period_positive (p : nat) :
  (1 <= p)%nat -> Z.of_nat p <= max_safe_integer ->
  (of_Z 0 <? num_of_nat p) = true.
Proof.
  intros H1 H2. unfold num_of_nat.
  apply (int_lt OL); unfold max_safe_integer in *; lia.
Qed.

Lemma period_pred_not_negative (p : nat) :
  (1 <= p)%nat -> Z.of_nat p <= max_safe_integer ->
  not_negative (num_of_nat p - of_Z 1).
Proof.
  intros H1 H2 Hn. apply (sub_not_negative RL); [|exact Hn].
  unfold num_of_nat. apply (int_le OL); unfold max_safe_integer in *; lia.
Qed.

(** Wilder smoothing of values that are NaN or not negative gives such
    values. *)
Lemma smoothed_not_negative (values : list num) (p : nat) :
  (1 <= p)%nat -> Z.of_nat p <= max_safe_integer ->
  Forall not_negative values ->
  Forall not_negative (calculateSmoothedMovingAverage values p).
Proof.
  intros H1 H2 Hv. unfold calculateSmoothedMovingAverage.
  pose proof (period_positive p H1 H2) as Hp.
  apply push_loop_Forall.
  - constructor; [|constructor]. apply div_keeps_not_negative; [|exact Hp].
    apply sum_not_negative. rewrite slice_prefix. now apply Forall_prefix.
  - intros arr i Harr Hlen Hi. apply In_range in Hi. simpl length in Hlen.
    apply div_keeps_not_negative; [|exact Hp].
    apply add_not_negative.
    + apply mul_keeps_not_negative.
      * apply get_Forall; [exact Harr|]. unfold len. lia.
      * now apply period_pred_not_negative.
    + apply get_Forall; [exact Hv|]. lia.
Qed.

Lemma gains_not_negative (changes : list num) :
  Forall not_negative (map (fun change => math_max change (of_Z 0)) changes).
Proof.
  apply Forall_map, Forall_forall. intros c _. exact (max_not_negative RL c).
Qed.

Lemma losses_not_negative (changes : list num) :
  Forall not_negative
    (map (fun change => math_max (- change) (of_Z 0)) changes).
Proof.
  apply Forall_map, Forall_forall. intros c _.
  exact (max_not_negative RL (- c)).
Qed.

Lemma hundred_in_range :
  (of_Z 0 <=? of_Z 100) = true /\ (of_Z 100 <=? of_Z 100) = true.
Proof. split; apply (int_le OL); unfold max_safe_integer; lia. Qed.

(** The steps of [100 - 100 / (1 + ag / al)] for a quotient that is a
    number and not negative. *)
Lemma rsi_formula_steps (rs : num) :
  (of_Z 0 <=? rs) = true ->
  let d := of_Z 1 + rs in
  let q := of_Z 100 / d in
  (is_number d = true /\ (of_Z 1 <=? d) = true /\ (of_Z 0 <? d) = true) /\
  (is_number q = true /\ (of_Z 0 <=? q) = true /\ (q <=? of_Z 100) = true) /\
  is_number (of_Z 100 - q) = true.
Proof.
  intros Hrs d q.
  destruct hundred_in_range as [H100 _].
  assert (H01 : (of_Z 0 <=? of_Z 1) = true)
    by (apply (int_le OL); unfold max_safe_integer; lia).
  assert (H01' : (of_Z 0 <? of_Z 1) = true)
    by (apply (int_lt OL); unfold max_safe_integer; lia).
  assert (Fh : is_finite (of_Z 100) = true)
    by (apply (of_Z_finite SL); unfold max_safe_integer; lia).
  assert (Nd : is_number d = true) by now apply (add_of_nonneg SL).
  assert (Ld : (of_Z 1 <=? d) = true) by now apply (add_above RL).
  assert (Pd : (of_Z 0 <? d) = true) by now apply (lt_le OL _ (of_Z 1)).
  assert (Nq : is_number q = true) by now apply (div_of_finite SL).
  assert (Lq : (of_Z 0 <=? q) = true) by now apply (div_not_negative RL).
  assert (Uq : (q <=? of_Z 100) = true) by now apply (div_below RL).
  repeat split; try assumption.
  now apply (sub_from_finite SL).
Qed.

(** The RSI formula on averages that are NaN or not negative: a result
    that is a number lies in [0, 100]. *)
Lemma rsi_value_in_range (ag al : num) :
  not_negative ag -> not_negative al ->
  is_number (rsi_value ag al) = true ->
  (of_Z 0 <=? rsi_value ag al) = true /\
  (rsi_value ag al <=? of_Z 100) = true.
Proof.
  intros Hg Hl. unfold rsi_value.
  destruct (al === of_Z 0) eqn:E; [intros _; apply hundred_in_range|].
  intros Hn.
  destruct (sub_numbers SL _ _ Hn) as [_ Nq].
  destruct (div_numbers SL _ _ Nq) as [_ Nd].
  destruct (add_numbers SL _ _ Nd) as [_ Nrs].
  destruct (div_numbers SL _ _ Nrs) as [Ng Nl].
  assert (Pl : (of_Z 0 <? al) = true)
    by (apply (le_neq OL); [exact (Hl Nl)|exact E]).
  assert (Hrs : (of_Z 0 <=? ag / al) = true)
    by (apply (div_not_negative RL); [exact (Hg Ng)|exact Pl|exact Nrs]).
  destruct (rsi_formula_steps _ Hrs) as (_ & (_ & Lq & Uq) & _).
  split.
  - now apply (sub_not_negative RL).
  - now apply (sub_below RL).
Qed.

(** Away from a zero loss the RSI value is NaN exactly when the quotient
    of the averages is. *)
Lemma rsi_value_is_number (ag al : num) :
  not_negative ag -> not_negative al ->
  (al === of_Z 0) = false ->
  is_number (rsi_value ag al) = is_number (ag / al).
Proof.
  intros Hg Hl E. unfold rsi_value. rewrite E.
  destruct (is_number (ag / al)) eqn:Nrs.
  - destruct (div_numbers SL _ _ Nrs) as [Ng Nl].
    assert (Pl : (of_Z 0 <? al) = true)
      by (apply (le_neq OL); [exact (Hl Nl)|exact E]).
    assert (Hrs : (of_Z 0 <=? ag / al) = true)
      by (apply (div_not_negative RL); [exact (Hg Ng)|exact Pl|exact Nrs]).
    now destruct (rsi_formula_steps _ Hrs) as (_ & _ & Nr).
  - destruct (is_number (of_Z 100 - of_Z 100 / (of_Z 1 + ag / al))) eqn:Hn;
      [|reflexivity].
    destruct (sub_numbers SL _ _ Hn) as [_ Nq].
    destruct (div_numbers SL _ _ Nq) as [_ Nd].
    destruct (add_numbers SL _ _ Nd) as [_ Nrs'].
    congruence.
Qed.

Lemma smoothed_gain_not_negative (self : TradingStrategy num) (p : nat) :
  (1 <= p)%nat -> Z.of_nat p <= max_safe_integer ->
  Forall not_negative (smoothed_gain self p).
Proof.
  intros H1 H2. apply smoothed_not_negative; try assumption.
  apply gains_not_negative.
Qed.

Lemma smoothed_loss_not_negative (self : TradingStrategy num) (p : nat) :
  (1 <= p)%nat -> Z.of_nat p <= max_safe_integer ->
  Forall not_negative (smoothed_loss self p).
Proof.
  intros H1 H2. apply smoothed_not_negative; try assumption.
  apply losses_not_negative.
Qed.

End RSIRange.

(** C6.  For a series longer than the period (any period from 1 to
    [max_safe_integer]), in any arithmetic with the order and rounding of
    IEEE-754: there is one RSI value per observation from index
    [period - 1] on; every RSI value is NaN or lies in [0, 100]; a value is
    exactly 100 whenever the smoothed average loss at its index is exactly
    0; and otherwise it is NaN exactly when the quotient of the smoothed
    average gain and loss at its index is NaN. *)
Theorem rsi_bounds {num : Type} (N : Number num)
    (self : TradingStrategy num) (p : nat) :
  order_laws N -> nan_source_laws N -> rounding_laws N ->
  (1 <= p)%nat -> Z.of_nat p <= max_safe_integer ->
  (p < length (data self))%nat ->
  let rsi := calculateRSI self p in
  length rsi = (length (data self) - p + 1)%nat /\
  Forall (fun r => is_number r = true ->
                   (of_Z 0 <=? r)%num = true /\ (r <=? of_Z 100)%num = true)
         rsi /\
  forall i, 0 <= i < len rsi ->
    let ag := get (smoothed_gain self p) i in
    let al := get (smoothed_loss self p) i in
    ((al === of_Z 0)%num = true -> item rsi i = Some (of_Z 100)) /\
    ((al === of_Z 0)%num = false ->
       is_number (get rsi i) = is_number (ag / al)%num).
Proof.
  intros OL SL RL H1 H2 Hlen rsi. subst rsi.
  assert (Hg : forall i, 0 <= i < len (calculateRSI self p) ->
             not_negative (get (smoothed_gain self p) i)).
  { intros i Hi. apply get_Forall.
    - now apply smoothed_gain_not_negative.
    - unfold len in *. rewrite calculateRSI_length in Hi.
      rewrite smoothed_gain_length. lia. }
  assert (Hl : forall i, 0 <= i < len (calculateRSI self p) ->
             not_negative (get (smoothed_loss self p) i)).
  { intros i Hi. apply get_Forall.
    - now apply smoothed_loss_not_negative.
    - unfold len in *. rewrite calculateRSI_length in Hi.
      rewrite smoothed_loss_length. lia. }
  assert (Hitem : forall i, 0 <= i < len (calculateRSI self p) ->
             get (calculateRSI self p) i
             = rsi_value (get (smoothed_gain self p) i)
                         (get (smoothed_loss self p) i)).
  { intros i Hi. apply get_item. rewrite calculateRSI_item.
    destruct (item_in_bounds (smoothed_gain self p) i) as [ag Eg].
    - unfold len in *. rewrite calculateRSI_length in Hi.
      rewrite smoothed_gain_length. lia.
    - now rewrite Eg, (get_item _ _ _ Eg). }
  split; [rewrite calculateRSI_length; lia|]. split.
  - apply Forall_item. intros i r Hr.
    pose proof (item_Some_bounds _ _ _ Hr) as Hi.
    apply get_item in Hr. rewrite <- Hr, (Hitem i Hi).
    apply (rsi_value_in_range OL SL RL); [now apply Hg|now apply Hl].
  - intros i Hi ag al. split.
    + intros E. now apply calculateRSI_zero_loss.
    + intros E. rewrite (Hitem i Hi).
      apply (rsi_value_is_number OL SL RL); [now apply Hg|now apply Hl|exact E].
Qed.

(** C6 as stated fails on binary64: sixteen finite positive prices that
    swing between 2^1023 and 1 make the sums of the gains and of the losses
    overflow to Infinity, the averages are Infinity, and every RSI value is
    Infinity / Infinity = NaN, which is not in [0, 100]. *)
Lemma rsi_is_nan_after_overflow :
  (14 < length (data swinging_days))%nat /\
  forallb (fun d => is_finite (N := Float64.number) (price d)
                    && PrimFloat.ltb (Float64.of_Z 0) (price d))
          (data swinging_days) = true /\
  calculateRSI (N := Float64.number) swinging_days 14
  = [PrimFloat.nan; PrimFloat.nan; PrimFloat.nan] /\
  ~ Forall (fun r => PrimFloat.leb (Float64.of_Z 0) r = true
                     /\ PrimFloat.leb r (Float64.of_Z 100) = true)
      (calculateRSI (N := Float64.number) swinging_days 14).
Proof.
  split; [vm_compute; lia|]. split; [vm_compute; reflexivity|].
  split; [vm_compute; reflexivity|].
  intros H. apply Forall_inv in H. vm_compute in H.
  destruct H as [H _]. discriminate H.
Qed.

(** C6 on sixteen exact observations with the default period 14. *)
Lemma rsi_bounds_witness :
  order_laws Exact.run /\ nan_source_laws Exact.run /\
  rounding_laws Exact.run /\
  (1 <= 14)%nat /\ Z.of_nat 14 <= max_safe_integer /\
  (14 < length (data sixteen_days_exact))%nat /\
  length (calculateRSI (N := Exact.run) sixteen_days_exact 14) = 3%nat /\
  Forall (fun r => is_number (N := Exact.run) r = true ->
            @nle _ Exact.run (@of_Z _ Exact.run 0) r = true
            /\ @nle _ Exact.run r (@of_Z _ Exact.run 100) = true)
    (calculateRSI (N := Exact.run) sixteen_days_exact 14).
Proof.
  assert (OL : order_laws Exact.run) by apply Exact_order_laws.
  assert (SL : nan_source_laws Exact.run) by apply Exact_nan_source_laws.
  assert (RL : rounding_laws Exact.run) by apply Exact_rounding_laws.
  assert (H1 : (1 <= 14)%nat) by lia.
  assert (H2 : Z.of_nat 14 <= max_safe_integer) by (vm_compute; discriminate).
  assert (H3 : (14 < length (data sixteen_days_exact))%nat)
    by (vm_compute; lia).
  split; [exact OL|]. split; [exact SL|]. split; [exact RL|].
  split; [exact H1|]. split; [exact H2|]. split; [exact H3|].
  pose proof (rsi_bounds Exact.run sixteen_days_exact 14 OL SL RL H1 H2 H3)
    as W.
  split; [exact (proj1 W)|exact (proj1 (proj2 W))].
Defined.

(** C9 as stated fails on binary64: with volumes of Infinity, which are
    >= 0, and falling prices, OBV is Infinity and then
    Infinity - Infinity = NaN, and NaN is not below Infinity. *)
Lemma obv_with_infinite_volumes :
  data infinite_volume_days <> [] /\
  (forall d, In d (data infinite_volume_days) ->
     PrimFloat.leb (Float64.of_Z 0) (volume d) = true) /\
  strictly_decreasing (N := Float64.number)
    (map price (data infinite_volume_days)) /\
  calculateOBV (N := Float64.number) infinite_volume_days
  = [PrimFloat.infinity; PrimFloat.nan] /\
  ~ non_increasing (N := Float64.number)
      (calculateOBV (N := Float64.number) infinite_volume_days).
Proof.
  split; [vm_compute; discriminate|]. split.
  { intros d Hd. vm_compute in Hd. destruct Hd as [<-|[<-|[]]]; reflexivity. }
  split.
  { intros i H0 H1.
    change (len (map price (data infinite_volume_days))) with 2 in H1.
    assert (E : i = 0) by lia. subst i. reflexivity. }
  split; [vm_compute; reflexivity|].
  intros H. specialize (H 0). cbv beta in H.
  assert (F : PrimFloat.leb PrimFloat.nan PrimFloat.infinity = true).
  { apply H; [lia|]. vm_compute. reflexivity. }
  vm_compute in F. discriminate F.
Qed.

(** C9 on three exact observations with rising prices and on three with
    falling prices. *)
Lemma obv_monotone_segments_witness :
  order_laws Exact.run /\ nan_source_laws Exact.run /\
  rounding_laws Exact.run /\
  (data three_days_exact <> [] /\
   (forall d, In d (data three_days_exact) ->
      @nle _ Exact.run (@of_Z _ Exact.run 0) (volume d) = true
      /\ is_finite (N := Exact.run) (volume d) = true) /\
   strictly_increasing (N := Exact.run) (map price (data three_days_exact)) /\
   non_decreasing (N := Exact.run)
     (calculateOBV (N := Exact.run) three_days_exact)) /\
  (data three_falling_days_exact <> [] /\
   (forall d, In d (data three_falling_days_exact) ->
      @nle _ Exact.run (@of_Z _ Exact.run 0) (volume d) = true
      /\ is_finite (N := Exact.run) (volume d) = true) /\
   strictly_decreasing (N := Exact.run)
     (map price (data three_falling_days_exact)) /\
   non_increasing (N := Exact.run)
     (calculateOBV (N := Exact.run) three_falling_days_exact)).
Proof.
  assert (OL : order_laws Exact.run) by apply Exact_order_laws.
  assert (SL : nan_source_laws Exact.run) by apply Exact_nan_source_laws.
  assert (RL : rounding_laws Exact.run) by apply Exact_rounding_laws.
  assert (Hne : data three_days_exact <> []) by (vm_compute; discriminate).
  assert (Hvol : forall d, In d (data three_days_exact) ->
            @nle _ Exact.run (@of_Z _ Exact.run 0) (volume d) = true
            /\ is_finite (N := Exact.run) (volume d) = true).
  { intros d Hd. vm_compute in Hd.
    destruct Hd as [<-|[<-|[<-|[]]]]; split; reflexivity. }
  assert (Hinc : strictly_increasing (N := Exact.run)
                   (map price (data three_days_exact))).
  { intros i H0 H1.
    change (len (map price (data three_days_exact))) with 3 in H1.
    assert (E : i = 0 \/ i = 1) by lia. destruct E as [->| ->]; reflexivity. }
  assert (Hne' : data three_falling_days_exact <> [])
    by (vm_compute; discriminate).
  assert (Hvol' : forall d, In d (data three_falling_days_exact) ->
            @nle _ Exact.run (@of_Z _ Exact.run 0) (volume d) = true
            /\ is_finite (N := Exact.run) (volume d) = true).
  { intros d Hd. vm_compute in Hd.
    destruct Hd as [<-|[<-|[<-|[]]]]; split; reflexivity. }
  assert (Hdec : strictly_decreasing (N := Exact.run)
                   (map price (data three_falling_days_exact))).
  { intros i H0 H1.
    change (len (map price (data three_falling_days_exact))) with 3 in H1.
    assert (E : i = 0 \/ i = 1) by lia. destruct E as [->| ->]; reflexivity. }
  split; [exact OL|]. split; [exact SL|]. split; [exact RL|]. split.
  - split; [exact Hne|]. split; [exact Hvol|]. split; [exact Hinc|].
    exact (proj1 (proj2 (proj2 (proj2
      (obv_monotone_segments Exact.run three_days_exact OL SL RL Hne Hvol))))
      Hinc).
  - split; [exact Hne'|]. split; [exact Hvol'|]. split; [exact Hdec|].
    exact (proj2 (proj2 (proj2 (proj2
      (obv_monotone_segments Exact.run three_falling_days_exact OL SL RL
         Hne' Hvol')))) Hdec).
Defined.

(* ------------------------------------------------------------------ *)
(** ** MACD *)

Section MACDFacts.

Context {num : Type} {N : Number num}.

(** The subtraction pairs equal output indices of the two EMA arrays,
    reading [undefined] past the end of the long one. *)
Lemma macdLine_item (self : TradingStrategy num) (sp lp gp : nat) (j : Z) :
  let prices := map price (data self) in
  item (macdLine (calculateMACD self sp lp gp)) j
  = option_map
      (fun sEMA =>
         (sEMA - get (calculateExponentialMovingAverages prices lp) j)%num)
      (item (calculateExponentialMovingAverages prices sp) j).
Proof. intros prices. unfold calculateMACD. simpl. now rewrite item_mapi. Qed.

Lemma signalLine_is_ema (self : TradingStrategy num) (sp lp gp : nat) :
  signalLine (calculateMACD self sp lp gp)
  = calculateExponentialMovingAverages
      (macdLine (calculateMACD self sp lp gp)) gp.
Proof. reflexivity. Qed.

Lemma calculateExponentialMovingAverages_length (prices : list num)
    (k : nat) :
  length (calculateExponentialMovingAverages prices k)
  = (1 + (length prices - k))%nat.
Proof.
  unfold calculateExponentialMovingAverages.
  rewrite push_loop_length, range_length. unfold len. simpl length. lia.
Qed.

(** With at least [lp] prices and [sp < lp], the entries of the MACD line
    past the end of the long EMA are a short EMA minus [undefined]. *)
Lemma macdLine_tail (self : TradingStrategy num) (sp lp gp : nat) (j : Z) :
  let prices := map price (data self) in
  (sp <= lp <= length (data self))%nat ->
  len (data self) - Z.of_nat lp < j <= len (data self) - Z.of_nat sp ->
  item (macdLine (calculateMACD self sp lp gp)) j
  = Some (get (calculateExponentialMovingAverages prices sp) j - nan)%num.
Proof.
  intros prices Hp Hj. rewrite macdLine_item. fold prices.
  assert (Hn : length prices = length (data self))
    by (unfold prices; apply length_map).
  destruct (item_in_bounds (calculateExponentialMovingAverages prices sp) j)
    as [x Ex].
  { unfold len in *. rewrite calculateExponentialMovingAverages_length. lia. }
  rewrite Ex, (get_item _ _ _ Ex). simpl. do 2 f_equal.
  apply get_undefined, item_beyond. unfold len in *.
  rewrite calculateExponentialMovingAverages_length. lia.
Qed.

End MACDFacts.

(** C1, on 27 days of prices 1, 2, ..., 27 in binary64.  The MACD line of
    the specification has the two values that have both EMAs, 7 and 7 (input
    indices 25 and 26).  The code returns 16 values: its first two subtract
    the long EMA of input indices 25 and 26 from the short EMA of input
    indices 11 and 12 and give -7, and the other fourteen are NaN, so that
    the latest MACD value and the whole signal line are NaN. *)
Theorem macd_line_misaligned :
  let self := new_TradingStrategy (rising_days 27) in
  let macd := calculateMACD (N := Float64.number) self 12 26 9 in
  aligned_macdLine (N := Float64.number) (map price (data self)) 12 26
  = [Float64.of_Z 7; Float64.of_Z 7] /\
  macdLine macd
  = [Float64.of_Z (-7); Float64.of_Z (-7)] ++ repeat PrimFloat.nan 14 /\
  get (N := Float64.number) (macdLine macd) (len (macdLine macd) - 1)
  = PrimFloat.nan /\
  signalLine macd = repeat PrimFloat.nan 8.
Proof. vm_compute. repeat split. Qed.

(* ------------------------------------------------------------------ *)
(** ** Bollinger bands *)

Section BollingerFacts.

Context {num : Type} {N : Number num}.

Lemma calculateMovingAverage_length (prices : list num) (p : nat) :
  (1 <= p)%nat ->
  length (calculateMovingAverage prices p) = (length prices + 1 - p)%nat.
Proof.
  intros Hp. unfold calculateMovingAverage.
  rewrite length_map, range_length. unfold len. lia.
Qed.

(** The average pushed for input index [i]. *)
Lemma calculateMovingAverage_item (prices : list num) (p : nat) (i : Z) :
  Z.of_nat p - 1 <= i < len prices ->
  item (calculateMovingAverage prices p) (i - (Z.of_nat p - 1))
  = Some (sum (slice prices (i - Z.of_nat p + 1) (i + 1)) / num_of_nat p)%num.
Proof.
  intros Hi. unfold calculateMovingAverage, item.
  destruct (Z.ltb_spec (i - (Z.of_nat p - 1)) 0); [lia|].
  rewrite nth_error_map, nth_error_range by lia. simpl.
  now replace (Z.of_nat p - 1 + Z.of_nat (Z.to_nat (i - (Z.of_nat p - 1))))
    with i by lia.
Qed.

(** From input index [p - 1] on, the trailing window is full. *)
Lemma trailing_window_full (prices : list num) (p : nat) (i : Z) :
  (1 <= p)%nat -> Z.of_nat p - 1 <= i < len prices ->
  trailing_window prices p i = slice prices (i - Z.of_nat p + 1) (i + 1)
  /\ length (trailing_window prices p i) = p.
Proof.
  intros Hp Hi. unfold trailing_window. rewrite Z.max_r by lia.
  split; [reflexivity|]. rewrite slice_length by lia. lia.
Qed.

(** The deviation the code computes at an input index is the population
    standard deviation of the trailing window at that index. *)
Lemma window_deviation_population (prices : list num) (p : nat) (i : Z) :
  window_deviation prices p i
  = population_stddev (trailing_window prices p i).
Proof. reflexivity. Qed.

(** The bands as coded: entry [j] of the upper and lower band combines
    entry [j] of the middle band with the deviation of input index [j]. *)
Lemma bands_item (self : TradingStrategy num) (p : nat) (k : num) (j : Z) :
  let prices := map price (data self) in
  let b := calculateBollingerBands self p k in
  0 <= j < len prices ->
  item (upperBand b) j
  = option_map
      (fun mb =>
         (mb + population_stddev (trailing_window prices p j) * k)%num)
      (item (middleBand b) j) /\
  item (lowerBand b) j
  = option_map
      (fun mb =>
         (mb - population_stddev (trailing_window prices p j) * k)%num)
      (item (middleBand b) j).
Proof.
  intros prices b Hj. subst b. unfold calculateBollingerBands. simpl.
  fold prices. rewrite !item_mapi.
  assert (E : get (mapi (fun _ i => window_deviation prices p i) prices) j
              = population_stddev (trailing_window prices p j)).
  { apply get_item. rewrite item_mapi.
    destruct (item_in_bounds prices j Hj) as [x ->]. reflexivity. }
  now rewrite E.
Qed.

(** C2, as the code has it.  For a period of at least 1: the three bands
    have one entry per input index from [period - 1] on, n - period + 1 in
    all; the middle entry for input index i (stored at i - (period - 1)) is
    the mean of the full trailing window ending at i; and the upper and
    lower entries lie the same distance above and below it, [multiplier]
    times the population standard deviation of a trailing window of the
    series. *)
Theorem bollinger_bands_as_coded (self : TradingStrategy num) (p : nat)
    (k : num) :
  (1 <= p)%nat ->
  let prices := map price (data self) in
  let b := calculateBollingerBands self p k in
  length (middleBand b) = (length prices + 1 - p)%nat /\
  length (upperBand b) = (length prices + 1 - p)%nat /\
  length (lowerBand b) = (length prices + 1 - p)%nat /\
  forall i : Z, Z.of_nat p - 1 <= i < len prices ->
    let w := trailing_window prices p i in
    item (middleBand b) (i - (Z.of_nat p - 1)) = Some (arithmetic_mean w) /\
    exists i' : Z, 0 <= i' < len prices /\
      let w' := trailing_window prices p i' in
      item (upperBand b) (i - (Z.of_nat p - 1))
      = Some (arithmetic_mean w + population_stddev w' * k)%num /\
      item (lowerBand b) (i - (Z.of_nat p - 1))
      = Some (arithmetic_mean w - population_stddev w' * k)%num.
Proof.
  intros Hp prices b.
  assert (Hm : middleBand b = calculateMovingAverage prices p) by reflexivity.
  assert (Hlen : length (middleBand b) = (length prices + 1 - p)%nat).
  { rewrite Hm. now apply calculateMovingAverage_length. }
  split; [exact Hlen|]. split; [|split].
  - subst b. unfold calculateBollingerBands. simpl. rewrite mapi_length.
    now apply calculateMovingAverage_length.
  - subst b. unfold calculateBollingerBands. simpl. rewrite mapi_length.
    now apply calculateMovingAverage_length.
  - intros i Hi w.
    assert (Emid : item (middleBand b) (i - (Z.of_nat p - 1))
                   = Some (arithmetic_mean w)).
    { rewrite Hm, calculateMovingAverage_item by exact Hi.
      destruct (trailing_window_full prices p i Hp Hi) as [Ew El].
      unfold arithmetic_mean. subst w. now rewrite El, Ew. }
    split; [exact Emid|]. exists (i - (Z.of_nat p - 1)).
    split; [lia|]. cbv zeta.
    destruct (bands_item self p k (i - (Z.of_nat p - 1))) as [Eu El].
    { fold prices. lia. }
    fold prices b in Eu, El. rewrite Eu, El, Emid. now split.
Qed.

End BollingerFacts.

(** C2 as stated fails: on 21 days of binary64 prices the middle band has
    no entry at input index 20 (it has two entries, not 21). *)
Lemma bands_not_per_input_index :
  let self := new_TradingStrategy (rising_days 21) in
  ~ bands_per_input_index (N := Float64.number) (map price (data self)) 20
      (Float64.of_Z 2)
      (calculateBollingerBands (N := Float64.number) self 20 (Float64.of_Z 2)).
Proof.
  intros self H. destruct (H 20) as [Hm _].
  - change (len (map price (data self))) with 21. lia.
  - vm_compute in Hm. discriminate Hm.
Qed.

(** Which deviation the code pairs with a middle value, on 22 days of
    binary64 prices: the first upper entry, for input index 19, equals the
    middle entry, because the deviation added is that of input index 0 (a
    window of one price, deviation 0) and not the positive deviation of the
    window that ends at input index 19. *)
Lemma bands_pair_deviation_of_output_index :
  let self := new_TradingStrategy (rising_days 22) in
  let prices := map price (data self) in
  let b := calculateBollingerBands (N := Float64.number) self 20
             (Float64.of_Z 2) in
  item (upperBand b) 0 = item (middleBand b) 0 /\
  item (lowerBand b) 0 = item (middleBand b) 0 /\
  @nlt _ Float64.number (Float64.of_Z 0)
    (population_stddev (N := Float64.number) (trailing_window prices 20 19))
  = true.
Proof. vm_compute. repeat split. Qed.

(** C2 on 22 days of binary64 prices with period 20 and multiplier 2. *)
Lemma bollinger_bands_as_coded_witness :
  let self := new_TradingStrategy (rising_days 22) in
  (1 <= 20)%nat /\
  length (middleBand
            (calculateBollingerBands (N := Float64.number) self 20
               (Float64.of_Z 2)))
  = 3%nat.
Proof.
  intros self. assert (H : (1 <= 20)%nat) by lia. split; [exact H|].
  exact (proj1 (bollinger_bands_as_coded (N := Float64.number) self 20
                  (Float64.of_Z 2) H)).
Defined.

(* ------------------------------------------------------------------ *)
(** ** Signals from short input *)

Section ShortInput.

Context {num : Type} {N : Number num}.

(** Every non-empty observation list yields a signal: nothing else in the
    strategy can raise. *)
Lemma tradingSignal_of_nonempty (d : list (TokenData num)) :
  d <> [] -> exists s, generateTradingSignal (new_TradingStrategy d) = Ok s.
Proof.
  intros H. apply generateTradingSignal_nonempty. simpl. intros E.
  pose proof (sort_perm timestamp d) as P. unfold by_timestamp in E.
  rewrite E in P. apply Permutation_nil in P. congruence.
Qed.

End ShortInput.

(** A single binary64 observation yields HOLD with confidence 0. *)
Lemma single_observation_signal :
  exists s,
    generateTradingSignal (N := Float64.number)
      (new_TradingStrategy (rising_days 1)) = Ok s /\
    recommendation s = HOLD /\ confidence s = 0.
Proof. eexists. split; [vm_compute; reflexivity|]. now split. Qed.

(* ------------------------------------------------------------------ *)
(** ** Runs on binary64 *)

(** The laws of the arithmetic hold at every value, pair and triple of the
    binary64 grid, and the laws on integer literals on the integer grid. *)
Example binary64_laws_on_grid :
  let N := Float64.number in
  let g := binary64_grid in
  (on_grid2 g le_number_law && on_grid2 g lt_asym_law
   && on_grid3 g le_trans_law && on_grid3 g lt_le_trans_law
   && on_grid2 g le_neq_lt_law && on_grid1 g eq_number_law
   && on_grid2 integer_grid of_Z_le_law
   && on_grid2 integer_grid of_Z_lt_law)%bool = true /\
  (on_grid2 g add_number_law && on_grid2 g sub_number_law
   && on_grid2 g mul_number_law && on_grid2 g div_number_law
   && on_grid2 g add_finite_law && on_grid2 g sub_finite_law
   && on_grid2 g finite_sub_law && on_grid2 g add_nonneg_number_law
   && on_grid2 g finite_div_law
   && on_grid1 integer_grid (fun k => is_finite (of_Z k)))%bool = true /\
  (on_grid2 g add_ge_law && on_grid2 g sub_le_law
   && on_grid2 g sub_nonneg_law && on_grid2 g mul_nonneg_law
   && on_grid2 g div_nonneg_law && on_grid2 g div_le_law
   && on_grid1 g max_zero_law)%bool = true /\
  (on_grid1 g max_neg_zero_law && on_grid2 g add_zero_law
   && on_grid2 g div_zero_law && on_grid2 g mul_zero_law)%bool = true /\
  map (fun k => PrimFloat.sub (Float64.of_Z k) (Float64.of_Z 1))
      [1; 2; 14; 50; max_safe_integer]
  = map (fun k => Float64.of_Z (k - 1)) [1; 2; 14; 50; max_safe_integer].
Proof. vm_compute. repeat split. Qed.

(** Rising prices 1, 2, ..., 16 and sixteen days at the price 0.1: every
    RSI value is exactly 100. *)
Example rsi_of_prices_that_never_fall :
  calculateRSI (N := Float64.number) (new_TradingStrategy (rising_days 16)) 14
  = map Float64.of_Z [100; 100; 100] /\
  calculateRSI (N := Float64.number)
    (new_TradingStrategy
       (map (fun k => mkTokenData (Z.of_nat k)
                        (PrimFloat.div (Float64.of_Z 1) (Float64.of_Z 10))
                        (Float64.of_Z 10))
            (seq 0 16))) 14
  = map Float64.of_Z [100; 100; 100].
Proof. vm_compute. split; reflexivity. Qed.

(** Finite volumes of 2^1023: along rising prices OBV overflows to
    Infinity and stays there, along falling prices it steps down to
    -2^1023; it is monotone either way. *)
Example obv_of_large_volumes :
  calculateOBV (N := Float64.number)
    (new_TradingStrategy
       (map (fun k => mkTokenData (Z.of_nat k) (Float64.of_Z (Z.of_nat k))
                        (two_to_the 1023))
            (seq 0 3)))
  = [two_to_the 1023; PrimFloat.infinity; PrimFloat.infinity] /\
  calculateOBV (N := Float64.number)
    (new_TradingStrategy
       (map (fun k => mkTokenData (Z.of_nat k) (Float64.of_Z (9 - Z.of_nat k))
                        (two_to_the 1023))
            (seq 0 3)))
  = [two_to_the 1023; Float64.of_Z 0; PrimFloat.opp (two_to_the 1023)].
Proof. vm_compute. split; reflexivity. Qed.

Example ema_of_four_prices :
  calculateExponentialMovingAverages (N := Float64.number)
    (map Float64.of_Z [1; 2; 3; 4]) 2
  = [PrimFloat.div (Float64.of_Z 3) (Float64.of_Z 2);
     PrimFloat.div (Float64.of_Z 5) (Float64.of_Z 2);
     PrimFloat.div (Float64.of_Z 7) (Float64.of_Z 2)].
Proof. vm_compute. reflexivity. Qed.

Example rsi_of_sixteen_days_in_range :
  length (calculateRSI (N := Float64.number) sixteen_days 14) = 3%nat /\
  forallb (fun r => PrimFloat.leb (Float64.of_Z 0) r
                    && PrimFloat.leb r (Float64.of_Z 100))
    (calculateRSI (N := Float64.number) sixteen_days 14) = true.
Proof. vm_compute. now split. Qed.

Example obv_of_rising_days :
  calculateOBV (N := Float64.number) (new_TradingStrategy (rising_days 5))
  = map Float64.of_Z [10; 20; 30; 40; 50].
Proof. vm_compute. reflexivity. Qed.

Example crosses_of_three_days :
  detectCrosses (N := Float64.number) three_days 1 2
  = {| goldenCross := false; deathCross := false |}.
Proof. vm_compute. reflexivity. Qed.

Example golden_cross_after_a_dip :
  detectCrosses (N := Float64.number)
    (new_TradingStrategy
       (mapi (fun p t => mkTokenData t (Float64.of_Z p) (Float64.of_Z 1))
          [10; 8; 12])) 1 2
  = {| goldenCross := true; deathCross := false |}.
Proof. vm_compute. reflexivity. Qed.

(* ------------------------------------------------------------------ *)
(** ** Cross analysis and [analyzeToken] *)

Section AnalysisFacts.

Context {num : Type} {N : Number num}.

Lemma item_second_last_None {A} (l : list A) :
  item l (len l - 2) = None <-> len l < 2.
Proof.
  split.
  - intros E. destruct (Z.lt_ge_cases (len l) 2) as [H|H]; [exact H|].
    destruct (item_in_bounds l (len l - 2)) as [x Ex]; [lia|congruence].
  - intros H. unfold item. destruct (Z.ltb_spec (len l - 2) 0); [reflexivity|].
    unfold len in *. lia.
Qed.

Lemma ema_len (prices : list num) (k : nat) :
  len (calculateExponentialMovingAverages prices k)
  = 1 + Z.of_nat (length prices - k).
Proof.
  unfold len. rewrite calculateExponentialMovingAverages_length. lia.
Qed.

(** The cross analysis: its flags are those of [detectCrosses]; the
    current value of each EMA leg is always there; the previous value of a
    leg is [undefined] exactly when the series has no more observations
    than the leg's period; when all four values are there the flags are
    the comparisons of exactly these values, and when a previous value is
    missing both flags are false. *)
Theorem getCrossAnalysis_explains_flags (self : TradingStrategy num)
    (sp lp : nat) :
  let a := getCrossAnalysis self sp lp in
  crossFlags a = detectCrosses self sp lp /\
  (exists x, current (shortTermEMA a) = Some x) /\
  (exists y, current (longTermEMA a) = Some y) /\
  (previous (shortTermEMA a) = None <-> (length (data self) <= sp)%nat) /\
  (previous (longTermEMA a) = None <-> (length (data self) <= lp)%nat) /\
  (forall s0 s1 l0 l1,
     previous (shortTermEMA a) = Some s0 ->
     current (shortTermEMA a) = Some s1 ->
     previous (longTermEMA a) = Some l0 ->
     current (longTermEMA a) = Some l1 ->
     goldenCross (crossFlags a) = ((s0 <=? l0) && (s1 >? l1))%num /\
     deathCross (crossFlags a) = ((s0 >=? l0) && (s1 <? l1))%num) /\
  (previous (shortTermEMA a) = None \/ previous (longTermEMA a) = None ->
     goldenCross (crossFlags a) = false /\ deathCross (crossFlags a) = false).
Proof.
  intros a. subst a. unfold getCrossAnalysis. simpl.
  set (prices := map price (data self)).
  set (S := calculateExponentialMovingAverages prices sp).
  set (L := calculateExponentialMovingAverages prices lp).
  assert (HS : len S = 1 + Z.of_nat (length (data self) - sp)).
  { unfold S. rewrite ema_len. unfold prices. now rewrite length_map. }
  assert (HL : len L = 1 + Z.of_nat (length (data self) - lp)).
  { unfold L. rewrite ema_len. unfold prices. now rewrite length_map. }
  split; [now destruct (detectCrosses self sp lp)|].
  split; [apply item_in_bounds; lia|].
  split; [apply item_in_bounds; lia|].
  split; [rewrite item_second_last_None; lia|].
  split; [rewrite item_second_last_None; lia|].
  split.
  - intros s0 s1 l0 l1 E0 E1 F0 F1.
    pose proof (item_Some_bounds _ _ _ E0) as B0.
    pose proof (item_Some_bounds _ _ _ F0) as B1.
    rewrite (detectCrosses_enough self sp lp) by (fold prices; fold S L; lia).
    fold prices. fold S L. simpl.
    now rewrite (get_item _ _ _ E0), (get_item _ _ _ E1),
      (get_item _ _ _ F0), (get_item _ _ _ F1).
  - intros H. rewrite !item_second_last_None in H.
    rewrite (detectCrosses_short self sp lp) by (fold prices; fold S L; lia).
    now split.
Qed.

Lemma analyzeToken_empty :
  analyzeToken (@nil (TokenData num))
  = TypeError "Cannot read properties of undefined (reading 'price')"%string.
Proof. reflexivity. Qed.

Lemma analyzeToken_nonempty (tokenData : list (TokenData num)) :
  tokenData <> [] -> exists a, analyzeToken tokenData = Ok a.
Proof.
  intros H. unfold analyzeToken.
  destruct (tradingSignal_of_nonempty tokenData H) as [s ->]. eauto.
Qed.

(** [analyzeToken] raises exactly on the empty list, with the exception of
    [generateTradingSignal]; when it returns, its trading signal is the one
    of [generateTradingSignal] and its two views carry the same flags. *)
Theorem analyzeToken_contract (tokenData : list (TokenData num)) :
  (tokenData = [] ->
   analyzeToken tokenData
   = TypeError
       "Cannot read properties of undefined (reading 'price')"%string) /\
  (tokenData <> [] -> exists a, analyzeToken tokenData = Ok a) /\
  (forall a, analyzeToken tokenData = Ok a ->
     generateTradingSignal (new_TradingStrategy tokenData)
     = Ok (tradingSignal a) /\
     crossAnalysis a
     = getCrossAnalysis (new_TradingStrategy tokenData) 50 200 /\
     crossFlags (crossAnalysis a) = crossSignals (tradingSignal a)).
Proof.
  split; [intros ->; apply analyzeToken_empty|].
  split; [apply analyzeToken_nonempty|].
  intros a. unfold analyzeToken.
  destruct (generateTradingSignal (new_TradingStrategy tokenData))
    as [s|] eqn:E; [|discriminate].
  intros H. injection H as <-. simpl. repeat split.
  destruct (generateTradingSignal_Ok _ s E)
    as (_ & _ & _ & _ & _ & _ & Hg & Hd).
  destruct (crossSignals s) as [g d]. simpl in *. now subst.
Qed.

Lemma detectCrosses_short_series (self : TradingStrategy num) (sp lp : nat) :
  (length (data self) <= sp \/ length (data self) <= lp)%nat ->
  detectCrosses self sp lp = {| goldenCross := false; deathCross := false |}.
Proof.
  intros H. apply detectCrosses_short. rewrite !ema_len, !length_map. lia.
Qed.

Lemma crossSignals_within_200 (self : TradingStrategy num)
    (s : StrategySignal num) :
  (length (data self) <= 200)%nat -> generateTradingSignal self = Ok s ->
  crossSignals s = {| goldenCross := false; deathCross := false |}.
Proof.
  intros Hn E.
  assert (D : detectCrosses self 50 200
              = {| goldenCross := false; deathCross := false |})
    by (apply detectCrosses_short_series; lia).
  destruct (generateTradingSignal_Ok _ s E)
    as (_ & _ & _ & _ & _ & _ & Hg & Hd).
  rewrite D in Hg, Hd. destruct (crossSignals s) as [g d].
  simpl in *. now subst.
Qed.

(** With no more observations than one of the two periods there is no
    cross: [detectCrosses] reports none, and with at most 200 observations
    no cross analysis and no returned signal reports one. *)
Theorem no_cross_on_short_series (self : TradingStrategy num) :
  (forall sp lp : nat,
     (length (data self) <= sp \/ length (data self) <= lp)%nat ->
     detectCrosses self sp lp
     = {| goldenCross := false; deathCross := false |}) /\
  ((length (data self) <= 200)%nat ->
   crossFlags (getCrossAnalysis self 50 200)
   = {| goldenCross := false; deathCross := false |} /\
   forall s, generateTradingSignal self = Ok s ->
     crossSignals s = {| goldenCross := false; deathCross := false |}).
Proof.
  assert (D : forall sp lp : nat,
             (length (data self) <= sp \/ length (data self) <= lp)%nat ->
             detectCrosses self sp lp
             = {| goldenCross := false; deathCross := false |}).
  { intros sp lp H. apply detectCrosses_short.
    rewrite !ema_len, !length_map. lia. }
  split; [exact D|]. intros H.
  specialize (D 50%nat 200%nat (or_intror H)). split.
  - unfold getCrossAnalysis. simpl. now rewrite D.
  - intros s E. exact (crossSignals_within_200 self s H E).
Qed.

End AnalysisFacts.

(* ------------------------------------------------------------------ *)
(** ** The adapter loop *)

Section Adapter.

Context {num : Type} {N : Number num}.

Lemma try_push_loop_ok {A B} (f : A -> result B) (g : A -> B)
    (arr : list B) (idx : list A) :
  (forall i, In i idx -> f i = Ok (g i)) ->
  try_push_loop (fun _ i => f i) arr idx = Ok (arr ++ map g idx).
Proof.
  revert arr. induction idx as [|i idx IH]; intros arr H; simpl.
  - now rewrite app_nil_r.
  - rewrite (H i) by now left. rewrite IH by (intros; apply H; now right).
    now rewrite <- app_assoc.
Qed.

Lemma try_push_loop_raises {A B} (f : A -> result B) (g : A -> B)
    (arr : list B) (done : list A) (k : A) (rest : list A) (msg : string) :
  (forall i, In i done -> f i = Ok (g i)) -> f k = TypeError msg ->
  try_push_loop (fun _ i => f i) arr (done ++ k :: rest) = TypeError msg.
Proof.
  revert arr. induction done as [|i done IH]; intros arr H Hk; simpl.
  - now rewrite Hk.
  - rewrite (H i) by now left. apply IH; [|exact Hk].
    intros; apply H; now right.
Qed.

Lemma range_empty (lo hi : Z) : hi <= lo -> range lo hi = [].
Proof.
  intros H. unfold range. now replace (Z.to_nat (hi - lo)) with 0%nat by lia.
Qed.

Lemma range_cons (lo hi : Z) :
  lo < hi -> range lo hi = lo :: range (lo + 1) hi.
Proof.
  intros H. unfold range.
  replace (Z.to_nat (hi - lo)) with (S (Z.to_nat (hi - (lo + 1)))) by lia.
  simpl. f_equal; [lia|].
  rewrite <- seq_shift, map_map. apply map_ext. intros j. lia.
Qed.

Lemma range_split (lo k hi : Z) :
  lo <= k < hi -> range lo hi = range lo k ++ k :: range (k + 1) hi.
Proof.
  intros H. remember (Z.to_nat (k - lo)) as n eqn:En.
  revert lo H En. induction n as [|n IH]; intros lo H En.
  - assert (k = lo) by lia. subst k.
    unfold range at 2. rewrite Z.sub_diag. simpl. apply range_cons. lia.
  - rewrite (range_cons lo hi), (range_cons lo k) by lia. simpl. f_equal.
    apply IH; lia.
Qed.

Lemma tokenDataOf_cases
    (historicPrices historicVolumes : list (Z * num)) :
  ((length historicPrices <= length historicVolumes)%nat ->
   exists tokenData,
     tokenDataOf historicPrices historicVolumes = Ok tokenData /\
     length tokenData = length historicPrices /\
     forall i : Z, 0 <= i < len historicPrices ->
       item tokenData i = paired historicPrices historicVolumes i /\
       item tokenData i <> None) /\
  ((length historicVolumes < length historicPrices)%nat ->
   tokenDataOf historicPrices historicVolumes
   = TypeError "Cannot read properties of undefined (reading '1')"%string).
Proof.
  set (default := {| timestamp := 0; price := nan; volume := nan |}).
  set (g := fun i : Z =>
              match paired historicPrices historicVolumes i with
              | Some d => d
              | None => default
              end).
  assert (Hok : forall i, 0 <= i < len historicPrices ->
                  i < len historicVolumes ->
                  exists d, paired historicPrices historicVolumes i = Some d
                            /\ g i = d).
  { intros i Hp Hv. unfold g, paired.
    destruct (item_in_bounds historicPrices i Hp) as [p ->].
    destruct (item_in_bounds historicVolumes i) as [v ->]; [lia|]. eauto. }
  split.
  - intros Hlen. exists (map g (range 0 (len historicPrices))).
    split; [|split].
    + unfold tokenDataOf. rewrite (try_push_loop_ok _ g); [reflexivity|].
      intros i Hi. apply In_range in Hi.
      destruct (Hok i Hi) as (d & Ed & Eg); [unfold len in *; lia|].
      unfold paired in Ed. rewrite Eg.
      destruct (item historicPrices i); [|discriminate].
      destruct (item historicVolumes i); [|discriminate]. congruence.
    + rewrite length_map, range_length. unfold len. lia.
    + intros i Hi.
      destruct (Hok i Hi) as (d & Ed & Eg); [unfold len in *; lia|].
      assert (E : item (map g (range 0 (len historicPrices))) i = Some d).
      { rewrite item_map. unfold item.
        destruct (Z.ltb_spec i 0); [lia|].
        rewrite nth_error_range by lia. simpl. f_equal.
        rewrite Z2Nat.id by lia. exact Eg. }
      rewrite E, Ed. split; [reflexivity|discriminate].
  - intros Hlen. unfold tokenDataOf.
    rewrite (range_split 0 (len historicVolumes) (len historicPrices))
      by (unfold len; lia).
    apply (try_push_loop_raises _ g).
    + intros i Hi. apply In_range in Hi.
      destruct (Hok i) as (d & Ed & Eg); [unfold len in *; lia|lia|].
      unfold paired in Ed. rewrite Eg.
      destruct (item historicPrices i); [|discriminate].
      destruct (item historicVolumes i); [|discriminate]. congruence.
    + destruct (item_in_bounds historicPrices (len historicVolumes))
        as [p ->]; [unfold len; lia|].
      now rewrite (item_beyond historicVolumes) by lia.
Qed.

(** The pairing loop.  With at least as many volume rows as price rows it
    returns one observation per price row, built from the price row and
    the value of the volume row at the same index (the timestamps of the
    volume rows and any further volume rows are never read); with fewer
    volume rows it raises at the first missing one. *)
Theorem tokenDataOf_pairs_by_index
    (historicPrices historicVolumes : list (Z * num)) :
  ((length historicPrices <= length historicVolumes)%nat ->
   exists tokenData,
     tokenDataOf historicPrices historicVolumes = Ok tokenData /\
     length tokenData = length historicPrices /\
     forall i : Z, 0 <= i < len historicPrices ->
       item tokenData i = paired historicPrices historicVolumes i /\
       item tokenData i <> None) /\
  ((length historicVolumes < length historicPrices)%nat ->
   tokenDataOf historicPrices historicVolumes
   = TypeError "Cannot read properties of undefined (reading '1')"%string).
Proof. exact (tokenDataOf_cases historicPrices historicVolumes). Qed.

(** From the payload to the analysis: the call returns exactly when the
    payload has at least one price row and at least as many volume rows; a
    missing payload or a missing [prices] field counts as no price rows. *)
Theorem analyzeMarketData_returns_iff
    (marketData : option (CoinGecko.MarketChartData num)) :
  let historicPrices :=
    or_empty (match marketData with
              | Some m => CoinGecko.prices m
              | None => None
              end) in
  let historicVolumes :=
    or_empty (match marketData with
              | Some m => CoinGecko.total_volumes m
              | None => None
              end) in
  (exists a, analyzeMarketData marketData = Ok a) <->
  (historicPrices <> []
   /\ (length historicPrices <= length historicVolumes)%nat).
Proof.
  intros P V. unfold analyzeMarketData. fold P V.
  destruct (tokenDataOf_cases P V) as [Hok Hraise].
  destruct (Nat.le_gt_cases (length P) (length V)) as [Hle|Hgt].
  - destruct (Hok Hle) as (td & -> & Hl & _).
    split.
    + intros [a Ha]. split; [|exact Hle]. intros ->.
      destruct td; [|discriminate]. rewrite analyzeToken_empty in Ha.
      discriminate.
    + intros [HP _]. apply analyzeToken_nonempty. intros ->.
      destruct P; [congruence|]. discriminate.
  - rewrite (Hraise Hgt). split.
    + intros [a Ha]. discriminate.
    + intros [_ H]. lia.
Qed.

End Adapter.

(* ------------------------------------------------------------------ *)
(** ** More on the normalizer *)

Section SortedInput.

Context {A : Type} (key : A -> Z).

Let cmp (a b : A) : Z := key a - key b.
Let le (a b : A) : Prop := key a <= key b.

(** A sorted array is left as it is. *)
Lemma sort_of_sorted (l : list A) : StronglySorted le l -> sort cmp l = l.
Proof.
  induction 1 as [|x l Hs IH Hx]; [reflexivity|].
  simpl. rewrite IH. destruct l as [|y l]; [reflexivity|].
  simpl. inversion Hx as [|? ? Hxy _]; subst. unfold cmp at 1.
  destruct (Z.leb_spec (key x - key y) 0); [reflexivity|].
  unfold le in Hxy. lia.
Qed.

(** The last entry of a sorted array has the greatest key. *)
Lemma sorted_last_greatest (l : list A) (x : A) :
  StronglySorted le (l ++ [x]) -> forall y, In y (l ++ [x]) -> le y x.
Proof.
  induction l as [|a l IH]; simpl; intros Hs y Hy.
  - destruct Hy as [<-|[]]. unfold le. lia.
  - inversion Hs as [|? ? Hs' Ha]; subst. destruct Hy as [<-|Hy].
    + rewrite Forall_forall in Ha. apply Ha. apply in_or_app. right. now left.
    + now apply IH.
Qed.

End SortedInput.

Section NormalizerUse.

Context {num : Type} {N : Number num}.

(** Normalizing twice is normalizing once, and a list that is already in
    timestamp order is stored unchanged. *)
Theorem normalizer_idempotent (d : list (TokenData num)) :
  new_TradingStrategy (data (new_TradingStrategy d)) = new_TradingStrategy d
  /\ (StronglySorted ts_le d -> data (new_TradingStrategy d) = d).
Proof.
  split.
  - unfold new_TradingStrategy. simpl. f_equal.
    apply (sort_of_sorted timestamp). apply (sort_sorted timestamp).
  - intros H. apply (sort_of_sorted timestamp). exact H.
Qed.

(** The price a signal reports as current is the price of an observation
    of the input with the greatest timestamp, whatever the input order. *)
Theorem currentPrice_is_latest (d : list (TokenData num))
    (s : StrategySignal num) :
  generateTradingSignal (new_TradingStrategy d) = Ok s ->
  exists o, In o d /\ currentPrice s = price o /\
            forall o', In o' d -> timestamp o' <= timestamp o.
Proof.
  intros H.
  destruct (generateTradingSignal_Ok _ s H) as (latest & E & Hp & _).
  simpl in E. set (out := sort by_timestamp d) in *.
  assert (P : Permutation out d) by apply (sort_perm timestamp).
  assert (S : StronglySorted ts_le out) by apply (sort_sorted timestamp).
  destruct out as [|x out] using rev_ind.
  { unfold item in E. simpl in E. discriminate. }
  clear IHout.
  assert (Ex : latest = x).
  { unfold len in E. rewrite length_app in E. simpl length in E.
    replace (Z.of_nat (length out + 1) - 1) with (len out) in E
      by (unfold len; lia).
    rewrite item_last in E. congruence. }
  subst latest. exists x. split; [|split; [exact Hp|]].
  - eapply Permutation_in; [exact P|]. apply in_or_app. right. now left.
  - intros o' Ho'. apply (sorted_last_greatest timestamp out x S).
    eapply Permutation_in; [symmetry; exact P|exact Ho'].
Qed.

(** The analysis does not depend on the order in which observations with
    pairwise distinct timestamps arrive. *)
Theorem analyzeToken_order_independent (l l' : list (TokenData num)) :
  Permutation l l' -> NoDup (map timestamp l) ->
  analyzeToken l = analyzeToken l'.
Proof.
  intros P ND. unfold analyzeToken, new_TradingStrategy.
  assert (E : sort by_timestamp l = sort by_timestamp l')
    by exact (sort_of_permutation timestamp l l' P ND).
  now rewrite E.
Qed.

End NormalizerUse.

(* ------------------------------------------------------------------ *)
(** ** The rule table *)

Section RuleTable.

Context {num : Type} {N : Number num}.

Lemma rsi_step (x : num) (st : Z * list string) :
  (if (x <? of_Z 30)%num then rule 20 "RSI indicates oversold condition" st
   else if (x >? of_Z 70)%num then
     rule (-20) "RSI indicates overbought condition" st
   else note "RSI indicates steady condition" st)
  = (fst st + fst (rsi_rule x), snd st ++ [snd (rsi_rule x)]).
Proof.
  unfold rsi_rule, rule, note.
  destruct (x <? of_Z 30)%num, (x >? of_Z 70)%num; cbn [fst snd];
    rewrite ?Z.add_0_r; reflexivity.
Qed.

Lemma trend_step (p e : num) (st : Z * list string) :
  (if (p >? e)%num then rule 15 "Price is above EMA50, bullish trend" st
   else rule (-15) "Price is below EMA50, bearish trend" st)
  = (fst st + fst (trend_rule p e), snd st ++ [snd (trend_rule p e)]).
Proof. unfold trend_rule, rule. now destruct (p >? e)%num. Qed.

Lemma macd_step (m g : num) (st : Z * list string) :
  (if (m >? g)%num then rule 25 "MACD shows bullish momentum" st
   else rule (-25) "MACD shows bearish momentum" st)
  = (fst st + fst (macd_rule m g), snd st ++ [snd (macd_rule m g)]).
Proof. unfold macd_rule, rule. now destruct (m >? g)%num. Qed.

Lemma band_step (p u l : num) (st : Z * list string) :
  (if (p <=? l)%num then
     rule 20 "Price near lower Bollinger Band, potential buy signal" st
   else if (p >=? u)%num then
     rule (-20) "Price near upper Bollinger Band, potential sell signal" st
   else note "Bollinger Band indicates steady condition" st)
  = (fst st + fst (band_rule p u l), snd st ++ [snd (band_rule p u l)]).
Proof.
  unfold band_rule, rule, note.
  destruct (p <=? l)%num, (p >=? u)%num; cbn [fst snd];
    rewrite ?Z.add_0_r; reflexivity.
Qed.

Lemma volume_step (o : num) (st : Z * list string) :
  (if (o >? of_Z 0)%num then rule 20 "Positive On-Balance Volume trend" st
   else rule (-20) "Negative On-Balance Volume trend" st)
  = (fst st + fst (volume_rule o), snd st ++ [snd (volume_rule o)]).
Proof. unfold volume_rule, rule. now destruct (o >? of_Z 0)%num. Qed.

(** The rule table is the five indicator rules and the two cross rules,
    added up and listed in order. *)
Lemma applyRules_by_rule (latestPrice latestRSI latestEMA latestMACD
    latestSignalLine latestUpperBand latestLowerBand obvSlope : num)
    (g d : bool) :
  applyRules latestPrice latestRSI latestEMA latestMACD latestSignalLine
    latestUpperBand latestLowerBand obvSlope g d
  = (fst (rsi_rule latestRSI) + fst (trend_rule latestPrice latestEMA)
     + fst (macd_rule latestMACD latestSignalLine)
     + fst (band_rule latestPrice latestUpperBand latestLowerBand)
     + fst (volume_rule obvSlope)
     + (if g then 30 else 0) + (if d then -30 else 0),
     [snd (rsi_rule latestRSI); snd (trend_rule latestPrice latestEMA);
      snd (macd_rule latestMACD latestSignalLine);
      snd (band_rule latestPrice latestUpperBand latestLowerBand);
      snd (volume_rule obvSlope)]
     ++ (if g then [golden_reason] else [])
     ++ (if d then [death_reason] else [])).
Proof.
  unfold applyRules. cbv zeta.
  rewrite !rsi_step, !trend_step, !macd_step, !band_step, !volume_step.
  cbn [fst snd app Z.add].
  destruct g, d; unfold rule, golden_reason, death_reason; cbn [fst snd app];
    rewrite ?Z.add_0_r; reflexivity.
Qed.

Lemma rsi_rule_cases (x : num) :
  rsi_rule x = (20, "RSI indicates oversold condition"%string)
  \/ rsi_rule x = (-20, "RSI indicates overbought condition"%string)
  \/ rsi_rule x = (0, "RSI indicates steady condition"%string).
Proof.
  unfold rsi_rule. destruct (x <? of_Z 30)%num, (x >? of_Z 70)%num; auto.
Qed.

Lemma trend_rule_cases (p e : num) :
  trend_rule p e = (15, "Price is above EMA50, bullish trend"%string)
  \/ trend_rule p e = (-15, "Price is below EMA50, bearish trend"%string).
Proof. unfold trend_rule. destruct (p >? e)%num; auto. Qed.

Lemma macd_rule_cases (m g : num) :
  macd_rule m g = (25, "MACD shows bullish momentum"%string)
  \/ macd_rule m g = (-25, "MACD shows bearish momentum"%string).
Proof. unfold macd_rule. destruct (m >? g)%num; auto. Qed.

Lemma band_rule_cases (p u l : num) :
  band_rule p u l
  = (20, "Price near lower Bollinger Band, potential buy signal"%string)
  \/ band_rule p u l
     = (-20, "Price near upper Bollinger Band, potential sell signal"%string)
  \/ band_rule p u l = (0, "Bollinger Band indicates steady condition"%string).
Proof.
  unfold band_rule. destruct (p <=? l)%num, (p >=? u)%num; auto.
Qed.

Lemma volume_rule_cases (o : num) :
  volume_rule o = (20, "Positive On-Balance Volume trend"%string)
  \/ volume_rule o = (-20, "Negative On-Balance Volume trend"%string).
Proof. unfold volume_rule. destruct (o >? of_Z 0)%num; auto. Qed.

Lemma applyRules_shape (latestPrice latestRSI latestEMA latestMACD
    latestSignalLine latestUpperBand latestLowerBand obvSlope : num)
    (g d : bool) :
  let st := applyRules latestPrice latestRSI latestEMA latestMACD
              latestSignalLine latestUpperBand latestLowerBand obvSlope g d in
  Forall2 (fun r verdicts => In r verdicts) (firstn 5 (snd st)) verdict_table
  /\ skipn 5 (snd st)
     = (if g then [golden_reason] else [])
       ++ (if d then [death_reason] else []) /\
  -130 <= fst st <= 130 /\ fst st mod 5 = 0.
Proof.
  cbv zeta. rewrite applyRules_by_rule. cbn [fst snd app firstn skipn].
  pose proof (rsi_rule_cases latestRSI) as H1.
  pose proof (trend_rule_cases latestPrice latestEMA) as H2.
  pose proof (macd_rule_cases latestMACD latestSignalLine) as H3.
  pose proof (band_rule_cases latestPrice latestUpperBand latestLowerBand)
    as H4.
  pose proof (volume_rule_cases obvSlope) as H5.
  split; [|split; [reflexivity|]].
  - unfold verdict_table.
    repeat (apply Forall2_cons; [|]); [| | | | |apply Forall2_nil].
    + destruct H1 as [-> | [-> | ->]]; simpl; auto.
    + destruct H2 as [-> | ->]; simpl; auto.
    + destruct H3 as [-> | ->]; simpl; auto.
    + destruct H4 as [-> | [-> | ->]]; simpl; auto.
    + destruct H5 as [-> | ->]; simpl; auto.
  - assert (E1 : exists k, fst (rsi_rule latestRSI) = 5 * k /\ -4 <= k <= 4).
    { destruct H1 as [-> | [-> | ->]];
        [exists 4|exists (-4)|exists 0]; simpl; lia. }
    assert (E2 : exists k, fst (trend_rule latestPrice latestEMA) = 5 * k
                           /\ -3 <= k <= 3).
    { destruct H2 as [-> | ->]; [exists 3|exists (-3)]; simpl; lia. }
    assert (E3 : exists k, fst (macd_rule latestMACD latestSignalLine) = 5 * k
                           /\ -5 <= k <= 5).
    { destruct H3 as [-> | ->]; [exists 5|exists (-5)]; simpl; lia. }
    assert (E4 : exists k,
               fst (band_rule latestPrice latestUpperBand latestLowerBand)
               = 5 * k /\ -4 <= k <= 4).
    { destruct H4 as [-> | [-> | ->]];
        [exists 4|exists (-4)|exists 0]; simpl; lia. }
    assert (E5 : exists k, fst (volume_rule obvSlope) = 5 * k /\ -4 <= k <= 4).
    { destruct H5 as [-> | ->]; [exists 4|exists (-4)]; simpl; lia. }
    destruct E1 as (k1 & -> & B1), E2 as (k2 & -> & B2),
      E3 as (k3 & -> & B3), E4 as (k4 & -> & B4), E5 as (k5 & -> & B5).
    assert (Eg : exists k, (if g then 30 else 0) = 5 * k /\ 0 <= k <= 6)
      by (destruct g; [exists 6|exists 0]; lia).
    assert (Ed : exists k, (if d then -30 else 0) = 5 * k /\ -6 <= k <= 0)
      by (destruct d; [exists (-6)|exists 0]; lia).
    destruct Eg as (kg & -> & Bg), Ed as (kd & -> & Bd).
    split; [lia|].
    replace (5 * k1 + 5 * k2 + 5 * k3 + 5 * k4 + 5 * k5 + 5 * kg + 5 * kd)
      with ((k1 + k2 + k3 + k4 + k5 + kg + kd) * 5) by lia.
    apply Z_mod_mult.
Qed.

(** What every returned signal looks like: its first five reasons are one
    verdict of each indicator rule in the order RSI, EMA, MACD, Bollinger,
    OBV; after them come the golden-cross and the death-cross reason,
    exactly when the flag is set; and the score before clamping is a
    multiple of 5 between -130 and 130. *)
Theorem signal_reasons_in_rule_order (self : TradingStrategy num)
    (s : StrategySignal num) :
  generateTradingSignal self = Ok s ->
  let score := fst (signalScore self (currentPrice s)) in
  Forall2 (fun r verdicts => In r verdicts) (firstn 5 (reasons s))
    verdict_table /\
  skipn 5 (reasons s)
  = (if goldenCross (crossSignals s) then [golden_reason] else [])
    ++ (if deathCross (crossSignals s) then [death_reason] else []) /\
  -130 <= score <= 130 /\ score mod 5 = 0.
Proof.
  intros H score. subst score.
  destruct (generateTradingSignal_Ok self s H)
    as (latest & _ & -> & _ & _ & -> & -> & ->).
  unfold signalScore. cbv zeta. apply applyRules_shape.
Qed.

End RuleTable.

Lemma Exact_nan_laws (rt : Q -> Q) : nan_laws (Exact.number rt).
Proof. split; intros [x|]; reflexivity. Qed.

(** The reasons of a signal on three binary64 observations. *)
Lemma signal_reasons_in_rule_order_witness :
  exists s,
    generateTradingSignal (N := Float64.number) three_days = Ok s /\
    skipn 5 (reasons s) = [].
Proof.
  eexists. split.
  - vm_compute. reflexivity.
  - refine (proj1 (proj2 (signal_reasons_in_rule_order
                            (N := Float64.number) three_days _ _))).
    vm_compute. reflexivity.
Defined.

(* ------------------------------------------------------------------ *)
(** ** Rules that cannot fire on the series the strategy receives *)

Section DegenerateRules.

Context {num : Type} {N : Number num}.

Hypothesis laws : nan_laws N.

Lemma macdLine_length (self : TradingStrategy num) (sp lp gp : nat) :
  length (macdLine (calculateMACD self sp lp gp))
  = (1 + (length (data self) - sp))%nat.
Proof.
  unfold calculateMACD. simpl.
  now rewrite mapi_length, calculateExponentialMovingAverages_length,
    length_map.
Qed.

(** With more observations than the short period, the last entry of the
    MACD line lies past the end of the long EMA: it is a short EMA minus
    [undefined]. *)
Lemma latest_macd_nan (self : TradingStrategy num) (sp lp gp : nat) :
  (sp < lp)%nat -> (sp < length (data self))%nat ->
  let line := macdLine (calculateMACD self sp lp gp) in
  get line (len line - 1) = nan.
Proof.
  intros Hp Hn line. apply get_item. subst line.
  unfold len. rewrite macdLine_length, macdLine_item.
  set (prices := map price (data self)).
  assert (Hl : length prices = length (data self))
    by (unfold prices; apply length_map).
  destruct (item_in_bounds (calculateExponentialMovingAverages prices sp)
              (Z.of_nat (1 + (length (data self) - sp)) - 1)) as [x ->].
  { unfold len. rewrite calculateExponentialMovingAverages_length. lia. }
  cbn [option_map]. f_equal.
  rewrite (get_undefined (calculateExponentialMovingAverages prices lp)).
  - apply (sub_nan laws).
  - apply item_beyond. unfold len.
    rewrite calculateExponentialMovingAverages_length. lia.
Qed.

Lemma reasons_by_rule (self : TradingStrategy num) (s : StrategySignal num) :
  generateTradingSignal self = Ok s ->
  exists v1 v2 v4 v5 : Z * string,
    let macd := calculateMACD self 12 26 9 in
    let bands := calculateBollingerBands self 20 (of_Z 2) in
    let v3 := macd_rule (get (macdLine macd) (len (macdLine macd) - 1))
                (get (signalLine macd) (len (signalLine macd) - 1)) in
    v4 = band_rule (currentPrice s)
           (get (upperBand bands) (len (upperBand bands) - 1))
           (get (lowerBand bands) (len (lowerBand bands) - 1)) /\
    (v1 = (20, "RSI indicates oversold condition"%string)
     \/ v1 = (-20, "RSI indicates overbought condition"%string)
     \/ v1 = (0, "RSI indicates steady condition"%string)) /\
    (v2 = (15, "Price is above EMA50, bullish trend"%string)
     \/ v2 = (-15, "Price is below EMA50, bearish trend"%string)) /\
    (v5 = (20, "Positive On-Balance Volume trend"%string)
     \/ v5 = (-20, "Negative On-Balance Volume trend"%string)) /\
    signalScore self (currentPrice s)
    = (fst v1 + fst v2 + fst v3 + fst v4 + fst v5
       + (if goldenCross (crossSignals s) then 30 else 0)
       + (if deathCross (crossSignals s) then -30 else 0),
       [snd v1; snd v2; snd v3; snd v4; snd v5]
       ++ (if goldenCross (crossSignals s) then [golden_reason] else [])
       ++ (if deathCross (crossSignals s) then [death_reason] else [])) /\
    reasons s = snd (signalScore self (currentPrice s)).
Proof.
  intros H.
  destruct (generateTradingSignal_Ok self s H)
    as (latest & _ & Hp & _ & _ & Hr & Hg & Hd).
  rewrite Hp, Hg, Hd, Hr. unfold signalScore. cbv zeta.
  rewrite applyRules_by_rule.
  do 4 eexists. split; [reflexivity|].
  split; [apply rsi_rule_cases|]. split; [apply trend_rule_cases|].
  split; [apply volume_rule_cases|]. split; reflexivity.
Qed.

(** With more than 12 observations the MACD rule cannot see a bullish
    crossing: the third reason of every returned signal is the bearish
    one, and the rule takes 25 off the score. *)
Theorem macd_rule_always_bearish (self : TradingStrategy num)
    (s : StrategySignal num) :
  (12 < length (data self))%nat ->
  generateTradingSignal self = Ok s ->
  nth_error (reasons s) 2 = Some "MACD shows bearish momentum"%string /\
  fst (signalScore self (currentPrice s)) <= 80.
Proof.
  intros Hn H.
  destruct (reasons_by_rule self s H)
    as (v1 & v2 & v4 & v5 & E4 & H1 & H2 & H5 & E & ->).
  cbv zeta in E4, E. rewrite E. clear E.
  rewrite (latest_macd_nan self 12 26 9) by lia.
  unfold macd_rule. rewrite (lt_nan laws). cbn [fst snd nth_error app].
  split; [reflexivity|].
  pose proof (band_rule_cases (currentPrice s)
    (get (upperBand (calculateBollingerBands self 20 (of_Z 2)))
       (len (upperBand (calculateBollingerBands self 20 (of_Z 2))) - 1))
    (get (lowerBand (calculateBollingerBands self 20 (of_Z 2)))
       (len (lowerBand (calculateBollingerBands self 20 (of_Z 2))) - 1)))
    as H4.
  rewrite <- E4 in H4.
  destruct H1 as [-> | [-> | ->]], H2 as [-> | ->],
    H4 as [-> | [-> | ->]], H5 as [-> | ->];
    destruct (goldenCross (crossSignals s)), (deathCross (crossSignals s));
    cbn [fst]; lia.
Qed.

(** With fewer than 20 observations there are no Bollinger bands: the
    fourth reason of every returned signal is the steady one, and the rule
    leaves the score alone. *)
Theorem band_rule_steady_on_short_series (self : TradingStrategy num)
    (s : StrategySignal num) :
  (length (data self) < 20)%nat ->
  generateTradingSignal self = Ok s ->
  upperBand (calculateBollingerBands self 20 (of_Z 2)) = [] /\
  lowerBand (calculateBollingerBands self 20 (of_Z 2)) = [] /\
  nth_error (reasons s) 3
  = Some "Bollinger Band indicates steady condition"%string.
Proof.
  intros Hn H.
  assert (Em : calculateMovingAverage (map price (data self)) 20 = []).
  { unfold calculateMovingAverage. rewrite range_empty; [reflexivity|].
    unfold len. rewrite length_map. lia. }
  assert (Eu : upperBand (calculateBollingerBands self 20 (of_Z 2)) = []).
  { unfold calculateBollingerBands. simpl. now rewrite Em. }
  assert (El : lowerBand (calculateBollingerBands self 20 (of_Z 2)) = []).
  { unfold calculateBollingerBands. simpl. now rewrite Em. }
  split; [exact Eu|]. split; [exact El|].
  destruct (reasons_by_rule self s H)
    as (v1 & v2 & v4 & v5 & E4 & _ & _ & _ & E & ->).
  cbv zeta in E4, E. rewrite E. cbn [snd nth_error app]. f_equal.
  rewrite E4, Eu, El. unfold band_rule, get. simpl item.
  now rewrite (le_nan_r laws), (le_nan_l laws).
Qed.

(** With 13 to 200 observations (the adapter asks for 51 days) the score
    lies between -100 and 50, so the clamp never acts, and a BUY is only
    reached by all four other rules together: its confidence is exactly
    50. *)
Theorem buy_needs_every_other_rule (self : TradingStrategy num)
    (s : StrategySignal num) :
  (12 < length (data self) <= 200)%nat ->
  generateTradingSignal self = Ok s ->
  let score := fst (signalScore self (currentPrice s)) in
  -100 <= score <= 50 /\
  confidence s = Z.abs score /\
  (recommendation s = BUY ->
   confidence s = 50 /\
   firstn 5 (reasons s)
   = ["RSI indicates oversold condition";
      "Price is above EMA50, bullish trend";
      "MACD shows bearish momentum";
      "Price near lower Bollinger Band, potential buy signal";
      "Positive On-Balance Volume trend"]%string).
Proof.
  intros Hn H score. subst score.
  destruct (generateTradingSignal_Ok self s H)
    as (latest & _ & Hp & Hrec & Hc & _).
  rewrite <- Hp in Hrec, Hc.
  destruct (reasons_by_rule self s H)
    as (v1 & v2 & v4 & v5 & E4 & H1 & H2 & H5 & E & Er).
  cbv zeta in E4, E.
  assert (Hx : crossSignals s
               = {| goldenCross := false; deathCross := false |}).
  { apply (crossSignals_within_200 self s); [lia|exact H]. }
  rewrite Hx in E. cbn [goldenCross deathCross app] in E.
  rewrite (latest_macd_nan self 12 26 9) in E by lia.
  unfold macd_rule in E. rewrite (lt_nan laws) in E. cbn [fst snd] in E.
  pose proof (band_rule_cases (currentPrice s)
    (get (upperBand (calculateBollingerBands self 20 (of_Z 2)))
       (len (upperBand (calculateBollingerBands self 20 (of_Z 2))) - 1))
    (get (lowerBand (calculateBollingerBands self 20 (of_Z 2)))
       (len (lowerBand (calculateBollingerBands self 20 (of_Z 2))) - 1)))
    as H4.
  rewrite <- E4 in H4. clear E4.
  rewrite Hc, Hrec, Er, E. clear E Er Hc Hrec. unfold recommend.
  destruct H1 as [-> | [-> | ->]], H2 as [-> | ->],
    H4 as [-> | [-> | ->]], H5 as [-> | ->];
    cbn [fst snd];
    (split; [lia|]); (split; [lia|]); intros Hb;
    first [split; reflexivity | vm_compute in Hb; discriminate Hb].
Qed.

End DegenerateRules.

(** The MACD rule on sixteen exact observations. *)
Lemma macd_rule_always_bearish_witness :
  nan_laws Exact.run /\
  (12 < length (data sixteen_days_exact))%nat /\
  exists s,
    generateTradingSignal (N := Exact.run) sixteen_days_exact = Ok s /\
    nth_error (reasons s) 2 = Some "MACD shows bearish momentum"%string.
Proof.
  assert (L : nan_laws Exact.run) by apply Exact_nan_laws.
  assert (Hn : (12 < length (data sixteen_days_exact))%nat)
    by (vm_compute; lia).
  split; [exact L|]. split; [exact Hn|]. eexists. split.
  - vm_compute. reflexivity.
  - refine (proj1 (macd_rule_always_bearish L sixteen_days_exact _ Hn _)).
    vm_compute. reflexivity.
Defined.

(** The Bollinger rule on sixteen exact observations. *)
Lemma band_rule_steady_on_short_series_witness :
  nan_laws Exact.run /\
  (length (data sixteen_days_exact) < 20)%nat /\
  exists s,
    generateTradingSignal (N := Exact.run) sixteen_days_exact = Ok s /\
    nth_error (reasons s) 3
    = Some "Bollinger Band indicates steady condition"%string.
Proof.
  assert (L : nan_laws Exact.run) by apply Exact_nan_laws.
  assert (Hn : (length (data sixteen_days_exact) < 20)%nat)
    by (vm_compute; lia).
  split; [exact L|]. split; [exact Hn|]. eexists. split.
  - vm_compute. reflexivity.
  - refine (proj2 (proj2 (band_rule_steady_on_short_series L
                            sixteen_days_exact _ Hn _))).
    vm_compute. reflexivity.
Defined.

(** The score range on sixteen exact observations. *)
Lemma buy_needs_every_other_rule_witness :
  nan_laws Exact.run /\
  (12 < length (data sixteen_days_exact) <= 200)%nat /\
  exists s,
    generateTradingSignal (N := Exact.run) sixteen_days_exact = Ok s /\
    -100 <= fst (signalScore (N := Exact.run) sixteen_days_exact
                   (currentPrice s)) <= 50.
Proof.
  assert (L : nan_laws Exact.run) by apply Exact_nan_laws.
  assert (Hn : (12 < length (data sixteen_days_exact) <= 200)%nat)
    by (vm_compute; lia).
  split; [exact L|]. split; [exact Hn|]. eexists. split.
  - vm_compute. reflexivity.
  - refine (proj1 (buy_needs_every_other_rule L sixteen_days_exact _ Hn _)).
    vm_compute. reflexivity.
Defined.

(** The latest price of three binary64 observations given out of order. *)
Lemma currentPrice_is_latest_witness :
  let d := [mkTokenData 3 (Float64.of_Z 12) (Float64.of_Z 50);
            mkTokenData 1 (Float64.of_Z 10) (Float64.of_Z 40);
            mkTokenData 2 (Float64.of_Z 11) (Float64.of_Z 60)] in
  exists s,
    generateTradingSignal (N := Float64.number) (new_TradingStrategy d)
    = Ok s /\
    exists o, In o d /\ currentPrice s = price o /\
              forall o', In o' d -> timestamp o' <= timestamp o.
Proof.
  intros d. eexists. split.
  - vm_compute. reflexivity.
  - apply (currentPrice_is_latest (N := Float64.number) d).
    vm_compute. reflexivity.
Defined.

(** Three exact observations in two arrival orders. *)
Lemma analyzeToken_order_independent_witness :
  let l := [Exact.obs 3 12 50; Exact.obs 1 10 40; Exact.obs 2 11 60] in
  let l' := [Exact.obs 1 10 40; Exact.obs 3 12 50; Exact.obs 2 11 60] in
  Permutation l l' /\ NoDup (map timestamp l) /\
  analyzeToken (N := Exact.run) l = analyzeToken (N := Exact.run) l'.
Proof.
  intros l l'.
  assert (P : Permutation l l') by apply perm_swap.
  assert (ND : NoDup (map timestamp l)).
  { simpl. repeat constructor; simpl; intuition discriminate. }
  split; [exact P|]. split; [exact ND|].
  exact (analyzeToken_order_independent (N := Exact.run) l l' P ND).
Defined.

(* ------------------------------------------------------------------ *)
(** ** Wilder smoothing *)

Section Smoothing.

Context {num : Type} {N : Number num}.

(** A loop whose body combines the entry pushed last with the input index:
    the entry for input index [i] is the body at the entry before it. *)
Lemma recurrence_loop_item (F : num -> Z -> num) (seed : num) (k n i : Z) :
  let out := push_loop (fun arr j => F (get arr (len arr - 1)) j) [seed]
               (range k n) in
  k <= i < n ->
  item out (i - k + 1) = Some (F (get out (i - k)) i).
Proof.
  intros out Hi. subst out.
  set (idx := range k n). set (j := Z.to_nat (i - k)).
  assert (Hj : nth_error idx j = Some i).
  { unfold idx. rewrite nth_error_range by (unfold j; lia). f_equal.
    unfold j. lia. }
  replace (i - k + 1) with (len [seed] + Z.of_nat j)
    by (unfold len, j; simpl length; lia).
  rewrite (push_loop_item _ _ _ _ _ Hj). f_equal.
  rewrite push_loop_len.
  assert (Hlen : len (firstn j idx) = Z.of_nat j).
  { unfold len. rewrite length_firstn. unfold idx. rewrite range_length.
    unfold j. lia. }
  rewrite Hlen.
  replace (len [seed] + Z.of_nat j - 1) with (i - k)
    by (unfold len, j; simpl length; lia).
  f_equal. apply get_push_loop_stable. unfold len, j. simpl length. lia.
Qed.

(** The smoothed moving average of at least [p] values: it returns
    n - p + 1 values, the first is the arithmetic mean of the first [p]
    values, and the value for every later input index i is
    (previous * (p - 1) + values[i]) / p. *)
Theorem smoothed_average_seed_and_recurrence (values : list num) (p : nat) :
  (p <= length values)%nat ->
  let out := calculateSmoothedMovingAverage values p in
  length out = (length values - p + 1)%nat /\
  item out 0 = Some (arithmetic_mean (firstn p values)) /\
  forall i : Z, Z.of_nat p <= i < len values ->
    item out (i - Z.of_nat p + 1)
    = Some ((get out (i - Z.of_nat p) * (num_of_nat p - of_Z 1)
             + get values i) / num_of_nat p)%num.
Proof.
  intros Hp out. subst out. unfold calculateSmoothedMovingAverage.
  split; [|split].
  - rewrite push_loop_length, range_length. unfold len. simpl length. lia.
  - rewrite push_loop_init by (unfold len; simpl; lia).
    unfold arithmetic_mean. rewrite slice_prefix, length_firstn.
    now rewrite Nat.min_l by assumption.
  - intros i Hi.
    exact (recurrence_loop_item
             (fun prev j =>
                ((prev * (num_of_nat p - of_Z 1) + get values j)
                 / num_of_nat p)%num) _ _ _ i Hi).
Qed.

End Smoothing.

(** The smoothing contract on the binary64 values 1, 2, 3, 4 with period
    2. *)
Lemma smoothed_average_seed_and_recurrence_witness :
  let values := map Float64.of_Z [1; 2; 3; 4] in
  (2 <= length values)%nat /\
  length (calculateSmoothedMovingAverage (N := Float64.number) values 2)
  = 3%nat.
Proof.
  intros values. assert (H : (2 <= length values)%nat) by (simpl; lia).
  split; [exact H|].
  exact (proj1 (smoothed_average_seed_and_recurrence
                  (N := Float64.number) values 2 H)).
Defined.

(* ------------------------------------------------------------------ *)
(** ** Prices that never fall *)

Section NeverFalls.

Context {num : Type} {N : Number num}.
Hypothesis OL : order_laws N.
Hypothesis SL : nan_source_laws N.
Hypothesis RL : rounding_laws N.
Hypothesis ZL : zero_laws N.
Local Open Scope num_scope.

Lemma zero_is_zero : (of_Z 0 === of_Z 0) = true.
Proof.
  apply (number_eq OL), (int_number OL). unfold max_safe_integer. lia.
Qed.

(** No change of finite prices that never fall is negative. *)
Lemma changes_of_rising (prices : list num) :
  Forall (fun p => is_finite p = true) prices ->
  non_decreasing prices ->
  Forall (fun c => (of_Z 0 <=? c) = true) (price_changes prices).
Proof.
  intros Hfin Hup. apply Forall_item. intros i x.
  unfold price_changes. rewrite item_mapi.
  destruct (item prices i) as [p|] eqn:E; [|discriminate].
  simpl option_map. intros H. injection H as <-.
  pose proof (item_Some_bounds _ _ _ E) as Hi.
  destruct (Z.ltb_spec 0 i) as [Hpos|Hzero].
  - pose proof (Hup (i - 1)%Z) as Hle. cbv beta in Hle.
    replace (i - 1 + 1)%Z with i in Hle by lia.
    rewrite (get_item _ _ _ E) in Hle. specialize (Hle ltac:(lia) ltac:(lia)).
    apply (sub_not_negative RL); [exact Hle|].
    apply (sub_of_finite SL).
    + now apply (le_numbers OL) in Hle.
    + apply (get_Forall (fun p => is_finite p = true)); [exact Hfin|lia].
  - apply (int_le OL); unfold max_safe_integer; lia.
Qed.

Lemma losses_of_rising (changes : list num) :
  Forall (fun c => (of_Z 0 <=? c) = true) changes ->
  Forall (fun l => (l === of_Z 0) = true)
    (map (fun change => math_max (- change) (of_Z 0)) changes).
Proof.
  intros H. apply Forall_map. eapply Forall_impl; [|exact H].
  intros c Hc. now apply (max_neg_is_zero ZL).
Qed.

Lemma fold_of_zeros (l : list num) (acc : num) :
  (acc === of_Z 0) = true -> Forall (fun x => (x === of_Z 0) = true) l ->
  (fold_left nadd l acc === of_Z 0) = true.
Proof.
  revert acc. induction l as [|x l IH]; intros acc Ha Hl; [exact Ha|].
  inversion Hl as [|? ? Hx Hl']; subst. simpl. apply IH; [|exact Hl'].
  now apply (add_is_zero ZL).
Qed.

(** Wilder smoothing of zeros gives zeros. *)
Lemma smoothed_zero (values : list num) (p : nat) :
  (1 <= p)%nat -> Z.of_nat p <= max_safe_integer ->
  Forall (fun x => (x === of_Z 0) = true) values ->
  Forall (fun x => (x === of_Z 0) = true)
    (calculateSmoothedMovingAverage values p).
Proof.
  intros H1 H2 Hv. unfold calculateSmoothedMovingAverage.
  pose proof (period_positive OL p H1 H2) as Hp.
  assert (Hpred : is_finite (num_of_nat p - of_Z 1) = true).
  { unfold num_of_nat. rewrite (of_Z_sub ZL) by lia.
    apply (of_Z_finite SL). unfold max_safe_integer in *. lia. }
  apply push_loop_Forall.
  - constructor; [|constructor]. apply (div_is_zero ZL); [|exact Hp].
    apply fold_of_zeros; [apply zero_is_zero|].
    rewrite slice_prefix. now apply Forall_prefix.
  - intros arr i Harr Hlen Hi. apply In_range in Hi. simpl length in Hlen.
    apply (div_is_zero ZL); [|exact Hp].
    apply (add_is_zero ZL).
    + apply (mul_is_zero ZL); [|exact Hpred].
      apply (get_Forall (fun x => (x === of_Z 0) = true)); [exact Harr|].
      unfold len. lia.
    + apply (get_Forall (fun x => (x === of_Z 0) = true)); [exact Hv|]. lia.
Qed.

Lemma rsi_never_falls (self : TradingStrategy num) (p : nat) :
  (1 <= p)%nat -> Z.of_nat p <= max_safe_integer ->
  Forall (fun d => is_finite (price d) = true) (data self) ->
  non_decreasing (map price (data self)) ->
  Forall (eq (of_Z 100)) (calculateRSI self p).
Proof.
  intros H1 H2 Hfin Hup. apply Forall_item. intros i r Hr.
  pose proof (item_Some_bounds _ _ _ Hr) as Hi.
  rewrite calculateRSI_zero_loss in Hr; [congruence|exact Hi|].
  apply (get_Forall (fun x => (x === of_Z 0) = true)).
  - apply smoothed_zero; try assumption.
    apply losses_of_rising, changes_of_rising; [|exact Hup].
    now apply Forall_map.
  - unfold len in *. rewrite calculateRSI_length in Hi.
    rewrite smoothed_loss_length. lia.
Qed.

Lemma rsi_rule_at_100 :
  rsi_rule (of_Z 100) = ((-20)%Z, "RSI indicates overbought condition"%string).
Proof.
  unfold rsi_rule.
  assert (A : (of_Z 30 <? of_Z 100) = true)
    by (apply (int_lt OL); unfold max_safe_integer; lia).
  assert (B : (of_Z 70 <? of_Z 100) = true)
    by (apply (int_lt OL); unfold max_safe_integer; lia).
  now rewrite (lt_not_gt OL _ _ A), B.
Qed.

End NeverFalls.

(** A series of finite prices that never falls (a flat one included) has
    no losses: every price change is a number that is not negative, every
    loss and so every smoothed average loss is zero, every RSI value is
    exactly 100, and every signal on it opens with the overbought
    verdict. *)
Theorem rsi_of_series_that_never_falls {num : Type} (N : Number num)
    (self : TradingStrategy num) (p : nat) :
  order_laws N -> nan_source_laws N -> rounding_laws N -> zero_laws N ->
  (1 <= p)%nat -> Z.of_nat p <= max_safe_integer ->
  Forall (fun d => is_finite (price d) = true) (data self) ->
  non_decreasing (map price (data self)) ->
  Forall (eq (of_Z 100)) (calculateRSI self p) /\
  forall s, generateTradingSignal self = Ok s ->
    nth_error (reasons s) 0
    = Some "RSI indicates overbought condition"%string.
Proof.
  intros OL SL RL ZL H1 H2 Hfin Hup.
  split; [now apply rsi_never_falls|].
  intros s H.
  destruct (generateTradingSignal_Ok self s H)
    as (last & _ & _ & _ & _ & -> & _).
  unfold signalScore. cbv zeta. rewrite applyRules_by_rule.
  cbn [snd app nth_error]. f_equal.
  assert (E : get (calculateRSI self 14) (len (calculateRSI self 14) - 1)
              = of_Z 100).
  { symmetry. apply (get_Forall (eq (of_Z 100))).
    - apply rsi_never_falls; try assumption; [lia|].
      unfold max_safe_integer. lia.
    - unfold len. rewrite calculateRSI_length. lia. }
  rewrite E, (rsi_rule_at_100 OL). reflexivity.
Qed.

(** The RSI of three exact observations with rising prices. *)
Lemma rsi_of_series_that_never_falls_witness :
  order_laws Exact.run /\ nan_source_laws Exact.run /\
  rounding_laws Exact.run /\ zero_laws Exact.run /\
  (1 <= 2)%nat /\ Z.of_nat 2 <= max_safe_integer /\
  Forall (fun d => is_finite (N := Exact.run) (price d) = true)
    (data three_days_exact) /\
  non_decreasing (N := Exact.run) (map price (data three_days_exact)) /\
  Forall (eq (@of_Z _ Exact.run 100))
    (calculateRSI (N := Exact.run) three_days_exact 2).
Proof.
  assert (OL : order_laws Exact.run) by apply Exact_order_laws.
  assert (SL : nan_source_laws Exact.run) by apply Exact_nan_source_laws.
  assert (RL : rounding_laws Exact.run) by apply Exact_rounding_laws.
  assert (ZL : zero_laws Exact.run) by apply Exact_zero_laws.
  assert (H1 : (1 <= 2)%nat) by lia.
  assert (H2 : Z.of_nat 2 <= max_safe_integer) by (vm_compute; discriminate).
  assert (Hfin : Forall (fun d => is_finite (N := Exact.run) (price d) = true)
                   (data three_days_exact)).
  { vm_compute data. repeat constructor. }
  assert (Hup : non_decreasing (N := Exact.run)
                  (map price (data three_days_exact))).
  { intros i H0 H3.
    change (len (map price (data three_days_exact))) with 3 in H3.
    assert (E : i = 0 \/ i = 1) by lia. destruct E as [->| ->]; reflexivity. }
  split; [exact OL|]. split; [exact SL|]. split; [exact RL|].
  split; [exact ZL|]. split; [exact H1|]. split; [exact H2|].
  split; [exact Hfin|]. split; [exact Hup|].
  exact (proj1 (rsi_of_series_that_never_falls Exact.run three_days_exact
                  2 OL SL RL ZL H1 H2 Hfin Hup)).
Defined.

(* ------------------------------------------------------------------ *)
(** ** Series shorter than a period *)

Section ShortSeries.

Context {num : Type} {N : Number num}.

(** With no more prices than the period the EMA routine and the smoothed
    average return a single value: the sum of all the prices divided by
    the period (not by their number). *)
Theorem averages_of_short_series (values : list num) (k : nat) :
  (length values <= k)%nat ->
  calculateExponentialMovingAverages values k
  = [(sum values / num_of_nat k)%num] /\
  calculateSmoothedMovingAverage values k
  = [(sum values / num_of_nat k)%num].
Proof.
  intros H.
  unfold calculateExponentialMovingAverages, calculateSmoothedMovingAverage.
  rewrite range_empty by (unfold len; lia).
  now rewrite slice_prefix, firstn_all2 by exact H.
Qed.

Lemma ema_short (values : list num) (k : nat) :
  (length values <= k)%nat ->
  calculateExponentialMovingAverages values k
  = [(sum values / num_of_nat k)%num].
Proof.
  intros H. unfold calculateExponentialMovingAverages.
  rewrite range_empty by (unfold len; lia).
  now rewrite slice_prefix, firstn_all2 by exact H.
Qed.

End ShortSeries.

(** Three binary64 prices under a period of 50. *)
Lemma averages_of_short_series_witness :
  let values := map Float64.of_Z [10; 11; 12] in
  (length values <= 50)%nat /\
  calculateExponentialMovingAverages (N := Float64.number) values 50
  = [PrimFloat.div (Float64.of_Z 33) (Float64.of_Z 50)].
Proof.
  intros values. assert (H : (length values <= 50)%nat) by (simpl; lia).
  split; [exact H|].
  refine (eq_trans (proj1 (averages_of_short_series
                             (N := Float64.number) values 50 H)) _).
  vm_compute. reflexivity.
Defined.

(* ------------------------------------------------------------------ *)
(** ** How the arrays of two indicators are paired *)

Section Pairing.

Context {num : Type} {N : Number num}.

(** The shape of the MACD line for at least [lp] prices and [sp <= lp]:
    it has one entry per short-EMA value; entry [j] is the short EMA entry
    [j] minus the long EMA entry [j] while the long EMA has an entry [j],
    and the short EMA entry minus [undefined] after that; the signal line
    is the EMA of this line. *)
Theorem macd_line_shape (self : TradingStrategy num) (sp lp gp : nat) :
  (sp <= lp <= length (data self))%nat ->
  let prices := map price (data self) in
  let S := calculateExponentialMovingAverages prices sp in
  let L := calculateExponentialMovingAverages prices lp in
  let macd := calculateMACD self sp lp gp in
  length (macdLine macd) = (length prices - sp + 1)%nat /\
  (forall j : Z, 0 <= j <= len prices - Z.of_nat lp ->
     item (macdLine macd) j = Some (get S j - get L j)%num) /\
  (forall j : Z,
     len prices - Z.of_nat lp < j <= len prices - Z.of_nat sp ->
     item (macdLine macd) j = Some (get S j - nan)%num) /\
  length (signalLine macd) = (1 + (length (macdLine macd) - gp))%nat.
Proof.
  intros Hp prices S L macd.
  assert (Hn : length prices = length (data self))
    by (unfold prices; apply length_map).
  assert (Hlen : length (macdLine macd) = (length prices - sp + 1)%nat).
  { unfold macd, calculateMACD. cbn [macdLine]. rewrite mapi_length.
    fold prices. rewrite calculateExponentialMovingAverages_length. lia. }
  split; [exact Hlen|]. split; [|split].
  - intros j Hj. unfold macd. rewrite macdLine_item. fold prices. fold S.
    destruct (item_in_bounds S j) as [x Ex].
    { unfold S. rewrite ema_len. unfold len in *. lia. }
    now rewrite Ex, (get_item _ _ _ Ex).
  - intros j Hj. unfold macd. rewrite macdLine_tail.
    + reflexivity.
    + lia.
    + unfold len in *. rewrite Hn in Hj. exact Hj.
  - unfold macd. rewrite signalLine_is_ema.
    apply calculateExponentialMovingAverages_length.
Qed.

(** How the Bollinger bands are put together, for a period of at least 1:
    entry [j] of the middle band is the mean of the full window that ends
    at input index [j + period - 1], and entry [j] of the upper and the
    lower band adds and subtracts the deviation of the trailing window
    that ends at input index [j]. *)
Theorem bands_pair_by_output_index (self : TradingStrategy num) (p : nat)
    (k : num) :
  (1 <= p)%nat ->
  let prices := map price (data self) in
  let b := calculateBollingerBands self p k in
  forall j : Z, 0 <= j -> j + Z.of_nat p <= len prices ->
    let mean :=
      arithmetic_mean (trailing_window prices p (j + Z.of_nat p - 1)) in
    let deviation := population_stddev (trailing_window prices p j) in
    item (middleBand b) j = Some mean /\
    item (upperBand b) j = Some (mean + deviation * k)%num /\
    item (lowerBand b) j = Some (mean - deviation * k)%num.
Proof.
  intros Hp prices b j H0 Hj mean deviation.
  assert (Em : item (middleBand b) j = Some mean).
  { replace j with (j + Z.of_nat p - 1 - (Z.of_nat p - 1)) at 1 by lia.
    unfold b, calculateBollingerBands. cbn [middleBand]. fold prices.
    rewrite calculateMovingAverage_item by lia.
    destruct (trailing_window_full prices p (j + Z.of_nat p - 1) Hp)
      as [Ew El]; [lia|].
    unfold mean, arithmetic_mean. now rewrite El, Ew. }
  destruct (bands_item self p k j) as [Eu El]; [fold prices; lia|].
  fold prices b in Eu, El. rewrite Eu, El, Em. now repeat split.
Qed.

(** The confidence a signal reports fits its recommendation: at most 30
    with HOLD, and from 35 to 100 with BUY or SELL. *)
Theorem confidence_fits_recommendation (self : TradingStrategy num)
    (s : StrategySignal num) :
  generateTradingSignal self = Ok s ->
  (recommendation s = HOLD -> 0 <= confidence s <= 30) /\
  (recommendation s <> HOLD -> 35 <= confidence s <= 100).
Proof.
  intros H.
  destruct (generateTradingSignal_Ok self s H)
    as (last & _ & _ & -> & -> & _).
  unfold signalScore. cbv zeta.
  match goal with
  | |- context [fst (applyRules ?a ?b ?c ?d ?e ?f ?g ?h ?i ?j)] =>
      destruct (applyRules_shape a b c d e f g h i j) as (_ & _ & Hb & Hm);
      set (score := fst (applyRules a b c d e f g h i j)) in *
  end.
  cbv zeta in Hb, Hm. fold score in Hb, Hm.
  assert (Hk : exists q, score = 5 * q).
  { exists (score / 5). rewrite (Z.div_mod score 5) at 1 by lia. lia. }
  destruct Hk as [q Hq]. unfold recommend.
  destruct (Z.gtb_spec score 30), (Z.ltb_spec score (-30));
    split; intros; try congruence; lia.
Qed.

End Pairing.

(** The MACD line of 27 binary64 days. *)
Lemma macd_line_shape_witness :
  let self := new_TradingStrategy (rising_days 27) in
  (12 <= 26 <= length (data self))%nat /\
  length (macdLine (calculateMACD (N := Float64.number) self 12 26 9))
  = 16%nat.
Proof.
  intros self.
  assert (H : (12 <= 26 <= length (data self))%nat) by (vm_compute; lia).
  split; [exact H|].
  exact (proj1 (macd_line_shape (N := Float64.number) self 12 26 9 H)).
Defined.

(** The bands of 22 binary64 days. *)
Lemma bands_pair_by_output_index_witness :
  let self := new_TradingStrategy (rising_days 22) in
  (1 <= 20)%nat /\
  item (middleBand (calculateBollingerBands (N := Float64.number) self 20
                      (Float64.of_Z 2))) 0
  = Some (arithmetic_mean (N := Float64.number)
            (trailing_window (map price (data self)) 20 19)).
Proof.
  intros self. assert (H : (1 <= 20)%nat) by lia. split; [exact H|].
  refine (proj1 (bands_pair_by_output_index (N := Float64.number) self 20
                   (Float64.of_Z 2) H 0 _ _)).
  - lia.
  - change (len (map price (data self))) with 22. lia.
Defined.

(** The confidence of a signal on three binary64 observations. *)
Lemma confidence_fits_recommendation_witness :
  exists s,
    generateTradingSignal (N := Float64.number) three_days = Ok s /\
    (recommendation s = HOLD -> 0 <= confidence s <= 30).
Proof.
  eexists. split.
  - vm_compute. reflexivity.
  - refine (proj1 (confidence_fits_recommendation (N := Float64.number)
                     three_days _ _)).
    vm_compute. reflexivity.
Defined.
